(** * decisionpoint: cash-flow pivot, summary and task grouping

    A shallow embedding of the data transformations of
    [src/hooks/use-cashflow-analysis.ts] and
    [src/components/tasks/tasks-category-view.tsx], with the properties
    the specification states about them, and of the fetches and views
    of the components around them, with further properties of the
    code.

    Conventions of the embedding:
    - the objects that the cash-flow functions use as dictionaries are
      given twice: as dictionaries ([gmap]s, module [Cashflow]), and as
      the objects of the language (module [CashflowObjects]), with the
      properties they inherit from [Object.prototype] and with the
      realm of built-in objects, which an assignment through an
      inherited value changes. On input none of whose ids and names is
      the name of a property of [Object.prototype], and in a pristine
      realm, the two give the same pivot
      ([ObjectFacts.transformCashflowData_plain]); in a pristine realm
      they give the same summary on every input
      ([ObjectFacts.calculateSummary_dictionary]);
    - the object of the task grouping is the list of its properties in
      insertion order, read with the properties it inherits
      ([JSObject.lookup]);
    - a [Set] is the list of its elements in insertion order;
    - strings are [string]s, the bytes of their UTF-8 encoding, and are
      compared as JavaScript compares them, by UTF-16 code units;
    - a year is an integer ([Z]); an amount is a value of a numeric
      interface [JsNumber], instantiated with exact integers ([Z]) and
      with IEEE 754 binary64 ([float]), the representation of a
      JavaScript number. *)

From Stdlib Require Import ZArith Ascii String.
From Stdlib Require Floats.PrimFloat.
From Stdlib Require Uint63.
From stdpp Require Import gmap strings list sorting pretty.

Local Open Scope string_scope.
Local Open Scope list_scope.
Local Open Scope Z_scope.

Set Warnings "-clear-no-such-hyp".

(** ** The parts of the JavaScript library the source relies on *)

Module JS.

(** [new Set(l)] and [set.add(x)]: elements are kept in the order of
    their first insertion. *)
Section Set_.
Context {A : Type} {A_eq_dec : EqDecision A}.

Definition Set_add (s : list A) (x : A) : list A :=
  if decide (x ∈ s) then s else s ++ [x].

Definition new_Set (l : list A) : list A := foldl Set_add [] l.
End Set_.

(** [Array.prototype.sort(compareFn)]: a stable sort; [x] is placed
    after [y] exactly when [compareFn x y > 0]. *)
Section sort.
Context {A : Type} (compareFn : A → A → Z).

Fixpoint sort_insert (x : A) (l : list A) : list A :=
  match l with
  | [] => [x]
  | y :: l' =>
      if 0 <? compareFn x y then y :: sort_insert x l' else x :: y :: l'
  end.

Definition sort (l : list A) : list A := foldr sort_insert [] l.
End sort.

Definition comparison_to_Z (c : comparison) : Z :=
  match c with Lt => -1 | Eq => 0 | Gt => 1 end.

(** A [string] holds the bytes of the UTF-8 encoding of a text, where
    JavaScript holds its UTF-16 code units. The two encodings order
    texts alike, but for the characters U+E000 to U+FFFF: as code units
    they stand after the surrogate pairs (D800 to DFFF) of the
    characters from U+10000 on, as bytes (lead byte EE or EF) before
    them (lead bytes F0 to F4). [code_unit_rank] moves the bytes EE and
    EF behind the others, so that the order of the ranked bytes is the
    order of the code units. *)
Definition code_unit_rank (b : ascii) : ascii :=
  let n := N_of_ascii b in
  if (n <? 238)%N then b
  else if (n <? 240)%N then ascii_of_N (n + 16)
  else ascii_of_N (n - 2).

Fixpoint code_unit_key (s : string) : string :=
  match s with
  | EmptyString => EmptyString
  | String b s' => String (code_unit_rank b) (code_unit_key s')
  end.

(** The comparison of two strings code unit by code unit. *)
Definition compare_code_units (a b : string) : comparison :=
  String.compare (code_unit_key a) (code_unit_key b).

(** [Array.prototype.sort()] without a comparator: the elements are
    converted to strings and the strings compared by code units. *)
Definition default_compare {A} (toString : A → string) (x y : A) : Z :=
  comparison_to_Z (compare_code_units (toString x) (toString y)).

Definition sort_default {A} (toString : A → string) : list A → list A :=
  sort (default_compare toString).

(** [String(n)] for an integer [n]: its decimal representation (exact
    below 10^21, where JavaScript switches to exponent notation). *)
Definition Number_toString (n : Z) : string := pretty n.

(** Truthiness of a string: every string but the empty one. *)
Definition string_truthy (s : string) : bool :=
  if decide (s = "") then false else true.

End JS.

(** ** The properties every object inherits *)

(** An object created by [{}] inherits the properties of
    [Object.prototype]: [o[key]] is the inherited value when [o] has no
    property [key] of its own. The task grouping, which assigns through
    no inherited value, is given in the realm as the language defines
    it; the cash-flow functions are given in every realm that their
    assignments produce ([CashflowObjects.Realm]). *)
Module Prototype.

(** The names of the properties of [Object.prototype]. All of them hold
    a function, but "__proto__", an accessor that yields the prototype
    of the object, [Object.prototype] itself for an object created by
    [{}]. *)
Definition names : list string :=
  ["constructor"; "toString"; "toLocaleString"; "valueOf"; "hasOwnProperty";
   "isPrototypeOf"; "propertyIsEnumerable"; "__defineGetter__";
   "__defineSetter__"; "__lookupGetter__"; "__lookupSetter__"; "__proto__"].

(** [f.name] for the function [f] that [Object.prototype[key]] holds. *)
Definition function_name (key : string) : string :=
  if decide (key = "constructor") then "Object" else key.

End Prototype.

(** ** Numbers *)

(** What the source does with an amount: add, subtract, the literal [0]
    and the truthiness test of [if (x)] and [x || 0]. *)
Class JsNumber (num : Type) := {
  num_zero : num;
  num_add : num → num → num;
  num_sub : num → num → num;
  num_truthy : num → bool
}.

(** Exact integer amounts: [0] is the only falsy value. *)
Global Instance Z_JsNumber : JsNumber Z := {|
  num_zero := 0;
  num_add := Z.add;
  num_sub := Z.sub;
  num_truthy := λ z, negb (z =? 0)
|}.

(** JavaScript numbers proper: binary64, where [0], [-0] and [NaN] are
    falsy. *)
Module IEEE.
Import PrimFloat.

Definition truthy (f : float) : bool := negb (is_zero f || is_nan f).
End IEEE.

Global Instance float_JsNumber : JsNumber PrimFloat.float := {|
  num_zero := PrimFloat.zero;
  num_add := PrimFloat.add;
  num_sub := PrimFloat.sub;
  num_truthy := IEEE.truthy
|}.

(** The result of an arithmetic operation one of whose operands may be
    [undefined]: [undefined - x] is [NaN]. *)
Inductive maybe_NaN (num : Type) : Type :=
  | Num (n : num)
  | NaN.
Global Arguments Num {num} n.
Global Arguments NaN {num}.

(** ** Data model of the cash-flow analysis *)

(** The declarations of [@/types/cashflow] ([CashflowRecord], [Category],
    [UploadedFile], [CashflowSummary], [PivotedCashflow]) are not part of
    the sources; the records below follow section 3 of the specification
    and the fields the code uses. *)

Module CashflowRecord.
(** Modelled from the spec: the type [CashflowRecord] of
    [@/types/cashflow], {id, source_file_id, category_id, year (integer),
    amount (signed numeric)}. *)
Record t (num : Type) : Type := mk {
  id : string;
  source_file_id : string;
  category_id : string;
  year : Z;
  amount : num
}.
Global Arguments mk {num}.
Global Arguments id {num}.
Global Arguments source_file_id {num}.
Global Arguments category_id {num}.
Global Arguments year {num}.
Global Arguments amount {num}.
End CashflowRecord.

Module Category.
(** Modelled from the spec: the type [Category] of [@/types/cashflow],
    {id, name, type}; the type is the string the code compares with
    "income" and "expense". *)
Record t : Type := mk {
  id : string;
  name : string;
  type : string
}.
End Category.

Module UploadedFile.
(** Modelled from the spec: the type [UploadedFile] of
    [@/types/cashflow]; [is_deleted] is true, false or absent. *)
Record t : Type := mk {
  id : string;
  filename : string;
  status : string;
  created_at : string;
  processed_at : option string;
  is_deleted : option bool
}.
End UploadedFile.

Module CashflowSummary.
(** Modelled from the spec: the type [CashflowSummary] of
    [@/types/cashflow], as [calculateSummary] builds it. An entry of
    [netByYear] is a difference of two lookups, either of which may be
    [undefined]. *)
Record t (num : Type) : Type := mk {
  incomeByYear : gmap Z num;
  expensesByYear : gmap Z num;
  netByYear : gmap Z (maybe_NaN num);
  totalIncome : num;
  totalExpenses : num;
  totalNet : num
}.
Global Arguments mk {num}.
Global Arguments incomeByYear {num}.
Global Arguments expensesByYear {num}.
Global Arguments netByYear {num}.
Global Arguments totalIncome {num}.
Global Arguments totalExpenses {num}.
Global Arguments totalNet {num}.
End CashflowSummary.

Module PivotedCashflow.
(** Modelled from the spec: the type [PivotedCashflow] of
    [@/types/cashflow], as [transformCashflowData] builds it. *)
Record t (num : Type) : Type := mk {
  byCategory : gmap string (gmap Z num);
  byYear : gmap Z (gmap string num);
  categories : gmap string Category.t;
  years : list Z;
  categoryNames : list string;
  summary : CashflowSummary.t num;
  records : list (CashflowRecord.t num);
  file : option UploadedFile.t
}.
Global Arguments mk {num}.
Global Arguments byCategory {num}.
Global Arguments byYear {num}.
Global Arguments categories {num}.
Global Arguments years {num}.
Global Arguments categoryNames {num}.
Global Arguments summary {num}.
Global Arguments records {num}.
Global Arguments file {num}.
End PivotedCashflow.

(** ** The pivot engine and the summary calculator
    ([src/hooks/use-cashflow-analysis.ts]), on dictionaries

    [categoryMap], [byCategory], [byYear] and the maps of the summary
    read as dictionaries, as their types declare them
    ([Record<string, Category>] and the like): a lookup finds what has
    been stored under the key, or nothing. [CashflowObjects] gives the
    same functions on the objects of the language. *)

Module Cashflow.
Section model.
Context {num : Type} {JN : JsNumber num}.

Local Abbreviation Record_ := (CashflowRecord.t num).

(** [if (m[k]) m[k] += amount else m[k] = amount] *)
Definition add_cell `{Countable K} (m : gmap K num) (k : K) (amount : num)
  : gmap K num :=
  match m !! k with
  | Some v =>
      if num_truthy v then <[k := num_add v amount]> m else <[k := amount]> m
  | None => <[k := amount]> m
  end.

(** [m[k] = (m[k] || 0) + amount] *)
Definition add_or_zero (m : gmap Z num) (k : Z) (amount : num) : gmap Z num :=
  let old := match m !! k with
             | Some v => if num_truthy v then v else num_zero
             | None => num_zero
             end in
  <[k := num_add old amount]> m.

(** *** calculateSummary *)

Record SummaryAcc : Type := {
  acc_incomeByYear : gmap Z num;
  acc_expensesByYear : gmap Z num;
  acc_totalIncome : num;
  acc_totalExpenses : num
}.

(** [years.forEach((year) => { m[year] = v })] on an empty object [m]. *)
Definition init_years {V} (v : V) (years : list Z) : gmap Z V :=
  foldl (λ m year, <[year := v]> m) ∅ years.

(** The body of [records.forEach]. *)
Definition summary_step (categories : gmap string Category.t)
    (acc : SummaryAcc) (record : Record_) : SummaryAcc :=
  match categories !! CashflowRecord.category_id record with
  | None => acc
  | Some category =>
      let year := CashflowRecord.year record in
      let amount := CashflowRecord.amount record in
      if decide (Category.type category = "income") then
        {| acc_incomeByYear := add_or_zero (acc_incomeByYear acc) year amount;
           acc_expensesByYear := acc_expensesByYear acc;
           acc_totalIncome := num_add (acc_totalIncome acc) amount;
           acc_totalExpenses := acc_totalExpenses acc |}
      else if decide (Category.type category = "expense") then
        {| acc_incomeByYear := acc_incomeByYear acc;
           acc_expensesByYear := add_or_zero (acc_expensesByYear acc) year amount;
           acc_totalIncome := acc_totalIncome acc;
           acc_totalExpenses := num_add (acc_totalExpenses acc) amount |}
      else acc
  end.

(** [incomeByYear[year] - expensesByYear[year]], where a missing
    operand is [undefined]. *)
Definition sub_lookup (a b : option num) : maybe_NaN num :=
  match a, b with
  | Some x, Some y => Num (num_sub x y)
  | _, _ => NaN
  end.

(** The body of the second [years.forEach]. *)
Definition net_step (incomeByYear expensesByYear : gmap Z num)
    (netByYear : gmap Z (maybe_NaN num)) (year : Z) : gmap Z (maybe_NaN num) :=
  <[year := sub_lookup (incomeByYear !! year) (expensesByYear !! year)]> netByYear.

Definition calculateSummary (records : list Record_)
    (categories : gmap string Category.t) (years : list Z)
  : CashflowSummary.t num :=
  let acc0 := {| acc_incomeByYear := init_years num_zero years;
                 acc_expensesByYear := init_years num_zero years;
                 acc_totalIncome := num_zero;
                 acc_totalExpenses := num_zero |} in
  let acc := foldl (summary_step categories) acc0 records in
  let netByYear :=
    foldl (net_step (acc_incomeByYear acc) (acc_expensesByYear acc))
          (init_years (Num num_zero) years) years in
  {| CashflowSummary.incomeByYear := acc_incomeByYear acc;
     CashflowSummary.expensesByYear := acc_expensesByYear acc;
     CashflowSummary.netByYear := netByYear;
     CashflowSummary.totalIncome := acc_totalIncome acc;
     CashflowSummary.totalExpenses := acc_totalExpenses acc;
     CashflowSummary.totalNet :=
       num_sub (acc_totalIncome acc) (acc_totalExpenses acc) |}.

(** *** transformCashflowData *)

(** [categoryMap], as a dictionary: later categories overwrite earlier
    ones of the same id. *)
Definition mkCategoryMap (categories : list Category.t)
  : gmap string Category.t :=
  foldl (λ m category, <[Category.id category := category]> m) ∅ categories.

(** [[...new Set(records.map(r => r.year))].sort()] *)
Definition mkYears (records : list Record_) : list Z :=
  JS.sort_default JS.Number_toString
    (JS.new_Set (CashflowRecord.year <$> records)).

Record PivotAcc : Type := {
  acc_byCategory : gmap string (gmap Z num);
  acc_byYear : gmap Z (gmap string num);
  acc_categoryNames : list string
}.

(** The body of [records.forEach], on dictionaries. [None] is the
    [TypeError] raised by reading a property of [undefined], were
    [byYear[record.year]] or [byCategory[categoryName]] missing. *)
Definition pivot_step (categoryMap : gmap string Category.t)
    (acc : PivotAcc) (record : Record_) : option PivotAcc :=
  match categoryMap !! CashflowRecord.category_id record with
  | None => Some acc
  | Some category =>
      let categoryName := Category.name category in
      let year := CashflowRecord.year record in
      let amount := CashflowRecord.amount record in
      let categoryNames := JS.Set_add (acc_categoryNames acc) categoryName in
      let byCategory0 :=
        match acc_byCategory acc !! categoryName with
        | None => <[categoryName := ∅]> (acc_byCategory acc)
        | Some _ => acc_byCategory acc
        end in
      row ← byCategory0 !! categoryName;
      let byCategory := <[categoryName := add_cell row year amount]> byCategory0 in
      col ← acc_byYear acc !! year;
      let byYear := <[year := add_cell col categoryName amount]> (acc_byYear acc) in
      Some {| acc_byCategory := byCategory;
              acc_byYear := byYear;
              acc_categoryNames := categoryNames |}
  end.

(** [records.forEach], stopping at the first exception. *)
Definition pivot_loop (categoryMap : gmap string Category.t)
    (acc : PivotAcc) (records : list Record_) : option PivotAcc :=
  foldl (λ oacc record, acc ← oacc; pivot_step categoryMap acc record)
        (Some acc) records.

Definition transformCashflowData (records : list Record_)
    (categories : list Category.t) (file : option UploadedFile.t)
  : option (PivotedCashflow.t num) :=
  let categoryMap := mkCategoryMap categories in
  let years := mkYears records in
  let acc0 := {| acc_byCategory := ∅;
                 acc_byYear := init_years ∅ years;
                 acc_categoryNames := [] |} in
  acc ← pivot_loop categoryMap acc0 records;
  let summary := calculateSummary records categoryMap years in
  Some {| PivotedCashflow.byCategory := acc_byCategory acc;
          PivotedCashflow.byYear := acc_byYear acc;
          PivotedCashflow.categories := categoryMap;
          PivotedCashflow.years := years;
          PivotedCashflow.categoryNames :=
            JS.sort_default id (acc_categoryNames acc);
          PivotedCashflow.summary := summary;
          PivotedCashflow.records := records;
          PivotedCashflow.file := file |}.

End model.
End Cashflow.

(** ** The pivot engine and the summary calculator, on objects

    [categoryMap], [byCategory], the rows of [byYear] and the maps of
    the summary are objects created by [{}]: a lookup that finds no
    property of the object itself goes on to its prototype. The
    functions of [Cashflow] read these objects as dictionaries; the
    functions below follow the lookups and the assignments of the
    source through the prototypes. *)

Module CashflowObjects.
Section model.
Context {num : Type} {JN : JsNumber num}.

Local Abbreviation Record_ := (CashflowRecord.t num).

(** The built-in objects an inherited lookup yields are the values of
    the properties of [Object.prototype]: eleven functions and, under
    "__proto__", [Object.prototype] itself. An assignment through such a
    lookup adds a property to the built-in object, where later lookups,
    in this call and in later ones, find it. A realm records the
    properties added: for a built-in object, named by the property of
    [Object.prototype] that yields it, the numbers it holds under
    years. The source adds no other property to a built-in object. *)
Definition Realm : Type := gmap string (gmap Z num).

(** The realm as the language defines it. *)
Definition pristine : Realm := ∅.

(** The properties added to a built-in object. *)
Definition added (realm : Realm) (object : string) : gmap Z num :=
  default ∅ (realm !! object).

(** [Object.prototype[key]] for a key that is not one of
    [Prototype.names]: a number added under the year whose decimal
    representation is the key. *)
Definition added_under (realm : Realm) (key : string) : option num :=
  (λ found : nat * (Z * num), found.2.2)
    <$> list_find (λ entry : Z * num, JS.Number_toString entry.1 = key)
                  (map_to_list (added realm "__proto__")).

(** What an object created by [{}] inherits under [key]. *)
Inductive Inherited : Type :=
  | BuiltIn (object : string)
  | AddedNumber (n : num)
  | NotInherited.

Definition inherited (realm : Realm) (key : string) : Inherited :=
  if decide (key ∈ Prototype.names) then BuiltIn key
  else match added_under realm key with
       | Some n => AddedNumber n
       | None => NotInherited
       end.

(** [o[year]] for an object [o] that holds the numbers [own] and
    inherits from [Object.prototype]; for a function, whose prototype
    holds no year; and for [Object.prototype] itself. *)
Definition get_year (realm : Realm) (own : gmap Z num) (year : Z)
  : option num :=
  match own !! year with
  | Some v => Some v
  | None => added realm "__proto__" !! year
  end.

(** [if (o[year]) o[year] += amount else o[year] = amount]: the
    properties of [o] after it. *)
Definition add_year (realm : Realm) (own : gmap Z num) (year : Z)
    (amount : num) : gmap Z num :=
  match get_year realm own year with
  | Some v =>
      if num_truthy v then <[year := num_add v amount]> own
      else <[year := amount]> own
  | None => <[year := amount]> own
  end.

(** *** categoryMap *)

(** [categoryMap]: the categories it holds under their ids, and its
    prototype when that has been set to a category; [Object.prototype]
    otherwise. *)
Record CategoryMap : Type := {
  own : gmap string Category.t;
  prototype : option Category.t
}.

(** [categoryMap[category.id] = category] on the object built from
    [{}]: an assignment to "__proto__" sets the prototype. *)
Definition set_category (m : CategoryMap) (category : Category.t)
  : CategoryMap :=
  if decide (Category.id category = "__proto__") then
    {| own := own m; prototype := Some category |}
  else
    {| own := <[Category.id category := category]> (own m);
       prototype := prototype m |}.

Definition mkCategoryMap (categories : list Category.t) : CategoryMap :=
  foldl set_category {| own := ∅; prototype := None |} categories.

(** The values [categoryMap[id]] can have. *)
Inductive Found : Type :=
  | IsCategory (category : Category.t)
  | IsString (s : string)
  | IsNumber (n : num)
  | IsObject (object : string)
  | IsUndefined.

Definition of_inherited (i : Inherited) : Found :=
  match i with
  | BuiltIn object => IsObject object
  | AddedNumber n => IsNumber n
  | NotInherited => IsUndefined
  end.

(** [categoryMap[id]]: a category held under the id; else what the
    prototype gives: the prototype itself under "__proto__", a field of
    a category that is the prototype, and what that category inherits
    in its turn. *)
Definition lookup_category (realm : Realm) (m : CategoryMap) (id : string)
  : Found :=
  match own m !! id with
  | Some category => IsCategory category
  | None =>
      match prototype m with
      | None => of_inherited (inherited realm id)
      | Some proto =>
          if decide (id = "__proto__") then IsCategory proto
          else if decide (id = "id") then IsString (Category.id proto)
          else if decide (id = "name") then IsString (Category.name proto)
          else if decide (id = "type") then IsString (Category.type proto)
          else of_inherited (inherited realm id)
      end
  end.

Definition truthy (v : Found) : bool :=
  match v with
  | IsCategory _ | IsObject _ => true
  | IsString s => JS.string_truthy s
  | IsNumber n => num_truthy n
  | IsUndefined => false
  end.

(** [category.name]: the name of a category, the name of a function;
    [undefined] for a string, a number and [Object.prototype]. *)
Definition name_of (category : Found) : option string :=
  match category with
  | IsCategory c => Some (Category.name c)
  | IsObject object =>
      if decide (object = "__proto__") then None
      else Some (Prototype.function_name object)
  | _ => None
  end.

(** [category.type]: only a category has one. *)
Definition type_of (category : Found) : option string :=
  match category with
  | IsCategory c => Some (Category.type c)
  | _ => None
  end.

(** The key of the property [o[categoryName]]. *)
Definition property_key (categoryName : option string) : string :=
  default "undefined" categoryName.

(** *** calculateSummary *)

(** [m[year] = (m[year] || 0) + amount] *)
Definition add_or_zero (realm : Realm) (m : gmap Z num) (year : Z)
    (amount : num) : gmap Z num :=
  let old := match get_year realm m year with
             | Some v => if num_truthy v then v else num_zero
             | None => num_zero
             end in
  <[year := num_add old amount]> m.

(** The body of [records.forEach]. *)
Definition summary_step (realm : Realm) (categories : CategoryMap)
    (acc : Cashflow.SummaryAcc) (record : Record_) : Cashflow.SummaryAcc :=
  let category :=
    lookup_category realm categories (CashflowRecord.category_id record) in
  if negb (truthy category) then acc
  else
    let year := CashflowRecord.year record in
    let amount := CashflowRecord.amount record in
    if decide (type_of category = Some "income") then
      {| Cashflow.acc_incomeByYear :=
           add_or_zero realm (Cashflow.acc_incomeByYear acc) year amount;
         Cashflow.acc_expensesByYear := Cashflow.acc_expensesByYear acc;
         Cashflow.acc_totalIncome :=
           num_add (Cashflow.acc_totalIncome acc) amount;
         Cashflow.acc_totalExpenses := Cashflow.acc_totalExpenses acc |}
    else if decide (type_of category = Some "expense") then
      {| Cashflow.acc_incomeByYear := Cashflow.acc_incomeByYear acc;
         Cashflow.acc_expensesByYear :=
           add_or_zero realm (Cashflow.acc_expensesByYear acc) year amount;
         Cashflow.acc_totalIncome := Cashflow.acc_totalIncome acc;
         Cashflow.acc_totalExpenses :=
           num_add (Cashflow.acc_totalExpenses acc) amount |}
    else acc.

(** The body of the second [years.forEach]. *)
Definition net_step (realm : Realm) (incomeByYear expensesByYear : gmap Z num)
    (netByYear : gmap Z (maybe_NaN num)) (year : Z) : gmap Z (maybe_NaN num) :=
  <[year := Cashflow.sub_lookup (get_year realm incomeByYear year)
                                (get_year realm expensesByYear year)]>
    netByYear.

Definition calculateSummary (realm : Realm) (records : list Record_)
    (categories : CategoryMap) (years : list Z) : CashflowSummary.t num :=
  let acc0 :=
    {| Cashflow.acc_incomeByYear := Cashflow.init_years num_zero years;
       Cashflow.acc_expensesByYear := Cashflow.init_years num_zero years;
       Cashflow.acc_totalIncome := num_zero;
       Cashflow.acc_totalExpenses := num_zero |} in
  let acc := foldl (summary_step realm categories) acc0 records in
  let netByYear :=
    foldl (net_step realm (Cashflow.acc_incomeByYear acc)
                          (Cashflow.acc_expensesByYear acc))
          (Cashflow.init_years (Num num_zero) years) years in
  {| CashflowSummary.incomeByYear := Cashflow.acc_incomeByYear acc;
     CashflowSummary.expensesByYear := Cashflow.acc_expensesByYear acc;
     CashflowSummary.netByYear := netByYear;
     CashflowSummary.totalIncome := Cashflow.acc_totalIncome acc;
     CashflowSummary.totalExpenses := Cashflow.acc_totalExpenses acc;
     CashflowSummary.totalNet :=
       num_sub (Cashflow.acc_totalIncome acc)
               (Cashflow.acc_totalExpenses acc) |}.

(** *** transformCashflowData *)

(** What [byYear[year][categoryName]] can hold: an amount, or the
    string that [+=] makes of a built-in object, its text followed by
    the amounts appended to it. *)
Inductive Cell : Type :=
  | Amount (n : num)
  | Text (object : string) (appended : list num).

(** The object the source returns. *)
Record Pivot : Type := {
  byCategory : gmap string (gmap Z num);
  byYear : gmap Z (gmap string Cell);
  categories : CategoryMap;
  years : list Z;
  categoryNames : list (option string);
  summary : CashflowSummary.t num;
  records : list Record_;
  file : option UploadedFile.t
}.

Record PivotAcc : Type := {
  acc_byCategory : gmap string (gmap Z num);
  acc_byYear : gmap Z (gmap string Cell);
  acc_categoryNames : list (option string)
}.

(** The values [byCategory[categoryName]] can have: a row of its own,
    or what it inherits. *)
Inductive Holder : Type :=
  | Row (row : gmap Z num)
  | Inherits (i : Inherited).

Definition lookup_row (realm : Realm) (byCategory : gmap string (gmap Z num))
    (key : string) : Holder :=
  match byCategory !! key with
  | Some row => Row row
  | None => Inherits (inherited realm key)
  end.

Definition holder_truthy (h : Holder) : bool :=
  match h with
  | Row _ | Inherits (BuiltIn _) => true
  | Inherits (AddedNumber n) => num_truthy n
  | Inherits NotInherited => false
  end.

(** [if (col[key]) col[key] += amount else col[key] = amount] for a row
    [col] of [byYear]. Added to a built-in object, the amount gives a
    string, and so does an amount added to a string; an assignment to
    "__proto__" of a value that is no object changes nothing. *)
Definition add_name (realm : Realm) (col : gmap string Cell) (key : string)
    (amount : num) : gmap string Cell :=
  let value :=
    match col !! key with
    | Some (Amount v) =>
        if num_truthy v then Amount (num_add v amount) else Amount amount
    | Some (Text object appended) => Text object (appended ++ [amount])
    | None =>
        match inherited realm key with
        | BuiltIn object => Text object [amount]
        | AddedNumber v =>
            if num_truthy v then Amount (num_add v amount) else Amount amount
        | NotInherited => Amount amount
        end
    end in
  if decide (key = "__proto__") then col else <[key := value]> col.

(** The body of [records.forEach]: the accumulator and the realm after
    it. [None] is a [TypeError]: of the assignment of a property to a
    number (the source is a module, hence strict code), and of the
    reading of a property of [undefined], were [byYear[record.year]] or
    [byCategory[categoryName]] missing. *)
Definition pivot_step (categoryMap : CategoryMap) (realm : Realm)
    (acc : PivotAcc) (record : Record_) : option PivotAcc * Realm :=
  let category :=
    lookup_category realm categoryMap (CashflowRecord.category_id record) in
  if negb (truthy category) then (Some acc, realm)
  else
    let categoryName := name_of category in
    let key := property_key categoryName in
    let year := CashflowRecord.year record in
    let amount := CashflowRecord.amount record in
    let categoryNames := JS.Set_add (acc_categoryNames acc) categoryName in
    let byCategory0 :=
      if holder_truthy (lookup_row realm (acc_byCategory acc) key)
      then acc_byCategory acc
      else <[key := ∅]> (acc_byCategory acc) in
    let written :=
      match lookup_row realm byCategory0 key with
      | Row row =>
          Some (<[key := add_year realm row year amount]> byCategory0, realm)
      | Inherits (BuiltIn object) =>
          Some (byCategory0,
                <[object := add_year realm (added realm object) year amount]>
                  realm)
      | Inherits (AddedNumber _) => None
      | Inherits NotInherited => None
      end in
    match written with
    | None => (None, realm)
    | Some (byCategory, realm') =>
        match acc_byYear acc !! year with
        | None => (None, realm')
        | Some col =>
            (Some {| acc_byCategory := byCategory;
                     acc_byYear :=
                       <[year := add_name realm' col key amount]>
                         (acc_byYear acc);
                     acc_categoryNames := categoryNames |},
             realm')
        end
    end.

(** [records.forEach], stopping at the first exception. *)
Definition pivot_loop (categoryMap : CategoryMap) (realm : Realm)
    (acc : PivotAcc) (records : list Record_) : option PivotAcc * Realm :=
  foldl (λ state record,
           match state with
           | (Some acc, realm) => pivot_step categoryMap realm acc record
           | (None, realm) => (None, realm)
           end)
        (Some acc, realm) records.

(** [[...categoryNames].sort()]: the strings by code units, then
    [undefined]. *)
Definition sort_names (categoryNames : list (option string))
  : list (option string) :=
  (Some <$> JS.sort_default id (omap id categoryNames))
  ++ filter (λ name, name = None) categoryNames.

(** [transformCashflowData], called in a realm: what it returns, [None]
    for a [TypeError], and the realm it leaves. *)
Definition transformCashflowData (realm : Realm) (records : list Record_)
    (categories : list Category.t) (file : option UploadedFile.t)
  : option Pivot * Realm :=
  let categoryMap := mkCategoryMap categories in
  let years := Cashflow.mkYears records in
  let acc0 := {| acc_byCategory := ∅;
                 acc_byYear := Cashflow.init_years ∅ years;
                 acc_categoryNames := [] |} in
  match pivot_loop categoryMap realm acc0 records with
  | (None, realm') => (None, realm')
  | (Some acc, realm') =>
      let summary := calculateSummary realm' records categoryMap years in
      (Some {| byCategory := acc_byCategory acc;
               byYear := acc_byYear acc;
               categories := categoryMap;
               years := years;
               categoryNames := sort_names (acc_categoryNames acc);
               summary := summary;
               records := records;
               file := file |},
       realm')
  end.

End model.

Global Arguments Realm : clear implicits.
Global Arguments Inherited : clear implicits.
Global Arguments Found : clear implicits.
Global Arguments Cell : clear implicits.
Global Arguments Holder : clear implicits.
Global Arguments Pivot : clear implicits.
Global Arguments PivotAcc : clear implicits.
Global Arguments NotInherited {num}.
Global Arguments BuiltIn {num} object.
Global Arguments IsCategory {num} category.
Global Arguments IsString {num} s.
Global Arguments IsObject {num} object.
Global Arguments IsUndefined {num}.
Global Arguments Text {num} object appended.
End CashflowObjects.

(** ** The analysis hook ([useCashflowAnalysis]) *)

Module QueryResult.
(** The [{ data, error }] pair a store query resolves to; [error] holds
    the message of the error object. *)
Record t (A : Type) : Type := mk {
  data : option A;
  error : option string
}.
Global Arguments mk {A}.
Global Arguments data {A}.
Global Arguments error {A}.
End QueryResult.

Module Hook.

(** Exceptions: [new Error(message)], and the [TypeError] of the
    runtime. *)
Inductive JsError : Type :=
  | Error (message : string)
  | TypeError.

(** The queries [fetchData] sends to the store. *)
Inductive Query : Type :=
  | SelectUploadedFile (fileId : string)
  | SelectCashflowRecords (fileId : string)
  | SelectCashflowCategories.

Section model.
Context {num : Type} {JN : JsNumber num}.

(** The store, as the answers it gives. *)
Record Supabase : Type := {
  uploaded_files : string → QueryResult.t (list UploadedFile.t);
  cashflow_records : string → QueryResult.t (list (CashflowRecord.t num));
  cashflow_categories : QueryResult.t (list Category.t)
}.

(** The three [useState] cells. *)
Record State : Type := {
  data : option (CashflowObjects.Pivot num);
  isLoading : bool;
  error : option JsError
}.

(** The component state together with the queries sent so far. *)
Record World : Type := {
  state : State;
  sent : list Query
}.

(** Computations that update the world and return or throw. *)
Definition M (A : Type) : Type := World → (JsError + A) * World.

Definition ret {A} (x : A) : M A := λ w, (inr x, w).
Definition throw {A} (e : JsError) : M A := λ w, (inl e, w).
Definition bind {A B} (m : M A) (k : A → M B) : M B :=
  λ w, match m w with
       | (inl e, w') => (inl e, w')
       | (inr x, w') => k x w'
       end.

(** [try { body } catch (err) { handler(err) } finally { final }] *)
Definition try_catch_finally (body : M unit) (handler : JsError → M unit)
    (final : M unit) : M unit :=
  λ w, match body w with
       | (inl e, w') => bind (handler e) (λ _, final) w'
       | (inr _, w') => final w'
       end.

Definition update (f : State → State) : M unit :=
  λ w, (inr tt, {| state := f (state w); sent := sent w |}).

Definition setData (d : option (CashflowObjects.Pivot num)) : M unit :=
  update (λ s, {| data := d; isLoading := isLoading s; error := error s |}).
Definition setIsLoading (b : bool) : M unit :=
  update (λ s, {| data := data s; isLoading := b; error := error s |}).
Definition setError (e : option JsError) : M unit :=
  update (λ s, {| data := data s; isLoading := isLoading s; error := e |}).

Definition send {A} (q : Query) (answer : A) : M A :=
  λ w, (inr answer, {| state := state w; sent := sent w ++ [q] |}).

Local Notation "'await' x ':=' m 'then' k" := (bind m (λ x, k))
  (at level 10, x name, m at level 100, k at level 200).
Local Notation "'run' m 'then' k" := (bind m (λ _, k))
  (at level 10, m at level 100, k at level 200).

(** The body of the [try] block. [transformCashflowData] is entered with
    the built-in objects as the language defines them; a [TypeError] it
    raises is thrown on. *)
Definition fetchBody (supabase : Supabase) (fileId : string) : M unit :=
  run setIsLoading true then
  run setError None then
  await fileResult :=
    send (SelectUploadedFile fileId) (uploaded_files supabase fileId) then
  match QueryResult.error fileResult with
  | Some message => throw (Error ("Error fetching file: " +:+ message))
  | None =>
  match QueryResult.data fileResult with
  | None | Some [] =>
      throw (Error ("File with ID " +:+ fileId
                    +:+ " not found or has been deleted"))
  | Some (file :: _) =>
  await recordsResult :=
    send (SelectCashflowRecords fileId) (cashflow_records supabase fileId) then
  match QueryResult.error recordsResult with
  | Some message => throw (Error ("Error fetching records: " +:+ message))
  | None =>
  await categoriesResult :=
    send SelectCashflowCategories (cashflow_categories supabase) then
  match QueryResult.error categoriesResult with
  | Some message => throw (Error ("Error fetching categories: " +:+ message))
  | None =>
  match QueryResult.data recordsResult, QueryResult.data categoriesResult with
  | Some records, Some categories =>
      match CashflowObjects.transformCashflowData CashflowObjects.pristine
              records categories (Some file) with
      | (Some transformedData, _) => setData (Some transformedData)
      | (None, _) => throw TypeError
      end
  | _, _ => throw TypeError
  end end end end end.

Definition fetchData (supabase : Supabase) (fileId : string) : M unit :=
  if negb (JS.string_truthy fileId) then
    run setError (Some (Error "File ID is required")) then
    run setIsLoading false then
    ret tt
  else
    try_catch_finally (fetchBody supabase fileId)
      (λ err, setError (Some err))
      (setIsLoading false).

End model.
End Hook.

(** ** Task grouping ([src/components/tasks/tasks-category-view.tsx]) *)

Module Task.
Record t : Type := mk {
  task_id : string;
  task_name : string;
  description : string;
  task_type : string;
  category : option string;
  seller_id : string
}.
End Task.

(** The [UploadedFile] interface of the task view. *)
Module TaskFile.
Record t : Type := mk {
  id : string;
  task_id : string;
  status : string
}.
End TaskFile.

(** A row of [survey_responses], as selected ([task_id, value]); the
    value is a string or [null]. *)
Module SurveyResponse.
Record t : Type := mk {
  task_id : string;
  value : option string
}.
End SurveyResponse.

(** [Task & { response?: string | null; isComplete?: boolean }] *)
Module TaskState.
Record t : Type := mk {
  task : Task.t;
  response : option string;
  isComplete : option bool
}.
End TaskState.

(** An element of a bucket: the task spread, with [isComplete] a
    boolean. *)
Module GroupedTask.
Record t : Type := mk {
  task : Task.t;
  response : option string;
  isComplete : bool
}.
End GroupedTask.

Module TaskCategory.
Record t : Type := mk {
  name : string;
  tasks : list GroupedTask.t;
  isComplete : bool
}.
End TaskCategory.

(** An object whose own string keys are enumerated: the entries in
    insertion order, and [Object.entries], which lists the keys that are
    array indices first, in ascending numeric order, then the others in
    insertion order. *)
Module JSObject.
Abbreviation t V := (list (string * V)) (only parsing).

Section obj.
Context {V : Type}.

Fixpoint get (o : t V) (k : string) : option V :=
  match o with
  | [] => None
  | (k', v) :: o' => if decide (k' = k) then Some v else get o' k
  end.

(** [o[k]]: the property of [o] itself, or else the one it inherits
    from [Object.prototype]. *)
Inductive Property : Type :=
  | Own (v : V)
  | Inherited (key : string)
  | Undefined.

Definition lookup (o : t V) (k : string) : Property :=
  match get o k with
  | Some v => Own v
  | None => if decide (k ∈ Prototype.names) then Inherited k else Undefined
  end.

(** [o[k] = v] *)
Fixpoint set (o : t V) (k : string) (v : V) : t V :=
  match o with
  | [] => [(k, v)]
  | (k', v') :: o' =>
      if decide (k' = k) then (k, v) :: o' else (k', v') :: set o' k v
  end.

Fixpoint parse_digits (s : string) (acc : N) : option N :=
  match s with
  | EmptyString => Some acc
  | String c s' =>
      d ← Ascii.is_nat c; parse_digits s' (10 * acc + N.of_nat d)%N
  end.

(** A canonical numeric string below [2^32 - 1]. *)
Definition array_index (s : string) : option N :=
  n ← parse_digits s 0%N;
  if decide (pretty n = s ∧ (n < 2 ^ 32 - 1)%N) then Some n else None.

Definition indexed (kv : string * V) : option (N * (string * V)) :=
  n ← array_index kv.1; Some (n, kv).

Definition entries (o : t V) : list (string * V) :=
  (snd <$> JS.sort (λ a b, Z.of_N a.1 - Z.of_N b.1) (omap indexed o))
  ++ filter (λ kv, array_index kv.1 = None) o.
End obj.
Global Arguments Own {V} v.
Global Arguments Inherited {V} key.
Global Arguments Undefined {V}.
End JSObject.

Module Tasks.

(** The completion merge of [fetchTasksAndFiles] (the [tasks.map]
    callback). [files] and [responses] may be [null]. *)
Definition mergeTask (files : option (list TaskFile.t))
    (responses : option (list SurveyResponse.t)) (t : Task.t) : TaskState.t :=
  let resp :=
    responses ≫= List.find (λ r,
      bool_decide (SurveyResponse.task_id r = Task.task_id t)) in
  let value := resp ≫= SurveyResponse.value in
  let answered := from_option JS.string_truthy false value in
  {| TaskState.task := t;
     TaskState.response := value;
     TaskState.isComplete :=
       Some match files with
            | Some files =>
                existsb (λ file,
                  bool_decide (TaskFile.task_id file = Task.task_id t)
                  && bool_decide (TaskFile.status file = "processed")) files
                || answered
            | None => answered
            end |}.

Definition tasksWithState (tasks : list Task.t)
    (files : option (list TaskFile.t))
    (responses : option (list SurveyResponse.t)) : list TaskState.t :=
  mergeTask files responses <$> tasks.

Section grouping.
(** [String.prototype.localeCompare], which depends on the collation
    of the host. *)
Variable localeCompare : string → string → Z.

(** [task.category || "Uncategorized"] *)
Definition categoryOf (task : TaskState.t) : string :=
  match Task.category (TaskState.task task) with
  | Some c => if JS.string_truthy c then c else "Uncategorized"
  | None => "Uncategorized"
  end.

(** The body of [tasks.forEach]. [tasksByCategory[category]] is the
    bucket of the category, or the value inherited under that name, which
    is truthy and has no [push], or [undefined]. [None] is the
    [TypeError] of calling [push] on a value that has none. *)
Definition group_step (tasksByCategory : JSObject.t (list GroupedTask.t))
    (task : TaskState.t) : option (JSObject.t (list GroupedTask.t)) :=
  let isComplete := bool_decide (TaskState.isComplete task = Some true) in
  let category := categoryOf task in
  let tasksByCategory0 :=
    match JSObject.lookup tasksByCategory category with
    | JSObject.Undefined => JSObject.set tasksByCategory category []
    | _ => tasksByCategory
    end in
  let item := {| GroupedTask.task := TaskState.task task;
                 GroupedTask.response := TaskState.response task;
                 GroupedTask.isComplete := isComplete |} in
  match JSObject.lookup tasksByCategory0 category with
  | JSObject.Own bucket =>
      Some (JSObject.set tasksByCategory0 category (bucket ++ [item]))
  | _ => None
  end.

(** The callback of [Object.entries(tasksByCategory).map]. *)
Definition mkCategory (entry : string * list GroupedTask.t) : TaskCategory.t :=
  {| TaskCategory.name := entry.1;
     TaskCategory.tasks := entry.2;
     TaskCategory.isComplete := forallb GroupedTask.isComplete entry.2 |}.

(** The comparator of [categoriesArray.sort]. *)
Definition compareCategories (a b : TaskCategory.t) : Z :=
  if decide (TaskCategory.name a = "Uncategorized") then 1
  else if decide (TaskCategory.name b = "Uncategorized") then -1
  else localeCompare (TaskCategory.name a) (TaskCategory.name b).

(** The array returned, which is also the one handed to
    [setCategories]; [None] is the [TypeError] raised in [tasks.forEach],
    which stops at the first exception. *)
Definition processTasksAndFiles (tasks : list TaskState.t)
    (files : list TaskFile.t) (responses : list SurveyResponse.t)
  : option (list TaskCategory.t) :=
  tasksByCategory ←
    foldl (λ tasksByCategory task,
             tasksByCategory ≫= λ tasksByCategory,
               group_step tasksByCategory task)
          (Some []) tasks;
  let categoriesArray := mkCategory <$> JSObject.entries tasksByCategory in
  Some (JS.sort compareCategories categoriesArray).

End grouping.
End Tasks.

(** ** The analysis page ([AnalysisWithFileIdPage]) *)

Module AnalysisPage.
Section model.
Context {num : Type} {JN : JsNumber num}.




End model.
End AnalysisPage.

(** ** Effects of the components *)

(** Computations over a world [W] that return or throw an [E]. *)
Module Effect.
Section monad.
Context {W E : Type}.

Definition M (A : Type) : Type := W → (E + A) * W.

Definition ret {A} (x : A) : M A := λ w, (inr x, w).
Definition throw {A} (e : E) : M A := λ w, (inl e, w).
Definition bind {A B} (m : M A) (k : A → M B) : M B :=
  λ w, match m w with
       | (inl e, w') => (inl e, w')
       | (inr x, w') => k x w'
       end.
Definition get : M W := λ w, (inr w, w).
Definition modify (f : W → W) : M unit := λ w, (inr tt, f w).

(** [try { body } catch (err) { handler(err) }] *)
Definition try_catch {A} (body : M A) (handler : E → M A) : M A :=
  λ w, match body w with
       | (inl e, w') => handler e w'
       | (inr x, w') => (inr x, w')
       end.

(** [try { body } finally { final }]: [final] runs after [body], also
    when [body] returns early or throws. *)
Definition finally {A} (body : M A) (final : M unit) : M A :=
  λ w, match body w with
       | (r, w') =>
           match final w' with
           | (inl e, w'') => (inl e, w'')
           | (inr _, w'') => (r, w'')
           end
       end.
End monad.
Global Arguments M : clear implicits.

Module Notations.
Notation "'await' x ':=' m 'then' k" := (bind m (λ x, k))
  (at level 10, x name, m at level 100, k at level 200, only parsing).
Notation "'run' m 'then' k" := (bind m (λ _, k))
  (at level 10, m at level 100, k at level 200, only parsing).
End Notations.
End Effect.

(** ** The task view ([TasksCategoryView]) *)

Module TasksView.
Import Effect Effect.Notations.

(** *** isValidUUID *)

(** A character class, as the string of its characters. *)
Definition char_in (chars : string) (c : Ascii.ascii) : bool :=
  existsb (Ascii.eqb c) (list_ascii_of_string chars).

(** [class{n}] at the head of [s]: what is left of [s]. *)
Fixpoint match_class (chars : string) (n : nat) (s : string) : option string :=
  match n with
  | O => Some s
  | S n' =>
      match s with
      | String c s' => if char_in chars c then match_class chars n' s' else None
      | EmptyString => None
      end
  end.

(** [/^items$/.test(s)] for a sequence of [class{n}] items. *)
Fixpoint test (items : list (string * nat)) (s : string) : bool :=
  match items with
  | [] => bool_decide (s = "")
  | (chars, n) :: items' =>
      match match_class chars n s with
      | Some s' => test items' s'
      | None => false
      end
  end.

(** [[0-9a-f]] under the flag [i]. *)
Definition hex : string := "0123456789abcdefABCDEF".

(** [/^[0-9a-f]{8}-[0-9a-f]{4}-[1-5][0-9a-f]{3}-[89ab][0-9a-f]{3}-[0-9a-f]{12}$/i] *)
Definition uuid_regex : list (string * nat) :=
  [(hex, 8); ("-", 1); (hex, 4); ("-", 1); ("12345", 1); (hex, 3); ("-", 1);
   ("89abAB", 1); (hex, 3); ("-", 1); (hex, 12)]%nat.

Definition isValidUUID (uuid : string) : bool := test uuid_regex uuid.

Definition fallbackUUID : string := "37add0e6-16d4-4607-b057-7e7a1ede55f1".

Definition validatedBusinessId (businessId : string) : string :=
  if isValidUUID businessId then businessId else fallbackUUID.

(** *** The component *)

(** The store, as the answers it gives. *)
Record Supabase : Type := {
  tasks : string → QueryResult.t (list Task.t);
  uploaded_files : string → QueryResult.t (list TaskFile.t);
  survey_responses : string → QueryResult.t (list SurveyResponse.t)
}.

(** The queries [fetchTasksAndFiles] sends to the store. *)
Inductive Query : Type :=
  | SelectTasks (seller_id : string)
  | SelectUploadedFiles (business_id : string)
  | SelectSurveyResponses (business_id : string).

(** The three [useState] cells. *)
Record State : Type := {
  categories : list TaskCategory.t;
  isLoading : bool;
  error : option string
}.

(** The component state together with the queries sent so far. *)
Record World : Type := {
  state : State;
  sent : list Query
}.

(** The two places a [TypeError] comes from: [tasks.map] on [null],
    and [push] on an inherited value. *)
Inductive TypeErrorSite : Type :=
  | MapOfNull
  | PushOfInherited.

(** Exceptions: [new Error(message)], and the [TypeError] of the
    runtime. *)
Inductive Thrown : Type :=
  | Error (message : string)
  | TypeError (site : TypeErrorSite).

Definition update (f : State → State) : M World Thrown unit :=
  modify (λ w, {| state := f (state w); sent := sent w |}).

Definition setCategories (c : list TaskCategory.t) : M World Thrown unit :=
  update (λ s, {| categories := c; isLoading := isLoading s; error := error s |}).
Definition setIsLoading (b : bool) : M World Thrown unit :=
  update (λ s, {| categories := categories s; isLoading := b; error := error s |}).
Definition setError (e : option string) : M World Thrown unit :=
  update (λ s, {| categories := categories s; isLoading := isLoading s; error := e |}).

Definition send {A} (q : Query) (answer : A) : M World Thrown A :=
  λ w, (inr answer, {| state := state w; sent := sent w ++ [q] |}).

Section component.
(** [String.prototype.localeCompare], and the message of a
    [TypeError], which both depend on the host. *)
Variable localeCompare : string → string → Z.
Variable typeErrorMessage : TypeErrorSite → string.

(** [err.message] *)
Definition message (err : Thrown) : string :=
  match err with
  | Error message => message
  | TypeError site => typeErrorMessage site
  end.

Definition processTasksAndFiles (tasks : list TaskState.t)
    (files : list TaskFile.t) (responses : list SurveyResponse.t)
  : M World Thrown (list TaskCategory.t) :=
  match Tasks.processTasksAndFiles localeCompare tasks files responses with
  | None => throw (TypeError PushOfInherited)
  | Some categoriesArray =>
      run setCategories categoriesArray then
      ret categoriesArray
  end.

Definition fetchTasksAndFiles (supabase : Supabase) (businessId : string)
  : M World Thrown unit :=
  finally
    (try_catch
       (run setIsLoading true then
        let validatedBusinessId := validatedBusinessId businessId in
        await tasksResult :=
          send (SelectTasks validatedBusinessId)
               (tasks supabase validatedBusinessId) then
        match QueryResult.error tasksResult with
        | Some message =>
            throw (Error ("Failed to fetch tasks: " +:+ message))
        | None =>
        await filesResult :=
          send (SelectUploadedFiles validatedBusinessId)
               (uploaded_files supabase validatedBusinessId) then
        match QueryResult.error filesResult with
        | Some message =>
            throw (Error ("Failed to fetch files: " +:+ message))
        | None =>
        await responsesResult :=
          send (SelectSurveyResponses validatedBusinessId)
               (survey_responses supabase validatedBusinessId) then
        let files := QueryResult.data filesResult in
        let responses := QueryResult.data responsesResult in
        match QueryResult.data tasksResult with
        | None => throw (TypeError MapOfNull)
        | Some tasks =>
            let tasksWithState := Tasks.tasksWithState tasks files responses in
            await mergedTasks :=
              processTasksAndFiles tasksWithState (default [] files)
                                   (default [] responses) then
            ret tt
        end end end)
       (λ err, setError (Some (message err))))
    (setIsLoading false).

End component.

(** What the component renders. *)
Inductive View : Type :=
  | Loading
  | ErrorPanel (error : string)
  | NoTasks
  | Accordion (categories : list TaskCategory.t).

Definition render (s : State) : View :=
  if isLoading s then Loading
  else
    let list :=
      if bool_decide (length (categories s) = 0%nat) then NoTasks
      else Accordion (categories s) in
    match error s with
    | Some error => if JS.string_truthy error then ErrorPanel error else list
    | None => list
    end.

End TasksView.

(** ** The last analysed file ([useLastAnalyzedFile]) *)

(** The interface [FileInfo]. *)
Module FileInfo.
(** [is_deleted?: boolean | null]: absent, [null] or a boolean. *)
Inductive Deleted : Type :=
  | Absent
  | Null
  | Bool (b : bool).

Record t : Type := mk {
  id : string;
  filename : string;
  created_at : string;
  processed_at : option string;
  is_deleted : Deleted
}.
End FileInfo.

Module LastFile.
Import Effect Effect.Notations.

(** The store, as the answers it gives: the user of the session, if
    any; the processed files of a user; the row of a file id that is
    not deleted, as [single()] gives it. *)
Record Supabase : Type := {
  auth_user : option string;
  processed_files : string → QueryResult.t (list FileInfo.t);
  live_file : string → QueryResult.t string
}.

Inductive Query : Type :=
  | GetUser
  | SelectProcessedFiles (user_id : string)
  | SelectLiveFile (fileId : string).

(** The three [useState] cells. *)
Record State : Type := {
  lastFileId : option string;
  isLoading : bool;
  recentFiles : list FileInfo.t
}.

Record World : Type := {
  state : State;
  sent : list Query
}.

(** What is thrown: the error object of a query. *)
Inductive Thrown : Type :=
  | QueryError (message : string).

Definition update (f : State → State) : M World Thrown unit :=
  modify (λ w, {| state := f (state w); sent := sent w |}).

Definition setLastFileId (id : option string) : M World Thrown unit :=
  update (λ s, {| lastFileId := id; isLoading := isLoading s;
                  recentFiles := recentFiles s |}).
Definition setIsLoading (b : bool) : M World Thrown unit :=
  update (λ s, {| lastFileId := lastFileId s; isLoading := b;
                  recentFiles := recentFiles s |}).
Definition setRecentFiles (files : list FileInfo.t) : M World Thrown unit :=
  update (λ s, {| lastFileId := lastFileId s; isLoading := isLoading s;
                  recentFiles := files |}).

Definition send {A} (q : Query) (answer : A) : M World Thrown A :=
  λ w, (inr answer, {| state := state w; sent := sent w ++ [q] |}).

(** [file.is_deleted === false || file.is_deleted === null] *)
Definition not_deleted (file : FileInfo.t) : bool :=
  match FileInfo.is_deleted file with
  | FileInfo.Bool false | FileInfo.Null => true
  | _ => false
  end.

Definition fetchRecentFiles (supabase : Supabase)
  : M World Thrown (option string) :=
  finally
    (try_catch
       (run setIsLoading true then
        await user := send GetUser (auth_user supabase) then
        match user with
        | None => ret None
        | Some user_id =>
        await result :=
          send (SelectProcessedFiles user_id)
               (processed_files supabase user_id) then
        match QueryResult.error result with
        | Some message => throw (QueryError message)
        | None =>
        let filteredData := filter not_deleted <$> QueryResult.data result in
        run setRecentFiles (default [] filteredData) then
        ret match filteredData with
            | Some (file :: _) => Some (FileInfo.id file)
            | _ => None
            end
        end end)
       (λ _, ret None))
    (setIsLoading false).

Definition checkFileExists (supabase : Supabase) (fileId : string)
  : M World Thrown bool :=
  if negb (JS.string_truthy fileId) then ret false
  else
    try_catch
      (await result :=
         send (SelectLiveFile fileId) (live_file supabase fileId) then
       match QueryResult.error result, QueryResult.data result with
       | None, Some _ => ret true
       | _, _ => ret false
       end)
      (λ _, ret false).


End LastFile.

(** ** The list of documents ([DocumentsList]) *)

Module Document.
(** The type [UploadedFile] of the component. *)
Record t : Type := mk {
  id : string;
  filename : string;
  status : string;
  created_at : string;
  processed_at : option string
}.
End Document.

Module Documents.
Import Effect Effect.Notations.

(** The store, as the answers it gives: the user of the session, the
    files of a user, and the row updated by a soft delete. *)
Record Supabase : Type := {
  auth_user : option string;
  uploaded_files : string → QueryResult.t (list Document.t);
  soft_delete : string → QueryResult.t Document.t
}.

Inductive Query : Type :=
  | GetUser
  | SelectUploadedFiles (user_id : string)
  | UpdateIsDeleted (fileId : string).

Record Toast : Type := {
  variant : string;
  title : string;
  description : string
}.

(** The two [useState] cells. *)
Record State : Type := {
  uploadedFiles : list Document.t;
  isLoading : bool
}.

(** The component state, the queries sent and the toasts shown so
    far. *)
Record World : Type := {
  state : State;
  sent : list Query;
  toasts : list Toast
}.

Inductive Thrown : Type :=
  | QueryError (message : string).

Definition update (f : State → State) : M World Thrown unit :=
  modify (λ w, {| state := f (state w); sent := sent w; toasts := toasts w |}).

Definition setUploadedFiles (files : list Document.t) : M World Thrown unit :=
  update (λ s, {| uploadedFiles := files; isLoading := isLoading s |}).
Definition setIsLoading (b : bool) : M World Thrown unit :=
  update (λ s, {| uploadedFiles := uploadedFiles s; isLoading := b |}).

Definition send {A} (q : Query) (answer : A) : M World Thrown A :=
  λ w, (inr answer,
        {| state := state w; sent := sent w ++ [q]; toasts := toasts w |}).

Definition toast (t : Toast) : M World Thrown unit :=
  modify (λ w, {| state := state w; sent := sent w; toasts := toasts w ++ [t] |}).

Definition fetchFiles (supabase : Supabase) : M World Thrown unit :=
  finally
    (try_catch
       (run setIsLoading true then
        await user := send GetUser (auth_user supabase) then
        match user with
        | None => ret tt
        | Some user_id =>
        await result :=
          send (SelectUploadedFiles user_id) (uploaded_files supabase user_id) then
        match QueryResult.error result with
        | Some message => throw (QueryError message)
        | None => setUploadedFiles (default [] (QueryResult.data result))
        end end)
       (λ _, ret tt))
    (setIsLoading false).

(** [handleDeleteDocument]; [uploadedFiles] is the list of the render
    the handler belongs to. *)
Definition handleDeleteDocument (supabase : Supabase) (fileId : string)
  : M World Thrown unit :=
  await rendered := get then
  let uploadedFiles := uploadedFiles (state rendered) in
  try_catch
    (await result :=
       send (UpdateIsDeleted fileId) (soft_delete supabase fileId) then
     match QueryResult.error result with
     | Some message => throw (QueryError message)
     | None =>
     run setUploadedFiles
           (filter (λ file, Document.id file ≠ fileId) uploadedFiles) then
     toast {| variant := "success";
              title := "Document deleted";
              description :=
                "The document has been removed from your profile." |}
     end)
    (λ _, toast {| variant := "destructive";
                   title := "Error deleting document";
                   description :=
                     "There was a problem deleting the document. Please try again." |}).

(** The status badge of a row. *)
Inductive Badge : Type :=
  | Processed
  | Processing
  | Error
  | Pending.

Definition getStatusBadge (status : string) : Badge :=
  if decide (status = "processed") then Processed
  else if decide (status = "uploading") then Processing
  else if decide (status = "parsing") then Processing
  else if decide (status = "error") then Error
  else Pending.

(** The button of a row. *)
Inductive Action : Type :=
  | ViewAnalysis
  | RetryUpload
  | ViewAnalysisDisabled.

Definition rowAction (file : Document.t) : Action :=
  if decide (Document.status file = "processed") then ViewAnalysis
  else if decide (Document.status file = "error") then RetryUpload
  else ViewAnalysisDisabled.

(** What the component renders. *)
Inductive View : Type :=
  | Loading
  | EmptyTableState
  | Rows (rows : list (Document.t * Badge * Action)).

Definition render (s : State) : View :=
  if isLoading s then Loading
  else if bool_decide (length (uploadedFiles s) = 0%nat) then EmptyTableState
  else Rows ((λ file, (file, getStatusBadge (Document.status file),
                       rowAction file)) <$> uploadedFiles s).

End Documents.

(** * Vocabulary of the properties *)

Module JSSpec.
Section sorting.
Context {A : Type} (cmp : A → A → Z).

(** What [sort] needs of a comparator, on the elements it is given. *)
Definition consistent_on (l : list A) : Prop :=
  (∀ a b, a ∈ l → b ∈ l → a ≠ b → 0 < cmp a b → cmp b a ≤ 0) ∧
  (∀ a b c, a ∈ l → b ∈ l → c ∈ l →
     cmp a b ≤ 0 → cmp b c ≤ 0 → cmp a c ≤ 0).

(** [a] may stand before [b] in a sorted array. *)
Definition before (a b : A) : Prop := cmp a b ≤ 0.
End sorting.
End JSSpec.

(** The order of decimal representations. *)
Module DecimalSpec.

(** Lexicographic combination of two comparisons. *)
Definition lexi (c1 c2 : comparison) : comparison :=
  match c1 with Eq => c2 | _ => c1 end.

(** [x] has [n] decimal digits ([0] has none). *)
Definition has_digits (n : nat) (x : N) : Prop :=
  match n with
  | O => x = 0%N
  | S n' => (10 ^ N.of_nat n' ≤ x < 10 ^ N.of_nat n)%N
  end.

End DecimalSpec.

Module CashflowSpec.
Import Cashflow.
Section vocabulary.
Context {num : Type} {JN : JsNumber num}.

Local Abbreviation Record_ := (CashflowRecord.t num).
Implicit Types (cm : gmap string Category.t) (r : Record_)
  (records : list Record_) (c : string) (y : Z).

(** The category a record resolves to, if any. *)
Definition resolve cm r : option Category.t :=
  cm !! CashflowRecord.category_id r.

(** The category name under which a record is filed. *)
Definition filed_as cm r : option string := Category.name <$> resolve cm r.

(** The record belongs to the cell of category name [c] and year [y]. *)
Definition in_cell cm c y r : Prop :=
  filed_as cm r = Some c ∧ CashflowRecord.year r = y.

Global Instance in_cell_dec cm c y r : Decision (in_cell cm c y r) :=
  and_dec (decide (filed_as cm r = Some c))
          (decide (CashflowRecord.year r = y)).

Definition cell_amounts cm c y records : list num :=
  CashflowRecord.amount <$> filter (in_cell cm c y) records.

(** The record resolves to a category of type [ty]. *)
Definition has_type cm (ty : string) r : Prop :=
  Category.type <$> resolve cm r = Some ty.

Global Instance has_type_dec cm ty r : Decision (has_type cm ty r) :=
  decide (Category.type <$> resolve cm r = Some ty).

Definition typed_amounts cm ty records : list num :=
  CashflowRecord.amount <$> filter (has_type cm ty) records.

Definition typed_year_amounts cm ty y records : list num :=
  CashflowRecord.amount <$>
    filter (λ r, has_type cm ty r ∧ CashflowRecord.year r = y) records.

(** One more amount in a cell updated by [add_cell]. *)
Definition acc_cell (o : option num) (a : num) : option num :=
  Some match o with
       | Some v => if num_truthy v then num_add v a else a
       | None => a
       end.

(** One more amount in a cell updated by [add_or_zero]. *)
Definition acc_or_zero (o : option num) (a : num) : option num :=
  Some (num_add match o with
                | Some v => if num_truthy v then v else num_zero
                | None => num_zero
                end a).

(** [byCategory[c][y]] and [byYear[y][c]], [None] when the row or the
    cell is absent. *)
Definition cellC (m : gmap string (gmap Z num)) c y : option num :=
  m !! c ≫= (.!! y).
Definition cellY (m : gmap Z (gmap string num)) y c : option num :=
  m !! y ≫= (.!! c).

(** What the record loop of [transformCashflowData] makes of an
    accumulator. *)
Record pivot_post cm (acc : PivotAcc) records (acc' : PivotAcc) : Prop := {
  post_cellC : ∀ c y, cellC (acc_byCategory acc') c y
      = foldl acc_cell (cellC (acc_byCategory acc) c y) (cell_amounts cm c y records);
  post_cellY : ∀ c y, cellY (acc_byYear acc') y c
      = foldl acc_cell (cellY (acc_byYear acc) y c) (cell_amounts cm c y records);
  post_domC : dom (acc_byCategory acc')
      = dom (acc_byCategory acc) ∪ list_to_set (omap (filed_as cm) records);
  post_domY : dom (acc_byYear acc') = dom (acc_byYear acc);
  post_names : acc_categoryNames acc'
      = foldl JS.Set_add (acc_categoryNames acc) (omap (filed_as cm) records)
}.

(** What [transformCashflowData] returns. *)
Record transform_post (records : list Record_) (categories : list Category.t)
    (file : option UploadedFile.t) (p : PivotedCashflow.t num) : Prop := {
  tp_cellC : ∀ c y, cellC (PivotedCashflow.byCategory p) c y
      = foldl acc_cell None (cell_amounts (mkCategoryMap categories) c y records);
  tp_cellY : ∀ c y, cellY (PivotedCashflow.byYear p) y c
      = foldl acc_cell None (cell_amounts (mkCategoryMap categories) c y records);
  tp_domC : dom (PivotedCashflow.byCategory p)
      = list_to_set (omap (filed_as (mkCategoryMap categories)) records);
  tp_domY : dom (PivotedCashflow.byYear p)
      = list_to_set (CashflowRecord.year <$> records);
  tp_categories : PivotedCashflow.categories p = mkCategoryMap categories;
  tp_years : PivotedCashflow.years p = mkYears records;
  tp_names : PivotedCashflow.categoryNames p
      = JS.sort_default id
          (JS.new_Set (omap (filed_as (mkCategoryMap categories)) records));
  tp_summary : PivotedCashflow.summary p
      = calculateSummary records (mkCategoryMap categories) (mkYears records);
  tp_records : PivotedCashflow.records p = records;
  tp_file : PivotedCashflow.file p = file
}.
End vocabulary.
End CashflowSpec.

(** Dictionaries and objects. *)
Module ObjectSpec.
Import CashflowObjects.
Section vocabulary.
Context {num : Type} {JN : JsNumber num}.

(** A key under which an object created by [{}] inherits nothing from
    [Object.prototype] as the language defines it. *)
Definition ordinary_key (key : string) : Prop := key ∉ Prototype.names.

(** Input in which no id and no name of a category, and no
    [category_id] of a record, is the name of a property of
    [Object.prototype]. *)
Definition ordinary (records : list (CashflowRecord.t num))
    (categories : list Category.t) : Prop :=
  Forall (λ category, ordinary_key (Category.id category)
                      ∧ ordinary_key (Category.name category)) categories
  ∧ Forall (λ record, ordinary_key (CashflowRecord.category_id record))
           records.

Global Instance ordinary_dec records categories :
  Decision (ordinary records categories).
Proof. unfold ordinary, ordinary_key. apply _. Defined.

(** The properties of [categoryMap] that hold a category, as a
    dictionary. *)
Definition dictionary (m : CategoryMap) : gmap string Category.t :=
  own m ∪ from_option (λ proto, {["__proto__" := proto]}) ∅ (prototype m).

(** The object that holds a dictionary of categories and inherits from
    [Object.prototype]. *)
Definition plain_categories (cm : gmap string Category.t) : CategoryMap :=
  {| own := cm; prototype := None |}.

Definition plain_acc (acc : Cashflow.PivotAcc (num:=num)) : PivotAcc num :=
  {| acc_byCategory := Cashflow.acc_byCategory acc;
     acc_byYear :=
       (λ col : gmap string num, Amount <$> col) <$> Cashflow.acc_byYear acc;
     acc_categoryNames := Some <$> Cashflow.acc_categoryNames acc |}.

(** The object that holds a pivot of dictionaries: every cell of
    [byYear] an amount, every name of [categoryNames] a string. *)
Definition plain (p : PivotedCashflow.t num) : Pivot num :=
  {| byCategory := PivotedCashflow.byCategory p;
     byYear :=
       (λ col : gmap string num, Amount <$> col) <$> PivotedCashflow.byYear p;
     categories := plain_categories (PivotedCashflow.categories p);
     years := PivotedCashflow.years p;
     categoryNames := Some <$> PivotedCashflow.categoryNames p;
     summary := PivotedCashflow.summary p;
     records := PivotedCashflow.records p;
     file := PivotedCashflow.file p |}.

(** What [categoryMap[id]] inherits when the object holds no category
    under [id]. *)
Definition inherited_value (realm : Realm num)
    (prototype : option Category.t) (id : string) : Found num :=
  lookup_category realm {| own := ∅; prototype := prototype |} id.

End vocabulary.
End ObjectSpec.

(** Exact amounts. *)
Module ExactSpec.
Import Cashflow CashflowSpec.

Implicit Types (cm : gmap string Category.t)
  (records : list (CashflowRecord.t Z)).

Definition sumZ (l : list Z) : Z := foldr Z.add 0 l.

(** The sum of [byCategory[c][y]] over the category names [c] whose row
    has a cell for [y]. *)
Definition sum_byCategory (p : PivotedCashflow.t Z) (y : Z) : Z :=
  map_fold (λ _ row acc, default 0 (row !! y) + acc) 0
           (PivotedCashflow.byCategory p).

(** The sum of [byYear[y][c]] over the category names [c] present in
    [byYear[y]]. *)
Definition sum_byYear (p : PivotedCashflow.t Z) (y : Z) : Z :=
  map_fold (λ _ v acc, v + acc) 0
           (default ∅ (PivotedCashflow.byYear p !! y)).


End ExactSpec.

Module TasksSpec.
Section vocabulary.
Variable localeCompare : string → string → Z.

(** What the grouping needs of [localeCompare]: the comparison of a
    collation, a total preorder on strings. *)
Definition locale_consistent : Prop :=
  (∀ a b, 0 < localeCompare a b → localeCompare b a ≤ 0)
  ∧ (∀ a b c, localeCompare a b ≤ 0 → localeCompare b c ≤ 0 →
       localeCompare a c ≤ 0).

(** The buckets are sorted by name, but for "Uncategorized", which is
    last when present. *)
Definition uncategorized_last (l : list TaskCategory.t) : Prop :=
  ∃ front last,
    l = front ++ last
    ∧ (last = [] ∨ ∃ u, last = [u] ∧ TaskCategory.name u = "Uncategorized")
    ∧ Forall (λ b, TaskCategory.name b ≠ "Uncategorized") front
    ∧ StronglySorted
        (λ a b, localeCompare (TaskCategory.name a) (TaskCategory.name b) ≤ 0)
        front.

(** The category of the task is the name of a property of
    [Object.prototype]. *)
Definition inherited_category (task : TaskState.t) : Prop :=
  Tasks.categoryOf task ∈ Prototype.names.

(** The step of the grouping when the task is pushed: into the bucket
    of its category, created if need be. *)
Definition push_task (tasksByCategory : JSObject.t (list GroupedTask.t))
    (task : TaskState.t) : JSObject.t (list GroupedTask.t) :=
  let category := Tasks.categoryOf task in
  JSObject.set tasksByCategory category
    (default [] (JSObject.get tasksByCategory category)
     ++ [ {| GroupedTask.task := TaskState.task task;
             GroupedTask.response := TaskState.response task;
             GroupedTask.isComplete :=
               bool_decide (TaskState.isComplete task = Some true) |} ]).

(** The buckets of tasks that are all pushed. *)
Definition buckets (tasks : list TaskState.t) : list TaskCategory.t :=
  JS.sort (Tasks.compareCategories localeCompare)
    (Tasks.mkCategory <$> JSObject.entries (foldl push_task [] tasks)).
End vocabulary.
End TasksSpec.

Module CompletionSpec.

(** Some uploaded file of the task is processed. *)
Definition has_processed_file (files : list TaskFile.t) (t : Task.t) : Prop :=
  ∃ file, file ∈ files
          ∧ TaskFile.task_id file = Task.task_id t
          ∧ TaskFile.status file = "processed".

Definition non_empty (r : SurveyResponse.t) : Prop :=
  ∃ v, SurveyResponse.value r = Some v ∧ v ≠ "".

(** Some response of the task has a non-empty value. *)
Definition has_answer (responses : list SurveyResponse.t) (t : Task.t) : Prop :=
  ∃ r, r ∈ responses
       ∧ SurveyResponse.task_id r = Task.task_id t ∧ non_empty r.

(** The first response of the task, in the order of the list, has a
    non-empty value. *)
Definition first_answer (responses : list SurveyResponse.t) (t : Task.t) : Prop :=
  ∃ before r after, responses = before ++ r :: after
       ∧ Forall (λ r', SurveyResponse.task_id r' ≠ Task.task_id t) before
       ∧ SurveyResponse.task_id r = Task.task_id t ∧ non_empty r.

(** The completion rule as the specification words it. *)
Definition complete_iff_file_or_any_answer : Prop :=
  ∀ (tasks : list Task.t) files responses,
    Forall (λ ts,
        TaskState.isComplete ts = Some true
        ↔ has_processed_file files (TaskState.task ts)
          ∨ has_answer responses (TaskState.task ts))
      (Tasks.tasksWithState tasks (Some files) (Some responses)).

End CompletionSpec.

(** ** Sample inputs *)

Module Examples.

Definition sales : Category.t := Category.mk "c1" "Sales" "income".
Definition rent : Category.t := Category.mk "c2" "Rent" "expense".
Definition loan : Category.t := Category.mk "c3" "Loan" "debt".

Definition record {num} (category_id : string) (year : Z) (amount : num)
  : CashflowRecord.t num :=
  CashflowRecord.mk "r" "f1" category_id year amount.

(** Two years of a plan numbered from 1, as the store returns them
    (ordered by year). *)
Definition plan_years : list (CashflowRecord.t Z) :=
  [record "c1" 9 100; record "c1" 10 50].

(** The records of the example of the specification. *)
Definition year_2022 : list (CashflowRecord.t Z) :=
  [record "c1" 2022 100; record "c1" 2022 50; record "c2" 2022 (-30)].

(** A record of an unknown category, and one of a category that is
    neither income nor expense. *)
Definition stray : CashflowRecord.t Z := record "c9" 2023 7.
Definition repayment : CashflowRecord.t Z := record "c3" 2022 40.

(** Amounts with cents, as JavaScript numbers. *)
Module Cents.
Import PrimFloat.
End Cents.

(** Large amounts, as JavaScript numbers. *)
Module Large.
Import PrimFloat.


(** 2^53, 1 and 1. *)
Definition amounts : list Z := [9007199254740992; 1; 1].


End Large.

(** A category named as a function every object inherits, and a record
    whose [category_id] is the name of another. *)
Definition named_toString : Category.t := Category.mk "c1" "toString" "income".
Definition of_constructor : CashflowRecord.t Z := record "constructor" 2022 7.

(** Categories named "__proto__" and as a year. *)
Definition named_proto : Category.t := Category.mk "c1" "__proto__" "income".
Definition named_2022 : Category.t := Category.mk "c2" "2022" "income".

Definition task (task_id : string) (category : option string) : Task.t :=
  Task.mk task_id "Balance Sheet" "Current balance sheet" "document-upload"
          category "b1".

(** Two saved responses for one task, the first one empty. *)
Definition two_responses : list SurveyResponse.t :=
  [SurveyResponse.mk "t1" (Some ""); SurveyResponse.mk "t1" (Some "yes")].

Definition three_tasks : list TaskState.t :=
  [TaskState.mk (task "t1" None) None (Some false);
   TaskState.mk (task "t2" (Some "Legal Documents")) None (Some true);
   TaskState.mk (task "t3" (Some "Financial Documents")) None (Some true)].

(** A comparison of strings by code units, one consistent
    [localeCompare]. *)
Definition compare_code_units (a b : string) : Z :=
  JS.comparison_to_Z (JS.compare_code_units a b).

End Examples.

(** ** Vocabulary of the further properties *)

(** Sums over the entries of a map. *)
Module SumSpec.

(** The sum of [f v] over the values [v] of a map. *)
Definition map_sum_with `{Countable K} {V} (f : V → Z) (m : gmap K V) : Z :=
  map_fold (λ _ v acc, f v + acc) 0 m.

(** The number a net entry holds, 0 for [NaN]. *)
Definition net_value (v : maybe_NaN Z) : Z :=
  match v with Num n => n | NaN => 0 end.

End SumSpec.

(** The outcomes of [fetchData]. *)
Module HookSpec.
Import Hook.
Section vocabulary.
Context {num : Type} {JN : JsNumber num}.

(** The world after a fetch that has settled: [isLoading] is false and
    [queries] have been sent. *)
Definition settled (w : World (num := num))
    (data : option (CashflowObjects.Pivot num)) (error : option JsError)
    (queries : list Query) : World :=
  {| state := {| data := data; isLoading := false; error := error |};
     sent := sent w ++ queries |}.

(** The store answers the three queries without an error: the first
    with [file] at the head of a list, the others with [records] and
    [categories]. *)
Definition serves (supabase : Supabase (num := num)) (fileId : string)
    (file : UploadedFile.t) (records : list (CashflowRecord.t num))
    (categories : list Category.t) : Prop :=
  QueryResult.error (uploaded_files supabase fileId) = None
  ∧ (∃ rest, QueryResult.data (uploaded_files supabase fileId)
             = Some (file :: rest))
  ∧ cashflow_records supabase fileId = QueryResult.mk (Some records) None
  ∧ cashflow_categories supabase = QueryResult.mk (Some categories) None.

(** What [transformCashflowData] returns for the answers of the store,
    entered with the built-in objects as the language defines them:
    a pivot, or nothing when it raises a [TypeError]. *)
Definition pivot_of (records : list (CashflowRecord.t num))
    (categories : list Category.t) (file : UploadedFile.t)
  : option (CashflowObjects.Pivot num) :=
  (CashflowObjects.transformCashflowData CashflowObjects.pristine
     records categories (Some file)).1.

(** The three queries of a fetch, in the order they are sent. *)
Definition queries (fileId : string) : list Query :=
  [SelectUploadedFile fileId; SelectCashflowRecords fileId;
   SelectCashflowCategories].

End vocabulary.
End HookSpec.

Module StoreExamples.
Import Examples.

Definition statement : UploadedFile.t :=
  UploadedFile.mk "f1" "cashflow.csv" "processed" "2024-01-05" None None.

(** A store holding the file "f1" with the records of 2022, and
    nothing else. *)
Definition one_file : Hook.Supabase (num := Z) :=
  {| Hook.uploaded_files fileId :=
       QueryResult.mk (Some (if decide (fileId = "f1") then [statement] else []))
                      None;
     Hook.cashflow_records fileId :=
       QueryResult.mk (Some (if decide (fileId = "f1") then year_2022 else []))
                      None;
     Hook.cashflow_categories := QueryResult.mk (Some [sales; rent; loan]) None |}.

(** A store whose categories are named "__proto__" and "2022", with a
    record of each in 2022. *)
Definition inherited_names : Hook.Supabase (num := Z) :=
  {| Hook.uploaded_files fileId := QueryResult.mk (Some [statement]) None;
     Hook.cashflow_records fileId :=
       QueryResult.mk (Some [record "c1" 2022 7; record "c2" 2022 5]) None;
     Hook.cashflow_categories :=
       QueryResult.mk (Some [named_proto; named_2022]) None |}.

(** The state of the hook before its first fetch. *)
Definition mounted : Hook.World (num := Z) :=
  {| Hook.state := {| Hook.data := None; Hook.isLoading := true;
                      Hook.error := None |};
     Hook.sent := [] |}.

End StoreExamples.

(** The grouping of tasks by category. *)
Module GroupingSpec.
Import Tasks.



End GroupingSpec.

(** The outcomes of [fetchTasksAndFiles]. *)
Module TasksViewSpec.
Import TasksView.

(** The characters of a class. *)
Definition of_class (chars : string) (c : Ascii.ascii) : Prop :=
  c ∈ list_ascii_of_string chars.

(** [n] hexadecimal digits of either case. *)
Definition hex_digits (n : nat) (s : string) : Prop :=
  String.length s = n
  ∧ Forall (of_class "0123456789abcdefABCDEF") (list_ascii_of_string s).

(** Five groups of 8, 4, 4, 4 and 12 hexadecimal digits joined by
    dashes, the third starting with a digit from 1 to 5 and the fourth
    with 8, 9, a or b. *)
Definition uuid_shape (s : string) : Prop :=
  ∃ a b v c r d e,
    s = a +:+ "-" +:+ b +:+ "-" +:+ String v c +:+ "-" +:+ String r d
        +:+ "-" +:+ e
    ∧ hex_digits 8 a ∧ hex_digits 4 b
    ∧ of_class "12345" v ∧ hex_digits 3 c
    ∧ of_class "89abAB" r ∧ hex_digits 3 d
    ∧ hex_digits 12 e.

(** The name a task is filed under. *)
Definition filed_under (t : Task.t) : string :=
  match Task.category t with
  | Some c => if decide (c = "") then "Uncategorized" else c
  | None => "Uncategorized"
  end.

(** No task is filed under the name of a property of
    [Object.prototype]. *)
Definition ordinary_categories (tasks : list Task.t) : Prop :=
  Forall (λ t, filed_under t ∉ Prototype.names) tasks.

(** The world after a fetch that has settled: [isLoading] is false and
    [queries] have been sent. *)
Definition settled (w : World) (categories : list TaskCategory.t)
    (error : option string) (queries : list Query) : World :=
  {| state := {| categories := categories; isLoading := false; error := error |};
     sent := sent w ++ queries |}.

(** The three queries of a fetch, in the order they are sent. *)
Definition queries (id : string) : list Query :=
  [SelectTasks id; SelectUploadedFiles id; SelectSurveyResponses id].

End TasksViewSpec.

Module TaskStoreExamples.
Import Examples.

Definition business : string := "37add0e6-16d4-4607-b057-7e7a1ede55f1".

(** A store with two tasks and a processed file for the first one,
    whose table of responses cannot be read. *)
Definition two_tasks : TasksView.Supabase :=
  {| TasksView.tasks _ :=
       QueryResult.mk (Some [task "t1" None; task "t2" (Some "Legal Documents")])
                      None;
     TasksView.uploaded_files _ :=
       QueryResult.mk (Some [TaskFile.mk "f1" "t1" "processed"]) None;
     TasksView.survey_responses _ :=
       QueryResult.mk None (Some "permission denied") |}.

(** A store whose table of tasks cannot be read. *)
Definition unreadable : TasksView.Supabase :=
  {| TasksView.tasks _ := QueryResult.mk None (Some "permission denied");
     TasksView.uploaded_files _ := QueryResult.mk (Some []) None;
     TasksView.survey_responses _ := QueryResult.mk (Some []) None |}.

(** The messages of the [TypeError]s, in one engine. *)
Definition messages (site : TasksView.TypeErrorSite) : string :=
  match site with
  | TasksView.MapOfNull => "Cannot read properties of null (reading 'map')"
  | TasksView.PushOfInherited =>
      "tasksByCategory[category].push is not a function"
  end.

(** A store with a task whose category is the name of an inherited
    property. *)
Definition inherited_name : TasksView.Supabase :=
  {| TasksView.tasks _ :=
       QueryResult.mk (Some [task "t1" (Some "Legal Documents");
                             task "t2" (Some "constructor")]) None;
     TasksView.uploaded_files _ := QueryResult.mk (Some []) None;
     TasksView.survey_responses _ := QueryResult.mk (Some []) None |}.

(** The state of the component before its first fetch. *)
Definition mounted : TasksView.World :=
  {| TasksView.state := {| TasksView.categories := [];
                           TasksView.isLoading := true;
                           TasksView.error := None |};
     TasksView.sent := [] |}.

End TaskStoreExamples.

(** The outcomes of [useLastAnalyzedFile]. *)
Module LastFileSpec.
Import LastFile.

(** The file is not marked as deleted. *)
Definition live (file : FileInfo.t) : Prop :=
  FileInfo.is_deleted file = FileInfo.Bool false
  ∨ FileInfo.is_deleted file = FileInfo.Null.


Global Instance Deleted_eq_dec : EqDecision FileInfo.Deleted.
Proof. solve_decision. Defined.

Global Instance live_dec file : Decision (live file).
Proof. unfold live. apply _. Defined.


End LastFileSpec.

(** * Properties *)

(** ** Sets and sorting *)

Module JSFacts.
Import JS JSSpec.

Section Set_facts.
Context {A : Type} {A_eq_dec : EqDecision A}.
Implicit Types (s l : list A) (x : A).

Lemma elem_of_Set_add s x y : y ∈ Set_add s x ↔ y ∈ s ∨ y = x.
Proof.
  unfold Set_add. case_decide.
  - split; [tauto|]. intros [?| ->]; done.
  - by rewrite elem_of_app, list_elem_of_singleton.
Qed.

Lemma NoDup_Set_add s x : NoDup s → NoDup (Set_add s x).
Proof.
  intros Hs. unfold Set_add. case_decide; [done|].
  apply NoDup_app. split_and!; [done| |apply NoDup_singleton].
  intros y Hy ->%list_elem_of_singleton. done.
Qed.

Lemma elem_of_foldl_Set_add l s y :
  y ∈ foldl Set_add s l ↔ y ∈ s ∨ y ∈ l.
Proof.
  revert s. induction l as [|x l IH]; intros s; simpl.
  - rewrite elem_of_nil. tauto.
  - rewrite IH, elem_of_Set_add, elem_of_cons. tauto.
Qed.

Lemma NoDup_foldl_Set_add l s : NoDup s → NoDup (foldl Set_add s l).
Proof.
  revert s. induction l as [|x l IH]; intros s Hs; simpl; [done|].
  by apply IH, NoDup_Set_add.
Qed.

Lemma elem_of_new_Set l y : y ∈ new_Set l ↔ y ∈ l.
Proof.
  unfold new_Set. rewrite elem_of_foldl_Set_add, elem_of_nil. tauto.
Qed.

Lemma NoDup_new_Set l : NoDup (new_Set l).
Proof. apply NoDup_foldl_Set_add, NoDup_nil_2. Qed.

Lemma new_Set_Permutation l1 l2 : l1 ≡ₚ l2 → new_Set l1 ≡ₚ new_Set l2.
Proof.
  intros Hl. apply NoDup_Permutation; [apply NoDup_new_Set..|].
  intros y. by rewrite !elem_of_new_Set, Hl.
Qed.
End Set_facts.

Section sort_facts.
Context {A : Type} (cmp : A → A → Z).
Implicit Types (l s : list A) (x : A).

Lemma sort_insert_Permutation x s : sort_insert cmp x s ≡ₚ x :: s.
Proof.
  induction s as [|y s IH]; simpl; [done|].
  case_match; [|done]. by rewrite IH, Permutation_swap.
Qed.

Lemma sort_Permutation l : sort cmp l ≡ₚ l.
Proof.
  induction l as [|x l IH]; simpl; [done|].
  unfold sort in IH. by rewrite sort_insert_Permutation, IH.
Qed.

Lemma sort_insert_sorted l x s :
  consistent_on cmp l → x ∈ l → s ⊆ l → x ∉ s →
  StronglySorted (before cmp) s → StronglySorted (before cmp) (sort_insert cmp x s).
Proof.
  intros [Hanti Htrans] Hx. induction s as [|y s IH]; intros Hs Hxs Hsorted; simpl.
  - repeat constructor.
  - apply StronglySorted_cons in Hsorted as [Hy Hsorted].
    assert (y ∈ l) by set_solver. assert (s ⊆ l) by set_solver.
    assert (x ≠ y) by set_solver. assert (x ∉ s) by set_solver.
    destruct (0 <? cmp x y) eqn:Hc.
    + apply Z.ltb_lt in Hc. apply StronglySorted_cons. split; [|by apply IH].
      rewrite sort_insert_Permutation. constructor; [|done].
      by apply Hanti.
    + apply Z.ltb_ge in Hc. apply StronglySorted_cons. split.
      * constructor; [done|]. rewrite Forall_forall in Hy |- *.
        intros z Hz. apply (Htrans x y z); auto. by apply Hy.
      * by apply StronglySorted_cons.
Qed.

Lemma sort_sorted l :
  NoDup l → consistent_on cmp l → StronglySorted (before cmp) (sort cmp l).
Proof.
  intros Hnd Hc. 
  cut (∀ l', l' ⊆ l → NoDup l' → StronglySorted (before cmp) (sort cmp l')).
  { intros Hcut. by apply Hcut. }
  induction l' as [|x l' IH]; intros Hsub Hnd'; simpl; [constructor|].
  apply NoDup_cons in Hnd' as [Hx Hnd'].
  apply (sort_insert_sorted l); [done|set_solver| | |].
  - intros z. unfold sort. rewrite (sort_Permutation l'). set_solver.
  - unfold sort. by rewrite (sort_Permutation l').
  - apply IH; [set_solver|done].
Qed.
End sort_facts.

Lemma StronglySorted_weaken {A} (R1 R2 : relation A) (l : list A) :
  (∀ a b, R1 a b → R2 a b) → StronglySorted R1 l → StronglySorted R2 l.
Proof.
  intros HR. induction 1 as [|x l _ IH Hx]; constructor; [done|].
  eapply Forall_impl; [exact Hx|]. intros b. apply HR.
Qed.

(** The ranking of the bytes is a permutation. *)
Definition code_unit_unrank (b : ascii) : ascii :=
  let n := N_of_ascii b in
  if (n <? 238)%N then b
  else if (n <? 254)%N then ascii_of_N (n + 2)
  else ascii_of_N (n - 16).

Lemma code_unit_unrank_rank b : code_unit_unrank (code_unit_rank b) = b.
Proof. by destruct b as [[] [] [] [] [] [] [] []]. Qed.

Global Instance code_unit_key_inj : Inj (=) (=) code_unit_key.
Proof.
  intros s. induction s as [|b s IH]; intros [|b' s'] Heq; simpl in Heq;
    try done.
  injection Heq as Hb Hs. f_equal; [|by apply IH].
  by rewrite <-(code_unit_unrank_rank b), Hb, code_unit_unrank_rank.
Qed.

(** The bytes of the characters below U+E000, those of ASCII among
    them, keep their rank. *)
Lemma code_unit_rank_below b :
  (N_of_ascii b < 238)%N → code_unit_rank b = b.
Proof.
  intros Hb. unfold code_unit_rank.
  by destruct (N.ltb_spec (N_of_ascii b) 238); [|lia].
Qed.

Lemma code_unit_key_app s1 s2 :
  code_unit_key (s1 +:+ s2) = code_unit_key s1 +:+ code_unit_key s2.
Proof.
  induction s1 as [|b s1 IH]; [done|].
  change (String b s1 +:+ s2) with (String b (s1 +:+ s2)). simpl.
  rewrite IH. done.
Qed.

Lemma code_unit_rank_digit d : code_unit_rank (pretty_N_char d) = pretty_N_char d.
Proof.
  unfold pretty_N_char. by repeat case_match.
Qed.

Lemma code_unit_key_pretty_N_go x : ∀ s,
  code_unit_key (pretty_N_go x s) = pretty_N_go x (code_unit_key s).
Proof.
  induction (N.lt_wf_0 x) as [x _ IH]. intros s.
  destruct (decide (x = 0)%N) as [->|Hx].
  - by rewrite !pretty_N_go_0.
  - rewrite !(pretty_N_go_step x) by lia.
    rewrite IH by (apply N.div_lt; lia). simpl.
    by rewrite code_unit_rank_digit.
Qed.

(** The decimal representation of an integer is its own key. *)
Lemma code_unit_key_Number_toString n :
  code_unit_key (Number_toString n) = Number_toString n.
Proof.
  unfold Number_toString.
  assert (∀ x : N, code_unit_key (pretty x) = pretty x) as HN.
  { intros x. unfold pretty, pretty_N. case_decide; [done|].
    by rewrite code_unit_key_pretty_N_go. }
  destruct n as [|p|p]; [done|apply HN|].
  change (pretty (Z.neg p)) with ("-" +:+ pretty (N.pos p)).
  by rewrite code_unit_key_app, HN.
Qed.

Section sort_default_facts.
Context {A : Type} (toString : A → string) `{!Inj (=) (=) toString}.

Lemma default_compare_le a b :
  default_compare toString a b ≤ 0
  ↔ String.le (code_unit_key (toString a)) (code_unit_key (toString b)).
Proof.
  unfold default_compare, compare_code_units, String.le, String.leb.
  destruct (code_unit_key (toString a) ?= code_unit_key (toString b))%string;
    simpl; split; (lia || done).
Qed.

Lemma default_compare_consistent l : consistent_on (default_compare toString) l.
Proof.
  split.
  - intros a b _ _ _ Hab. apply default_compare_le.
    destruct (total String.le (code_unit_key (toString a))
                (code_unit_key (toString b))) as [Hle|Hle]; [|done].
    apply default_compare_le in Hle. lia.
  - intros a b c _ _ _. rewrite !default_compare_le. apply transitivity.
Qed.

Lemma sort_default_sorted l :
  NoDup l →
  StronglySorted (λ a b, String.le (code_unit_key (toString a))
                                   (code_unit_key (toString b)))
                 (sort_default toString l).
Proof.
  intros Hnd. eapply StronglySorted_weaken.
  2:{ apply sort_sorted; [done|apply default_compare_consistent]. }
  intros a b. apply default_compare_le.
Qed.

Lemma sort_default_Permutation_eq l1 l2 :
  NoDup l1 → l1 ≡ₚ l2 → sort_default toString l1 = sort_default toString l2.
Proof.
  intros Hnd Hp.
  assert (AntiSymm (=) (λ a b : A, String.le (code_unit_key (toString a))
                                             (code_unit_key (toString b)))).
  { intros a b Hab Hba. apply (inj toString), (inj code_unit_key).
    by apply (anti_symm String.le). }
  eapply StronglySorted_unique; [apply _|apply sort_default_sorted..|].
  - done.
  - by rewrite <-Hp.
  - unfold sort_default. by rewrite !sort_Permutation.
Qed.
End sort_default_facts.

Global Instance Number_toString_inj : Inj (=) (=) Number_toString.
Proof. unfold Number_toString. apply _. Qed.

End JSFacts.

(** ** Decimal representations *)

Module DecimalFacts.
Import DecimalSpec.

Lemma pretty_N_char_compare (d e : N) :
  (d < 10)%N → (e < 10)%N →
  Ascii.compare (pretty_N_char d) (pretty_N_char e) = (d ?= e)%N.
Proof.
  intros Hd He.
  assert (d = 0 ∨ d = 1 ∨ d = 2 ∨ d = 3 ∨ d = 4 ∨ d = 5 ∨ d = 6 ∨ d = 7
          ∨ d = 8 ∨ d = 9)%N as Hd' by lia.
  assert (e = 0 ∨ e = 1 ∨ e = 2 ∨ e = 3 ∨ e = 4 ∨ e = 5 ∨ e = 6 ∨ e = 7
          ∨ e = 8 ∨ e = 9)%N as He' by lia.
  destruct Hd' as [->|[->|[->|[->|[->|[->|[->|[->|[->| ->]]]]]]]]];
  destruct He' as [->|[->|[->|[->|[->|[->|[->|[->|[->| ->]]]]]]]]];
  reflexivity.
Qed.

Lemma compare_quotient_remainder (q r q' r' : N) :
  (r < 10)%N → (r' < 10)%N →
  lexi (q ?= q')%N (r ?= r')%N = (10 * q + r ?= 10 * q' + r')%N.
Proof.
  intros Hr Hr'. unfold lexi.
  destruct (N.compare_spec q q') as [Hq|Hq|Hq].
  - destruct (N.compare_spec r r') as [Hc|Hc|Hc];
      symmetry; [apply N.compare_eq_iff|apply N.compare_lt_iff
                |apply N.compare_gt_iff]; lia.
  - symmetry. apply N.compare_lt_iff. lia.
  - symmetry. apply N.compare_gt_iff. lia.
Qed.

Lemma compare_digits (x y : N) :
  lexi (x `div` 10 ?= y `div` 10)%N (x `mod` 10 ?= y `mod` 10)%N = (x ?= y)%N.
Proof.
  rewrite compare_quotient_remainder by (apply N.mod_lt; lia).
  by rewrite <-!N.div_mod by lia.
Qed.

Lemma has_digits_div n x : has_digits (S n) x → has_digits n (x `div` 10).
Proof.
  destruct n as [|n]; simpl.
  - intros [_ Hx]. apply N.div_small. simpl in Hx. lia.
  - rewrite !Nat2N.inj_succ, !N.pow_succ_r'. intros [Hl Hu]. split.
    + apply N.div_le_lower_bound; lia.
    + apply N.Div0.div_lt_upper_bound; lia.
Qed.

Lemma pretty_N_go_compare n : ∀ x y s s',
  has_digits n x → has_digits n y →
  String.compare (pretty_N_go x s) (pretty_N_go y s')
  = lexi (x ?= y)%N (String.compare s s').
Proof.
  induction n as [|n IH]; intros x y s s' Hx Hy.
  - simpl in *. subst. by rewrite !pretty_N_go_0.
  - assert (0 < x ∧ 0 < y)%N as [Hx0 Hy0].
    { simpl in Hx, Hy. 
      assert (0 < 10 ^ N.of_nat n)%N by (apply N.neq_0_lt_0, N.pow_nonzero; lia).
      lia. }
    rewrite (pretty_N_go_step x), (pretty_N_go_step y) by done.
    rewrite IH by by apply has_digits_div.
    simpl. rewrite pretty_N_char_compare by (apply N.mod_lt; lia).
    rewrite <-(compare_digits x y).
    by destruct (x `div` 10 ?= y `div` 10)%N, (x `mod` 10 ?= y `mod` 10)%N.
Qed.

(** Positive integers with the same number of digits compare as their
    decimal representations do. *)
Lemma pretty_Z_compare (n : nat) (a b : Z) :
  10 ^ Z.of_nat n ≤ a < 10 ^ Z.of_nat (S n) →
  10 ^ Z.of_nat n ≤ b < 10 ^ Z.of_nat (S n) →
  String.compare (pretty a) (pretty b) = (a ?= b).
Proof.
  intros Ha Hb.
  assert (0 < 10 ^ Z.of_nat n) by (apply Z.pow_pos_nonneg; lia).
  assert (∀ c, 10 ^ Z.of_nat n ≤ c < 10 ^ Z.of_nat (S n) →
            pretty c = pretty_N_go (Z.to_N c) "" ∧ has_digits (S n) (Z.to_N c))
    as Hpretty.
  { intros c Hc. destruct c as [|c|c]; [lia| |lia]. split; [done|].
    unfold has_digits. split.
    - apply N2Z.inj_le. rewrite N2Z.inj_pow, nat_N_Z, Z2N.id by lia.
      apply Hc.
    - apply N2Z.inj_lt. rewrite N2Z.inj_pow, nat_N_Z, Z2N.id by lia.
      apply Hc. }
  destruct (Hpretty a Ha) as [-> Hda]. destruct (Hpretty b Hb) as [-> Hdb].
  rewrite (pretty_N_go_compare (S n)) by done. simpl.
  rewrite <-Z2N.inj_compare by lia.
  by destruct (Z.to_N a ?= Z.to_N b)%N.
Qed.

End DecimalFacts.

(** ** The pivot and the summary on dictionaries, for amounts of any kind *)

Module CashflowFacts.
Import Cashflow CashflowSpec.

(** Projects a field out of the record [calculateSummary] builds. *)
Ltac summary_field :=
  unfold calculateSummary;
  cbv beta iota zeta delta
    [CashflowSummary.incomeByYear CashflowSummary.expensesByYear
     CashflowSummary.netByYear CashflowSummary.totalIncome
     CashflowSummary.totalExpenses CashflowSummary.totalNet].

(** Two-level maps with the same rows present and the same cells. *)
Lemma cells_eq `{Countable K1, Countable K2} {V}
    (m m' : gmap K1 (gmap K2 V)) :
  dom m = dom m' →
  (∀ i j, m !! i ≫= (.!! j) = m' !! i ≫= (.!! j)) →
  m = m'.
Proof.
  intros Hdom Hcells. apply map_eq. intros i.
  destruct (m !! i) as [row|] eqn:Hi.
  - assert (is_Some (m' !! i)) as [row' Hi'].
    { apply elem_of_dom. rewrite <-Hdom. by apply elem_of_dom_2 in Hi. }
    rewrite Hi'. f_equal. apply map_eq. intros j.
    specialize (Hcells i j). by rewrite Hi, Hi' in Hcells.
  - symmetry. apply not_elem_of_dom. rewrite <-Hdom. by apply not_elem_of_dom.
Qed.

Lemma lookup_default_row `{Countable K1, Countable K2} {V}
    (m : gmap K1 (gmap K2 V)) i j :
  default ∅ (m !! i) !! j = m !! i ≫= (.!! j).
Proof. by destruct (m !! i). Qed.

Section generic.
Context {num : Type} {JN : JsNumber num}.

Implicit Types (cm : gmap string Category.t) (r : CashflowRecord.t num)
  (records : list (CashflowRecord.t num)) (c : string) (y : Z).

Lemma lookup_foldl_insert {V} (f : Z → V) (m0 : gmap Z V) (ys : list Z) y :
  foldl (λ m y', <[y' := f y']> m) m0 ys !! y
  = if decide (y ∈ ys) then Some (f y) else m0 !! y.
Proof.
  revert m0. induction ys as [|y' ys IH]; intros m0; simpl.
  - done.
  - rewrite IH. destruct (decide (y ∈ ys)) as [Hy|Hy].
    + rewrite decide_True; [done|by right].
    + destruct (decide (y' = y)) as [->|Hne].
      * rewrite lookup_insert_eq, decide_True; [done|left].
      * rewrite lookup_insert_ne, decide_False; [done| |done].
        rewrite elem_of_cons. naive_solver.
Qed.

Lemma lookup_init_years {V} (v : V) (years : list Z) y :
  init_years v years !! y = if decide (y ∈ years) then Some v else None.
Proof. unfold init_years. by rewrite (lookup_foldl_insert (λ _, v)). Qed.

Lemma dom_init_years {V} (v : V) (years : list Z) :
  dom (init_years v years) = list_to_set years.
Proof.
  apply set_eq. intros y. rewrite elem_of_dom, lookup_init_years, elem_of_list_to_set.
  case_decide; [by split; eauto|]. split; [by intros []|done].
Qed.

Lemma lookup_add_cell `{Countable K} (m : gmap K num) (k k' : K) a :
  add_cell m k a !! k' = if decide (k = k') then acc_cell (m !! k) a else m !! k'.
Proof.
  unfold add_cell, acc_cell.
  destruct (m !! k) as [v|] eqn:Hk; [destruct (num_truthy v)|];
    (case_decide as Hd; [subst; by rewrite lookup_insert_eq
                        |by rewrite lookup_insert_ne]).
Qed.

Lemma lookup_add_or_zero (m : gmap Z num) (k k' : Z) a :
  add_or_zero m k a !! k'
  = if decide (k = k') then acc_or_zero (m !! k) a else m !! k'.
Proof.
  unfold add_or_zero, acc_or_zero.
  case_decide as Hd; [subst; by rewrite lookup_insert_eq
                     |by rewrite lookup_insert_ne].
Qed.

Lemma mkYears_elem_of records y :
  y ∈ mkYears records ↔ y ∈ CashflowRecord.year <$> records.
Proof.
  unfold mkYears, JS.sort_default.
  by rewrite JSFacts.sort_Permutation, JSFacts.elem_of_new_Set.
Qed.

Lemma mkYears_NoDup records : NoDup (mkYears records).
Proof.
  unfold mkYears, JS.sort_default. rewrite JSFacts.sort_Permutation.
  apply JSFacts.NoDup_new_Set.
Qed.

(** *** The record loop of the pivot *)

Lemma pivot_loop_cons cm acc r records :
  pivot_loop cm acc (r :: records)
  = pivot_step cm acc r ≫= λ acc', pivot_loop cm acc' records.
Proof.
  unfold pivot_loop. simpl. destruct (pivot_step cm acc r) as [acc'|]; [done|].
  simpl. induction records; simpl; auto.
Qed.

Lemma pivot_step_unresolved cm acc r :
  resolve cm r = None → pivot_step cm acc r = Some acc.
Proof. unfold resolve, pivot_step. by intros ->. Qed.

Lemma pivot_step_post cm acc r :
  is_Some (acc_byYear acc !! CashflowRecord.year r) →
  ∃ acc', pivot_step cm acc r = Some acc' ∧ pivot_post cm acc [r] acc'.
Proof.
  intros [col Hcol]. unfold pivot_step.
  destruct (cm !! CashflowRecord.category_id r) as [cat|] eqn:Hcat.
  2:{ exists acc. split; [done|].
      assert (filed_as cm r = None) as Hf by (unfold filed_as, resolve; by rewrite Hcat).
      split; unfold cell_amounts; simpl; rewrite ?Hf; simpl.
      - intros c y. rewrite filter_cons_False; [done|]. intros [? _]. congruence.
      - intros c y. rewrite filter_cons_False; [done|]. intros [? _]. congruence.
      - set_solver.
      - done.
      - done. }
  assert (filed_as cm r = Some (Category.name cat)) as Hf
    by (unfold filed_as, resolve; by rewrite Hcat).
  set (cn := Category.name cat).
  set (bc0 := match acc_byCategory acc !! cn with
              | Some _ => acc_byCategory acc
              | None => <[cn := ∅]> (acc_byCategory acc)
              end).
  assert (∃ row, bc0 !! cn = Some row ∧
            (∀ y, row !! y = cellC (acc_byCategory acc) cn y) ∧
            (∀ c, c ≠ cn → bc0 !! c = acc_byCategory acc !! c))
    as (row & Hrow & Hrowy & Hother).
  { unfold bc0, cellC. destruct (acc_byCategory acc !! cn) as [row|] eqn:Hr.
    - exists row. by rewrite Hr.
    - exists ∅. rewrite lookup_insert_eq. split_and!; [done|done|].
      intros c Hc. by rewrite lookup_insert_ne. }
  rewrite Hrow. simpl. rewrite Hcol. simpl. eexists. split; [done|].
  split; simpl.
  - intros c y. unfold cell_amounts, cellC.
    destruct (decide (c = cn)) as [->|Hc].
    + rewrite lookup_insert_eq. simpl. rewrite lookup_add_cell, Hrowy.
      case_decide as Hy.
      * rewrite filter_cons_True by done. simpl. by subst y.
      * rewrite filter_cons_False; [by rewrite Hrowy|].
        intros [_ ?]. done.
    + rewrite lookup_insert_ne, Hother by done.
      rewrite filter_cons_False; [done|]. intros [? _].
      unfold cn in Hc. congruence.
  - intros c y. unfold cell_amounts, cellY.
    destruct (decide (CashflowRecord.year r = y)) as [<-|Hy].
    + rewrite lookup_insert_eq, Hcol. simpl. rewrite lookup_add_cell.
      case_decide as Hc.
      * rewrite filter_cons_True; [|split; [|done]; rewrite Hf; f_equal; exact Hc].
        by subst c.
      * rewrite filter_cons_False; [done|]. intros [? _].
        unfold cn in Hc. congruence.
    + rewrite lookup_insert_ne by done.
      rewrite filter_cons_False; [done|]. by intros [_ ?].
  - rewrite Hf. simpl. rewrite dom_insert_L.
    assert (dom bc0 = {[cn]} ∪ dom (acc_byCategory acc)) as ->.
    { unfold bc0. destruct (acc_byCategory acc !! cn) eqn:Hr.
      - apply elem_of_dom_2 in Hr. set_solver.
      - by rewrite dom_insert_L. }
    set_solver.
  - rewrite dom_insert_L. apply elem_of_dom_2 in Hcol. set_solver.
  - by rewrite Hf.
Qed.

Lemma pivot_post_nil cm acc : pivot_post cm acc [] acc.
Proof. split; intros; simpl; try done. set_solver. Qed.

Lemma pivot_post_cons cm acc r acc1 records acc2 :
  pivot_post cm acc [r] acc1 → pivot_post cm acc1 records acc2 →
  pivot_post cm acc (r :: records) acc2.
Proof.
  intros [HC1 HY1 HdC1 HdY1 Hn1] [HC2 HY2 HdC2 HdY2 Hn2].
  assert (∀ c y, cell_amounts cm c y (r :: records)
                 = (cell_amounts cm c y [r] ++ cell_amounts cm c y records)%list)
    as Happ.
  { intros c y. unfold cell_amounts.
    by rewrite <-fmap_app, <-filter_app. }
  split.
  - intros c y. by rewrite HC2, HC1, Happ, foldl_app.
  - intros c y. by rewrite HY2, HY1, Happ, foldl_app.
  - rewrite HdC2, HdC1. simpl.
    destruct (filed_as cm r); simpl; set_solver.
  - by rewrite HdY2.
  - rewrite Hn2, Hn1. simpl. by destruct (filed_as cm r).
Qed.

Lemma pivot_loop_post cm records acc :
  (∀ r, r ∈ records → CashflowRecord.year r ∈ dom (acc_byYear acc)) →
  ∃ acc', pivot_loop cm acc records = Some acc' ∧ pivot_post cm acc records acc'.
Proof.
  revert acc. induction records as [|r records IH]; intros acc Hyears.
  - exists acc. split; [done|apply pivot_post_nil].
  - destruct (pivot_step_post cm acc r) as (acc1 & Hstep & Hpost1).
    { apply elem_of_dom, Hyears. left. }
    destruct (IH acc1) as (acc2 & Hloop & Hpost2).
    { intros r' Hr'. rewrite (post_domY _ _ _ _ Hpost1). apply Hyears. by right. }
    exists acc2. split; [|by eapply pivot_post_cons].
    by rewrite pivot_loop_cons, Hstep.
Qed.

(** [transformCashflowData] raises no exception, and its result is
    described by [transform_post]. *)
Lemma transformCashflowData_post records categories file :
  ∃ p, transformCashflowData records categories file = Some p
       ∧ transform_post records categories file p.
Proof.
  unfold transformCashflowData.
  set (cm := mkCategoryMap categories).
  set (acc0 := {| acc_byCategory := ∅;
                  acc_byYear := init_years ∅ (mkYears records);
                  acc_categoryNames := [] |}).
  assert (dom (acc_byYear acc0) = list_to_set (CashflowRecord.year <$> records))
    as Hdom0.
  { simpl. rewrite dom_init_years. apply set_eq. intros y.
    by rewrite !elem_of_list_to_set, mkYears_elem_of. }
  destruct (pivot_loop_post cm records acc0) as (acc & -> & Hpost).
  { intros r Hr. rewrite Hdom0, elem_of_list_to_set.
    by apply list_elem_of_fmap_2. }
  simpl. eexists. split; [done|].
  destruct Hpost as [HC HY HdC HdY Hn]. split; simpl.
  - intros c y. rewrite HC. simpl. unfold cellC. by rewrite lookup_empty.
  - intros c y. rewrite HY. f_equal. simpl. unfold cellY.
    rewrite lookup_init_years. by case_decide.
  - rewrite HdC. simpl. by rewrite dom_empty_L, (left_id_L ∅ (∪)).
  - by rewrite HdY.
  - done.
  - done.
  - by rewrite Hn.
  - done.
  - done.
  - done.
Qed.

(** *** The record loop of the summary *)

Lemma summary_step_cases cm acc r :
  (has_type cm "income" r ∧ ¬ has_type cm "expense" r ∧
   summary_step cm acc r =
     {| acc_incomeByYear :=
          add_or_zero (acc_incomeByYear acc) (CashflowRecord.year r)
                      (CashflowRecord.amount r);
        acc_expensesByYear := acc_expensesByYear acc;
        acc_totalIncome := num_add (acc_totalIncome acc) (CashflowRecord.amount r);
        acc_totalExpenses := acc_totalExpenses acc |})
  ∨ (has_type cm "expense" r ∧ ¬ has_type cm "income" r ∧
     summary_step cm acc r =
       {| acc_incomeByYear := acc_incomeByYear acc;
          acc_expensesByYear :=
            add_or_zero (acc_expensesByYear acc) (CashflowRecord.year r)
                        (CashflowRecord.amount r);
          acc_totalIncome := acc_totalIncome acc;
          acc_totalExpenses :=
            num_add (acc_totalExpenses acc) (CashflowRecord.amount r) |})
  ∨ (¬ has_type cm "income" r ∧ ¬ has_type cm "expense" r ∧
     summary_step cm acc r = acc).
Proof.
  unfold summary_step, has_type, resolve.
  destruct (cm !! CashflowRecord.category_id r) as [cat|]; simpl.
  2:{ right; right. by split_and!. }
  destruct (decide (Category.type cat = "income")) as [Hty|Hty].
  { left. rewrite Hty. by split_and!. }
  destruct (decide (Category.type cat = "expense")) as [Hty'|Hty'].
  { right; left. rewrite Hty'. by split_and!. }
  right; right. split_and!; [congruence|congruence|done].
Qed.

Lemma summary_loop_income cm records acc y :
  acc_incomeByYear (foldl (summary_step cm) acc records) !! y
  = foldl acc_or_zero (acc_incomeByYear acc !! y)
          (typed_year_amounts cm "income" y records).
Proof.
  revert acc. induction records as [|r records IH]; intros acc; [done|].
  simpl. rewrite IH. unfold typed_year_amounts.
  destruct (summary_step_cases cm acc r)
    as [(Hi & _ & ->)|[(_ & Hi & ->)|(Hi & _ & ->)]]; simpl.
  - rewrite lookup_add_or_zero. case_decide as Hy.
    + rewrite filter_cons_True; [by subst y|by split].
    + rewrite filter_cons_False; [done|]. by intros [_ ?].
  - rewrite filter_cons_False; [done|]. by intros [? _].
  - rewrite filter_cons_False; [done|]. by intros [? _].
Qed.

Lemma summary_loop_expenses cm records acc y :
  acc_expensesByYear (foldl (summary_step cm) acc records) !! y
  = foldl acc_or_zero (acc_expensesByYear acc !! y)
          (typed_year_amounts cm "expense" y records).
Proof.
  revert acc. induction records as [|r records IH]; intros acc; [done|].
  simpl. rewrite IH. unfold typed_year_amounts.
  destruct (summary_step_cases cm acc r)
    as [(_ & He & ->)|[(He & _ & ->)|(_ & He & ->)]]; simpl.
  - rewrite filter_cons_False; [done|]. by intros [? _].
  - rewrite lookup_add_or_zero. case_decide as Hy.
    + rewrite filter_cons_True; [by subst y|by split].
    + rewrite filter_cons_False; [done|]. by intros [_ ?].
  - rewrite filter_cons_False; [done|]. by intros [? _].
Qed.

Lemma summary_loop_totalIncome cm records acc :
  acc_totalIncome (foldl (summary_step cm) acc records)
  = foldl num_add (acc_totalIncome acc) (typed_amounts cm "income" records).
Proof.
  revert acc. induction records as [|r records IH]; intros acc; [done|].
  simpl. rewrite IH. unfold typed_amounts.
  destruct (summary_step_cases cm acc r)
    as [(Hi & _ & ->)|[(_ & Hi & ->)|(Hi & _ & ->)]]; simpl.
  - by rewrite filter_cons_True.
  - by rewrite filter_cons_False.
  - by rewrite filter_cons_False.
Qed.

Lemma summary_loop_totalExpenses cm records acc :
  acc_totalExpenses (foldl (summary_step cm) acc records)
  = foldl num_add (acc_totalExpenses acc) (typed_amounts cm "expense" records).
Proof.
  revert acc. induction records as [|r records IH]; intros acc; [done|].
  simpl. rewrite IH. unfold typed_amounts.
  destruct (summary_step_cases cm acc r)
    as [(_ & He & ->)|[(He & _ & ->)|(_ & He & ->)]]; simpl.
  - by rewrite filter_cons_False.
  - by rewrite filter_cons_True.
  - by rewrite filter_cons_False.
Qed.

Lemma totalNet_difference records cm (years : list Z) :
  CashflowSummary.totalNet (calculateSummary records cm years)
  = num_sub (CashflowSummary.totalIncome (calculateSummary records cm years))
            (CashflowSummary.totalExpenses (calculateSummary records cm years)).
Proof. done. Qed.

Lemma foldl_acc_or_zero_is_Some (o : option num) (l : list num) :
  is_Some o → is_Some (foldl acc_or_zero o l).
Proof.
  revert o. induction l as [|a l IH]; intros o Ho; [done|].
  simpl. apply IH. unfold acc_or_zero. eauto.
Qed.

Lemma lookup_incomeByYear records cm years y :
  CashflowSummary.incomeByYear (calculateSummary records cm years) !! y
  = foldl acc_or_zero (if decide (y ∈ years) then Some num_zero else None)
          (typed_year_amounts cm "income" y records).
Proof.
  summary_field. rewrite summary_loop_income. cbn [acc_incomeByYear].
  by rewrite lookup_init_years.
Qed.

Lemma lookup_expensesByYear records cm years y :
  CashflowSummary.expensesByYear (calculateSummary records cm years) !! y
  = foldl acc_or_zero (if decide (y ∈ years) then Some num_zero else None)
          (typed_year_amounts cm "expense" y records).
Proof.
  summary_field. rewrite summary_loop_expenses. cbn [acc_expensesByYear].
  by rewrite lookup_init_years.
Qed.

Lemma lookup_netByYear_outside records cm years y :
  y ∉ years →
  CashflowSummary.netByYear (calculateSummary records cm years) !! y = None.
Proof.
  intros Hy. summary_field. unfold net_step.
  rewrite (lookup_foldl_insert (λ year, sub_lookup (_ !! year) (_ !! year))).
  by rewrite decide_False, lookup_init_years, decide_False.
Qed.

(** An entry initialised to [0] and a missing entry accumulate alike. *)
Lemma foldl_acc_or_zero_init (l : list num) :
  default num_zero (foldl acc_or_zero (Some num_zero) l)
  = default num_zero (foldl acc_or_zero None l).
Proof.
  destruct l as [|a l]; [done|]. simpl. f_equal. f_equal.
  unfold acc_or_zero. by destruct (num_truthy num_zero).
Qed.

Lemma default_incomeByYear_years records cm years years' y :
  default num_zero
    (CashflowSummary.incomeByYear (calculateSummary records cm years) !! y)
  = default num_zero
      (CashflowSummary.incomeByYear (calculateSummary records cm years') !! y).
Proof.
  rewrite !lookup_incomeByYear.
  repeat case_decide; by rewrite ?foldl_acc_or_zero_init.
Qed.

Lemma default_expensesByYear_years records cm years years' y :
  default num_zero
    (CashflowSummary.expensesByYear (calculateSummary records cm years) !! y)
  = default num_zero
      (CashflowSummary.expensesByYear (calculateSummary records cm years') !! y).
Proof.
  rewrite !lookup_expensesByYear.
  repeat case_decide; by rewrite ?foldl_acc_or_zero_init.
Qed.

Lemma lookup_netByYear records cm years y :
  y ∈ years →
  CashflowSummary.netByYear (calculateSummary records cm years) !! y
  = Some (sub_lookup
            (CashflowSummary.incomeByYear (calculateSummary records cm years) !! y)
            (CashflowSummary.expensesByYear (calculateSummary records cm years) !! y)).
Proof.
  intros Hy. unfold calculateSummary. simpl. unfold net_step.
  rewrite (lookup_foldl_insert (λ year, sub_lookup (_ !! year) (_ !! year))).
  by rewrite decide_True.
Qed.

End generic.

Lemma lookup_mkCategoryMap_None (categories : list Category.t) (k : string) :
  mkCategoryMap categories !! k = None
  ↔ ∀ cat, cat ∈ categories → Category.id cat ≠ k.
Proof.
  unfold mkCategoryMap.
  cut (∀ m : gmap string Category.t,
         foldl (λ m category, <[Category.id category := category]> m) m categories
           !! k = None
         ↔ m !! k = None ∧ ∀ cat, cat ∈ categories → Category.id cat ≠ k).
  { intros Hcut. rewrite Hcut, lookup_empty. naive_solver. }
  induction categories as [|cat categories IH]; intros m; simpl.
  - split; [intros ?; split; [done|]|by intros [? _]].
    intros cat Hcat. by apply elem_of_nil in Hcat.
  - rewrite IH, lookup_insert_None. setoid_rewrite elem_of_cons. naive_solver.
Qed.

Lemma lookup_mkCategoryMap_Some (categories : list Category.t) (k : string) cat :
  mkCategoryMap categories !! k = Some cat →
  cat ∈ categories ∧ Category.id cat = k.
Proof.
  unfold mkCategoryMap.
  cut (∀ m : gmap string Category.t,
         foldl (λ m category, <[Category.id category := category]> m) m categories
           !! k = Some cat →
         m !! k = Some cat ∨ (cat ∈ categories ∧ Category.id cat = k)).
  { intros Hcut Hk. destruct (Hcut _ Hk) as [Hm|?]; [|done].
    by rewrite lookup_empty in Hm. }
  induction categories as [|cat' categories IH]; intros m; simpl; [by left|].
  intros [Hm|[Hin Hid]]%IH.
  - apply lookup_insert_Some in Hm as [[<- <-]|[_ Hm]]; [right|by left].
    split; [left|done].
  - right. split; [by right|done].
Qed.

End CashflowFacts.

(** ** Exact amounts *)

Module ExactFacts.
Import Cashflow CashflowSpec CashflowFacts ExactSpec.

Implicit Types (cm : gmap string Category.t) (r : CashflowRecord.t Z)
  (records : list (CashflowRecord.t Z)) (c : string) (y : Z).

Global Instance sumZ_Permutation : Proper ((≡ₚ) ==> (=)) sumZ.
Proof.
  induction 1 as [|x l l' _ IH|x x' l|l1 l2 l3 _ IH1 _ IH2]; simpl; lia.
Qed.

Lemma sumZ_app (l1 l2 : list Z) : sumZ (l1 ++ l2) = sumZ l1 + sumZ l2.
Proof. induction l1 as [|x l1 IH]; simpl; lia. Qed.


Lemma acc_cell_Z (o : option Z) (a : Z) : acc_cell o a = Some (default 0 o + a).
Proof.
  unfold acc_cell. destruct o as [v|]; simpl; [|done].
  destruct (v =? 0) eqn:Hv; simpl; [|done].
  apply Z.eqb_eq in Hv. by subst.
Qed.

Lemma acc_or_zero_Z (o : option Z) (a : Z) :
  acc_or_zero o a = Some (default 0 o + a).
Proof.
  unfold acc_or_zero. destruct o as [v|]; simpl; [|done].
  destruct (v =? 0) eqn:Hv; simpl; [|done].
  apply Z.eqb_eq in Hv. by subst.
Qed.

Lemma foldl_acc_cell_Z (o : option Z) (l : list Z) :
  foldl acc_cell o l
  = match l with [] => o | _ => Some (default 0 o + sumZ l) end.
Proof.
  revert o. induction l as [|a l IH]; intros o; [done|].
  cbn [foldl]. rewrite IH, acc_cell_Z. destruct l; simpl; f_equal; lia.
Qed.

Lemma foldl_acc_or_zero_Z (o : option Z) (l : list Z) :
  foldl acc_or_zero o l
  = match l with [] => o | _ => Some (default 0 o + sumZ l) end.
Proof.
  revert o. induction l as [|a l IH]; intros o; [done|].
  cbn [foldl]. rewrite IH, acc_or_zero_Z. destruct l; simpl; f_equal; lia.
Qed.




(** *** The summary, in closed form *)



Lemma lookup_incomeByYear_in records cm years y :
  y ∈ years →
  CashflowSummary.incomeByYear (calculateSummary records cm years) !! y
  = Some (sumZ (typed_year_amounts cm "income" y records)).
Proof.
  intros Hy. rewrite lookup_incomeByYear, decide_True, foldl_acc_or_zero_Z by done.
  by destruct (typed_year_amounts _ _ _ _).
Qed.

Lemma lookup_expensesByYear_in records cm years y :
  y ∈ years →
  CashflowSummary.expensesByYear (calculateSummary records cm years) !! y
  = Some (sumZ (typed_year_amounts cm "expense" y records)).
Proof.
  intros Hy. rewrite lookup_expensesByYear, decide_True, foldl_acc_or_zero_Z by done.
  by destruct (typed_year_amounts _ _ _ _).
Qed.

Lemma lookup_netByYear_Z records cm years y :
  CashflowSummary.netByYear (calculateSummary records cm years) !! y
  = if decide (y ∈ years)
    then Some (Num (sumZ (typed_year_amounts cm "income" y records)
                    - sumZ (typed_year_amounts cm "expense" y records)))
    else None.
Proof.
  case_decide as Hy.
  - by rewrite lookup_netByYear, lookup_incomeByYear_in, lookup_expensesByYear_in.
  - by apply lookup_netByYear_outside.
Qed.





End ExactFacts.

(** ** Objects and dictionaries *)

Module ObjectFacts.
Import CashflowObjects ObjectSpec CashflowSpec CashflowFacts.

Section generic.
Context {num : Type} {JN : JsNumber num}.
Implicit Types (r : CashflowRecord.t num) (records : list (CashflowRecord.t num))
  (cm : gmap string Category.t) (key : string) (y : Z).

(** *** The pristine realm *)

Lemma added_pristine object : added (pristine : Realm num) object = ∅.
Proof. done. Qed.

Lemma added_under_pristine key : added_under (pristine : Realm num) key = None.
Proof.
  unfold added_under. rewrite added_pristine, map_to_list_empty. done.
Qed.

Lemma inherited_pristine key :
  ordinary_key key → inherited (pristine : Realm num) key = NotInherited.
Proof.
  intros Hkey. unfold inherited.
  rewrite decide_False by done. by rewrite added_under_pristine.
Qed.

Lemma get_year_pristine (own : gmap Z num) y :
  get_year pristine own y = own !! y.
Proof.
  unfold get_year. rewrite added_pristine.
  destruct (own !! y); [done|]. by rewrite lookup_empty.
Qed.

Lemma add_year_pristine (own : gmap Z num) y amount :
  add_year pristine own y amount = Cashflow.add_cell own y amount.
Proof. unfold add_year, Cashflow.add_cell. by rewrite get_year_pristine. Qed.

Lemma add_or_zero_pristine (m : gmap Z num) y amount :
  add_or_zero pristine m y amount = Cashflow.add_or_zero m y amount.
Proof.
  unfold add_or_zero, Cashflow.add_or_zero. by rewrite get_year_pristine.
Qed.

Lemma ordinary_key_proto key : ordinary_key key → key ≠ "__proto__".
Proof.
  intros Hkey ->. apply Hkey. unfold Prototype.names. set_solver.
Qed.

Lemma add_name_pristine (col : gmap string num) key amount :
  ordinary_key key →
  add_name pristine (Amount <$> col) key amount
  = Amount <$> Cashflow.add_cell col key amount.
Proof.
  intros Hkey. unfold add_name, Cashflow.add_cell.
  rewrite decide_False by by apply ordinary_key_proto.
  rewrite lookup_fmap.
  destruct (col !! key) as [v|]; simpl.
  - destruct (num_truthy v); by rewrite fmap_insert.
  - by rewrite inherited_pristine, fmap_insert.
Qed.

(** *** The summary *)

(** A value without a type changes nothing in the summary. *)
Lemma summary_step_untyped (realm : Realm num) (m : CategoryMap) acc r :
  type_of (lookup_category realm m (CashflowRecord.category_id r)) = None →
  summary_step realm m acc r = acc.
Proof.
  intros Hty. unfold summary_step. rewrite Hty.
  destruct (negb _); [done|]. by rewrite !decide_False by done.
Qed.

Lemma summary_step_typed (m : CategoryMap) (d : gmap string Category.t)
    category acc r :
  lookup_category (pristine : Realm num) m (CashflowRecord.category_id r)
    = IsCategory category →
  d !! CashflowRecord.category_id r = Some category →
  summary_step pristine m acc r = Cashflow.summary_step d acc r.
Proof.
  intros Hm Hd. unfold summary_step, Cashflow.summary_step.
  rewrite Hm, Hd, !add_or_zero_pristine. simpl.
  destruct (decide (Category.type category = "income")) as [Hi|Hi].
  { by rewrite decide_True by by rewrite Hi. }
  rewrite decide_False by naive_solver.
  destruct (decide (Category.type category = "expense")) as [He|He].
  { by rewrite decide_True by by rewrite He. }
  by rewrite decide_False by naive_solver.
Qed.

(** In the pristine realm [calculateSummary] finds the categories the
    object holds, and nothing else that has a type. *)
Lemma summary_step_dictionary (m : CategoryMap) acc r :
  summary_step pristine m acc r = Cashflow.summary_step (dictionary m) acc r.
Proof.
  destruct (own m !! CashflowRecord.category_id r) as [category|] eqn:Hown.
  { apply (summary_step_typed _ _ category).
    - unfold lookup_category. by rewrite Hown.
    - unfold dictionary. by erewrite lookup_union_Some_l. }
  destruct (prototype m) as [proto|] eqn:Hproto.
  - destruct (decide (CashflowRecord.category_id r = "__proto__")) as [Hid|Hid].
    + apply (summary_step_typed _ _ proto).
      * unfold lookup_category. by rewrite Hown, Hproto, decide_True.
      * unfold dictionary. rewrite lookup_union_r, Hproto by done. simpl.
        by rewrite Hid, lookup_singleton_eq.
    + rewrite summary_step_untyped.
      * unfold Cashflow.summary_step, dictionary.
        rewrite lookup_union_r, Hproto by done. simpl.
        by rewrite lookup_singleton_ne.
      * unfold lookup_category. rewrite Hown, Hproto, decide_False by done.
        repeat case_decide; try done.
        by destruct (inherited _ _).
  - rewrite summary_step_untyped.
    + unfold Cashflow.summary_step, dictionary.
      rewrite lookup_union_r, Hproto by done. simpl. by rewrite lookup_empty.
    + unfold lookup_category. rewrite Hown, Hproto.
      by destruct (inherited _ _).
Qed.

Lemma calculateSummary_dictionary records (m : CategoryMap) (years : list Z) :
  calculateSummary pristine records m years
  = Cashflow.calculateSummary records (dictionary m) years.
Proof.
  unfold calculateSummary, Cashflow.calculateSummary.
  assert (∀ acc, foldl (summary_step pristine m) acc records
                 = foldl (Cashflow.summary_step (dictionary m)) acc records)
    as ->.
  { induction records as [|r records IH]; intros acc; simpl; [done|].
    by rewrite summary_step_dictionary, IH. }
  set (acc := foldl _ _ records).
  assert (∀ net l,
    foldl (net_step pristine (Cashflow.acc_incomeByYear acc)
             (Cashflow.acc_expensesByYear acc)) net l
    = foldl (Cashflow.net_step (Cashflow.acc_incomeByYear acc)
               (Cashflow.acc_expensesByYear acc)) net l) as ->.
  { intros net l. revert net. induction l as [|y l IH]; intros net; simpl;
      [done|].
    rewrite IH. unfold net_step, Cashflow.net_step.
    by rewrite !get_year_pristine. }
  done.
Qed.

(** *** The categories *)

Lemma mkCategoryMap_plain (categories : list Category.t) :
  Forall (λ category, ordinary_key (Category.id category)) categories →
  mkCategoryMap categories
  = plain_categories (Cashflow.mkCategoryMap categories).
Proof.
  unfold mkCategoryMap, Cashflow.mkCategoryMap, plain_categories.
  generalize (∅ : gmap string Category.t).
  induction categories as [|category categories IH]; intros m Hall; simpl;
    [done|].
  apply Forall_cons in Hall as [Hid Hall].
  unfold set_category at 2. simpl.
  rewrite decide_False by by apply ordinary_key_proto.
  by apply IH.
Qed.

(** The categories the object holds are those of the dictionary, for
    every list of categories. *)
Lemma dictionary_set_category (m : CategoryMap) (category : Category.t) :
  own m !! "__proto__" = None →
  own (set_category m category) !! "__proto__" = None
  ∧ dictionary (set_category m category)
    = <[Category.id category := category]> (dictionary m).
Proof.
  intros Hown. unfold set_category, dictionary.
  destruct (decide (Category.id category = "__proto__")) as [Hid|Hid]; simpl.
  - split; [done|]. rewrite Hid. apply map_eq. intros k.
    destruct (decide (k = "__proto__")) as [->|Hk].
    + by rewrite lookup_insert_eq, lookup_union_r, lookup_singleton_eq.
    + rewrite lookup_insert_ne by done.
      rewrite !lookup_union, lookup_singleton_ne by done.
      destruct (prototype m) as [proto|]; simpl;
        by rewrite ?lookup_singleton_ne, ?lookup_empty by done.
  - split; [by rewrite lookup_insert_ne|]. by rewrite insert_union_l.
Qed.

Lemma dictionary_mkCategoryMap (categories : list Category.t) :
  own (mkCategoryMap categories) !! "__proto__" = None
  ∧ dictionary (mkCategoryMap categories) = Cashflow.mkCategoryMap categories.
Proof.
  unfold mkCategoryMap, Cashflow.mkCategoryMap.
  assert (∀ m : CategoryMap, own m !! "__proto__" = None →
    own (foldl set_category m categories) !! "__proto__" = None
    ∧ dictionary (foldl set_category m categories)
      = foldl (λ d category, <[Category.id category := category]> d)
              (dictionary m) categories) as Hgen.
  { induction categories as [|category categories IH]; intros m Hown; simpl;
      [done|].
    destruct (dictionary_set_category m category Hown) as [Hown' <-].
    by apply IH. }
  destruct (Hgen {| own := ∅; prototype := None |}) as [Hown Hd]; [done|].
  split; [done|]. rewrite Hd. by f_equal.
Qed.

Lemma lookup_own_mkCategoryMap (categories : list Category.t) key :
  key ≠ "__proto__" →
  own (mkCategoryMap categories) !! key
  = Cashflow.mkCategoryMap categories !! key.
Proof.
  intros Hkey. destruct (dictionary_mkCategoryMap categories) as [_ <-].
  unfold dictionary. rewrite lookup_union.
  destruct (prototype (mkCategoryMap categories)); simpl;
    rewrite ?lookup_singleton_ne, ?lookup_empty by done;
    by destruct (own _ !! key).
Qed.

Lemma prototype_mkCategoryMap (categories : list Category.t) :
  prototype (mkCategoryMap categories)
  = Cashflow.mkCategoryMap categories !! "__proto__".
Proof.
  destruct (dictionary_mkCategoryMap categories) as [Hown <-].
  unfold dictionary. rewrite lookup_union_r by done.
  destruct (prototype (mkCategoryMap categories)); simpl;
    by rewrite ?lookup_singleton_eq, ?lookup_empty.
Qed.

Lemma dictionary_plain cm : dictionary (plain_categories cm) = cm.
Proof. unfold dictionary, plain_categories. simpl. apply (right_id_L ∅ (∪)). Qed.

Lemma lookup_category_plain cm key :
  ordinary_key key →
  lookup_category (pristine : Realm num) (plain_categories cm) key
  = from_option IsCategory IsUndefined (cm !! key).
Proof.
  intros Hkey. unfold lookup_category, plain_categories. simpl.
  destruct (cm !! key); [done|]. by rewrite inherited_pristine.
Qed.

(** The dictionary gives, for an id, the last category of the list with
    that id. *)
Lemma mkCategoryMap_keeps_last (categories : list Category.t) (k : string) :
  Cashflow.mkCategoryMap categories !! k
  = last (filter (λ category, Category.id category = k) categories).
Proof.
  unfold Cashflow.mkCategoryMap.
  cut (∀ m : gmap string Category.t,
         foldl (λ m category, <[Category.id category := category]> m) m categories
           !! k
         = match last (filter (λ category, Category.id category = k) categories)
           with
           | Some category => Some category
           | None => m !! k
           end).
  { intros Hcut. rewrite Hcut, lookup_empty. by destruct (last _). }
  induction categories as [|cat categories IH]; intros m; simpl; [done|].
  rewrite IH. destruct (decide (Category.id cat = k)) as [Hk|Hk].
  - rewrite filter_cons_True by done.
    destruct (filter _ categories) as [|cat' l] eqn:Hf; simpl.
    + by rewrite <-Hk, lookup_insert_eq.
    + by assert (is_Some (last (cat' :: l))) as [c ->] by by apply last_is_Some.
  - rewrite filter_cons_False by done.
    destruct (last _); [done|]. by rewrite lookup_insert_ne.
Qed.

(** *** The record loop *)

Lemma Set_add_Some (names : list string) (name : string) :
  JS.Set_add (Some <$> names) (Some name) = Some <$> JS.Set_add names name.
Proof.
  unfold JS.Set_add.
  destruct (decide (name ∈ names)) as [Hin|Hin].
  - rewrite decide_True; [done|]. by apply list_elem_of_fmap_2.
  - rewrite decide_False; [by rewrite fmap_app|].
    intros (name' & [= ->] & Hin')%list_elem_of_fmap. done.
Qed.

(** On ordinary input, in the pristine realm, a step on the objects is
    the step on the dictionaries, and leaves the realm pristine. *)
Lemma pivot_step_plain cm (acc : Cashflow.PivotAcc) r :
  ordinary_key (CashflowRecord.category_id r) →
  (∀ category, cm !! CashflowRecord.category_id r = Some category →
     ordinary_key (Category.name category)) →
  pivot_step (plain_categories cm) pristine (plain_acc acc) r
  = (plain_acc <$> Cashflow.pivot_step cm acc r, pristine).
Proof.
  intros Hid Hname. unfold pivot_step, Cashflow.pivot_step.
  rewrite lookup_category_plain by done.
  destruct (cm !! CashflowRecord.category_id r) as [category|]; [|done].
  specialize (Hname category eq_refl). simpl.
  set (key := Category.name category) in *.
  unfold lookup_row.
  destruct (Cashflow.acc_byCategory acc !! key) as [row|] eqn:Hrow; simpl.
  - rewrite Hrow. simpl. rewrite add_year_pristine.
    rewrite lookup_fmap.
    destruct (Cashflow.acc_byYear acc !! CashflowRecord.year r) as [col|];
      [|done].
    simpl. unfold plain_acc. simpl.
    by rewrite add_name_pristine, fmap_insert, Set_add_Some.
  - rewrite inherited_pristine by done. simpl.
    rewrite !lookup_insert_eq. simpl. rewrite add_year_pristine.
    rewrite lookup_fmap.
    destruct (Cashflow.acc_byYear acc !! CashflowRecord.year r) as [col|];
      [|done].
    simpl. unfold plain_acc. simpl.
    by rewrite add_name_pristine, fmap_insert, Set_add_Some.
Qed.

Lemma pivot_loop_thrown (m : CategoryMap) (realm : Realm num) records :
  foldl (λ state record,
           match state with
           | (Some acc, realm) => pivot_step m realm acc record
           | (None, realm) => (None, realm)
           end) (None, realm) records
  = (None, realm).
Proof. induction records as [|r records IH]; [done|]. simpl. apply IH. Qed.

Lemma pivot_loop_step (m : CategoryMap) (realm : Realm num) acc r records :
  pivot_loop m realm acc (r :: records)
  = match pivot_step m realm acc r with
    | (Some acc', realm') => pivot_loop m realm' acc' records
    | (None, realm') => (None, realm')
    end.
Proof.
  unfold pivot_loop. simpl.
  destruct (pivot_step m realm acc r) as [[acc'|] realm']; [done|].
  apply pivot_loop_thrown.
Qed.

Lemma pivot_loop_plain cm records : ∀ acc : Cashflow.PivotAcc,
  Forall (λ r, ordinary_key (CashflowRecord.category_id r)) records →
  (∀ k category, cm !! k = Some category →
     ordinary_key (Category.name category)) →
  pivot_loop (plain_categories cm) pristine (plain_acc acc) records
  = (plain_acc <$> Cashflow.pivot_loop cm acc records, pristine).
Proof.
  induction records as [|r records IH]; intros acc Hids Hnames; [done|].
  apply Forall_cons in Hids as [Hid Hids].
  rewrite pivot_loop_step, CashflowFacts.pivot_loop_cons.
  rewrite pivot_step_plain by eauto.
  destruct (Cashflow.pivot_step cm acc r) as [acc'|]; simpl; [|done].
  by apply IH.
Qed.

Lemma init_years_fmap {V W} (f : V → W) (v : V) (years : list Z) :
  f <$> Cashflow.init_years v years = Cashflow.init_years (f v) years.
Proof.
  unfold Cashflow.init_years.
  assert (∀ m : gmap Z V,
    f <$> foldl (λ m year, <[year := v]> m) m years
    = foldl (λ m year, <[year := f v]> m) (f <$> m) years) as Hgen.
  { induction years as [|y years IH]; intros m; simpl; [done|].
    by rewrite IH, fmap_insert. }
  by rewrite Hgen, fmap_empty.
Qed.

Lemma omap_id_Some (names : list string) : omap id (Some <$> names) = names.
Proof.
  induction names as [|name names IH]; [done|].
  rewrite fmap_cons. simpl. by f_equal.
Qed.

Lemma sort_names_Some (names : list string) :
  sort_names (Some <$> names) = Some <$> JS.sort_default id names.
Proof.
  unfold sort_names. rewrite omap_id_Some.
  assert (filter (λ name : option string, name = None) (Some <$> names) = [])
    as ->; [|by rewrite app_nil_r].
  induction names as [|name names IH]; [done|].
  rewrite fmap_cons, filter_cons_False by done. apply IH.
Qed.

(** On ordinary input, in the pristine realm, [transformCashflowData]
    returns the object of the pivot computed on dictionaries, and leaves
    the realm pristine. *)
Lemma transformCashflowData_plain records (categories : list Category.t)
    (file : option UploadedFile.t) :
  ordinary records categories →
  transformCashflowData pristine records categories file
  = (plain <$> Cashflow.transformCashflowData records categories file,
     pristine).
Proof.
  intros [Hcategories Hrecords].
  unfold transformCashflowData, Cashflow.transformCashflowData.
  rewrite mkCategoryMap_plain.
  2:{ eapply Forall_impl; [exact Hcategories|]. by intros category [? _]. }
  set (cm := Cashflow.mkCategoryMap categories).
  set (acc0 := {| Cashflow.acc_byCategory := ∅;
                  Cashflow.acc_byYear :=
                    Cashflow.init_years ∅ (Cashflow.mkYears records);
                  Cashflow.acc_categoryNames := [] |}).
  assert ({| acc_byCategory := ∅;
             acc_byYear := Cashflow.init_years ∅ (Cashflow.mkYears records);
             acc_categoryNames := [] |} = plain_acc acc0) as ->.
  { unfold plain_acc, acc0. simpl. by rewrite init_years_fmap, fmap_empty. }
  rewrite pivot_loop_plain; [|done|].
  2:{ intros k category [Hin _]%CashflowFacts.lookup_mkCategoryMap_Some.
      by apply (proj1 (Forall_forall _ _) Hcategories category Hin). }
  destruct (Cashflow.pivot_loop cm acc0 records) as [acc|]; simpl; [|done].
  unfold plain. simpl.
  by rewrite calculateSummary_dictionary, dictionary_plain, sort_names_Some.
Qed.

(** What [transformCashflowData] returns on ordinary input. *)
Lemma transformCashflowData_plain_post records (categories : list Category.t)
    (file : option UploadedFile.t) :
  ordinary records categories →
  ∃ p, transformCashflowData pristine records categories file
       = (Some (plain p), pristine)
       ∧ transform_post records categories file p.
Proof.
  intros Hordinary.
  destruct (CashflowFacts.transformCashflowData_post records categories file)
    as (p & Hp & Hpost).
  exists p. split; [|done].
  by rewrite transformCashflowData_plain, Hp.
Qed.

(** *** Every realm *)

Lemma get_year_own (realm : Realm num) (own : gmap Z num) y :
  is_Some (own !! y) → get_year realm own y = own !! y.
Proof. intros [v Hv]. unfold get_year. by rewrite Hv. Qed.

Lemma add_or_zero_own (realm : Realm num) (m : gmap Z num) y amount :
  is_Some (m !! y) →
  add_or_zero realm m y amount = Cashflow.add_or_zero m y amount.
Proof.
  intros Hy. unfold add_or_zero, Cashflow.add_or_zero.
  by rewrite get_year_own.
Qed.

(** In every realm a lookup gives a category exactly when the object
    holds it: what the realm adds is no category. *)
Lemma type_of_lookup_category (realm : Realm num) (m : CategoryMap) key :
  match dictionary m !! key with
  | Some category => lookup_category realm m key = IsCategory category
  | None => type_of (lookup_category realm m key) = None
  end.
Proof.
  unfold dictionary, lookup_category.
  destruct (own m !! key) as [category|] eqn:Hown.
  { by erewrite lookup_union_Some_l. }
  rewrite lookup_union_r by done.
  destruct (prototype m) as [proto|]; simpl.
  - destruct (decide (key = "__proto__")) as [->|Hkey].
    + by rewrite lookup_singleton_eq.
    + rewrite lookup_singleton_ne by done.
      repeat case_decide; try done. by destruct (inherited _ _).
  - rewrite lookup_empty. by destruct (inherited _ _).
Qed.

Lemma summary_step_covered (realm : Realm num) (m : CategoryMap) acc r :
  is_Some (Cashflow.acc_incomeByYear acc !! CashflowRecord.year r) →
  is_Some (Cashflow.acc_expensesByYear acc !! CashflowRecord.year r) →
  summary_step realm m acc r = Cashflow.summary_step (dictionary m) acc r.
Proof.
  intros Hincome Hexpenses.
  pose proof (type_of_lookup_category realm m (CashflowRecord.category_id r))
    as Hlookup.
  unfold Cashflow.summary_step.
  destruct (dictionary m !! CashflowRecord.category_id r) as [category|].
  - unfold summary_step. rewrite Hlookup, !add_or_zero_own by done. simpl.
    destruct (decide (Category.type category = "income")) as [Hi|Hi].
    { by rewrite decide_True by by rewrite Hi. }
    rewrite decide_False by naive_solver.
    destruct (decide (Category.type category = "expense")) as [He|He].
    { by rewrite decide_True by by rewrite He. }
    by rewrite decide_False by naive_solver.
  - by apply summary_step_untyped.
Qed.

Lemma summary_step_keys (d : gmap string Category.t) acc r y :
  (is_Some (Cashflow.acc_incomeByYear acc !! y) →
   is_Some (Cashflow.acc_incomeByYear (Cashflow.summary_step d acc r) !! y))
  ∧ (is_Some (Cashflow.acc_expensesByYear acc !! y) →
     is_Some (Cashflow.acc_expensesByYear (Cashflow.summary_step d acc r) !! y)).
Proof.
  assert (∀ (m : gmap Z num) k a,
            is_Some (m !! y) → is_Some (Cashflow.add_or_zero m k a !! y))
    as Hkeep.
  { intros m k a Hy. rewrite CashflowFacts.lookup_add_or_zero.
    case_decide; [|done]. unfold acc_or_zero. eauto. }
  unfold Cashflow.summary_step.
  destruct (d !! CashflowRecord.category_id r) as [category|]; [|done].
  repeat case_decide; simpl; split; auto.
Qed.

Lemma summary_loop_covered (realm : Realm num) (m : CategoryMap) records :
  ∀ acc,
    Forall (λ r,
        is_Some (Cashflow.acc_incomeByYear acc !! CashflowRecord.year r)
        ∧ is_Some (Cashflow.acc_expensesByYear acc !! CashflowRecord.year r))
      records →
    foldl (summary_step realm m) acc records
    = foldl (Cashflow.summary_step (dictionary m)) acc records.
Proof.
  induction records as [|r records IH]; intros acc Hall; [done|].
  apply Forall_cons in Hall as [[Hi He] Hall]. simpl.
  rewrite summary_step_covered by done. apply IH.
  eapply Forall_impl; [exact Hall|]. intros r' [Hi' He'].
  split; by apply summary_step_keys.
Qed.

Lemma summary_loop_keys (d : gmap string Category.t) records : ∀ acc y,
  (is_Some (Cashflow.acc_incomeByYear acc !! y) →
   is_Some (Cashflow.acc_incomeByYear
              (foldl (Cashflow.summary_step d) acc records) !! y))
  ∧ (is_Some (Cashflow.acc_expensesByYear acc !! y) →
     is_Some (Cashflow.acc_expensesByYear
                (foldl (Cashflow.summary_step d) acc records) !! y)).
Proof.
  induction records as [|r records IH]; intros acc y; [done|]. simpl.
  destruct (IH (Cashflow.summary_step d acc r) y) as [IHi IHe].
  destruct (summary_step_keys d acc r y) as [Hi He]. split; auto.
Qed.

(** When [years] holds the years of the records, as it does in
    [transformCashflowData], the summary is that of the dictionary in
    every realm. *)
Lemma calculateSummary_covered (realm : Realm num) records (m : CategoryMap)
    (years : list Z) :
  Forall (λ r, CashflowRecord.year r ∈ years) records →
  calculateSummary realm records m years
  = Cashflow.calculateSummary records (dictionary m) years.
Proof.
  intros Hyears. unfold calculateSummary, Cashflow.calculateSummary.
  set (acc0 := {| Cashflow.acc_incomeByYear := Cashflow.init_years num_zero years;
                  Cashflow.acc_expensesByYear := Cashflow.init_years num_zero years;
                  Cashflow.acc_totalIncome := num_zero;
                  Cashflow.acc_totalExpenses := num_zero |}).
  assert (∀ y, y ∈ years →
            is_Some (Cashflow.acc_incomeByYear acc0 !! y)
            ∧ is_Some (Cashflow.acc_expensesByYear acc0 !! y)) as Hinit.
  { intros y Hy. simpl.
    rewrite !CashflowFacts.lookup_init_years, !decide_True by done. eauto. }
  rewrite summary_loop_covered.
  2:{ eapply Forall_impl; [exact Hyears|]. intros r Hr. by apply Hinit. }
  set (acc := foldl _ acc0 records).
  assert (∀ net l, l ⊆ years →
    foldl (net_step realm (Cashflow.acc_incomeByYear acc)
             (Cashflow.acc_expensesByYear acc)) net l
    = foldl (Cashflow.net_step (Cashflow.acc_incomeByYear acc)
               (Cashflow.acc_expensesByYear acc)) net l) as ->; [|done|done].
  intros net l. revert net. induction l as [|y l IH]; intros net Hl; simpl;
    [done|].
  assert (y ∈ years) as Hy by set_solver.
  destruct (Hinit y Hy) as [Hi He].
  destruct (summary_loop_keys (dictionary m) records acc0 y) as [Hi' He'].
  rewrite IH by set_solver. unfold net_step, Cashflow.net_step.
  by rewrite !get_year_own by auto.
Qed.

Lemma pivot_step_byYear (m : CategoryMap) (realm : Realm num) acc r acc' realm' :
  pivot_step m realm acc r = (Some acc', realm') →
  dom (acc_byYear acc') = dom (acc_byYear acc).
Proof.
  unfold pivot_step. destruct (negb _); [by intros [= <- _]|].
  destruct (lookup_row _ _ _) as [row|[object|n|]]; try done.
  - destruct (acc_byYear acc !! CashflowRecord.year r) as [col|] eqn:Hcol;
      [|done].
    intros [= <- _]. simpl. rewrite dom_insert_L.
    apply elem_of_dom_2 in Hcol. set_solver.
  - destruct (acc_byYear acc !! CashflowRecord.year r) as [col|] eqn:Hcol;
      [|done].
    intros [= <- _]. simpl. rewrite dom_insert_L.
    apply elem_of_dom_2 in Hcol. set_solver.
Qed.

Lemma pivot_loop_byYear (m : CategoryMap) records :
  ∀ (realm : Realm num) acc acc' realm',
    pivot_loop m realm acc records = (Some acc', realm') →
    dom (acc_byYear acc') = dom (acc_byYear acc).
Proof.
  induction records as [|r records IH]; intros realm acc acc' realm'.
  { by intros [= <- _]. }
  rewrite pivot_loop_step.
  destruct (pivot_step m realm acc r) as [[acc1|] realm1] eqn:Hstep; [|done].
  intros Hloop. rewrite (IH _ _ _ _ Hloop).
  by eapply pivot_step_byYear.
Qed.

(** What [transformCashflowData] returns, when it returns, in every
    realm and on every input: the years of the records, a row of
    [byYear] for each of them, and the summary of the dictionaries. *)
Lemma transformCashflowData_returned (realm : Realm num) records
    (categories : list Category.t) (file : option UploadedFile.t) p realm' :
  transformCashflowData realm records categories file = (Some p, realm') →
  years p = Cashflow.mkYears records
  ∧ dom (byYear p) = list_to_set (Cashflow.mkYears records)
  ∧ summary p
    = Cashflow.calculateSummary records (Cashflow.mkCategoryMap categories)
        (Cashflow.mkYears records)
  ∧ CashflowObjects.categories p = mkCategoryMap categories
  ∧ CashflowObjects.records p = records
  ∧ CashflowObjects.file p = file.
Proof.
  unfold transformCashflowData.
  destruct (pivot_loop _ _ _ _) as [[acc|] realm1] eqn:Hloop; [|done].
  intros [= <- <-]. simpl. split_and!; [done| | |done..].
  - rewrite (pivot_loop_byYear _ _ _ _ _ _ Hloop). simpl.
    apply CashflowFacts.dom_init_years.
  - rewrite calculateSummary_covered.
    + by rewrite (proj2 (dictionary_mkCategoryMap categories)).
    + apply Forall_forall. intros r Hr.
      apply CashflowFacts.mkYears_elem_of. by apply list_elem_of_fmap_2.
Qed.

(** On ordinary input and in the pristine realm, it returns. *)
Lemma transformCashflowData_returns (realm : Realm num) records
    (categories : list Category.t) (file : option UploadedFile.t) :
  (transformCashflowData realm records categories file).1 = None →
  realm = pristine → ¬ ordinary records categories.
Proof.
  intros Hnone -> Hordinary.
  destruct (transformCashflowData_plain_post records categories file Hordinary)
    as (p & Hp & _).
  by rewrite Hp in Hnone.
Qed.

End generic.
End ObjectFacts.

(** ** Theorems about the cash-flow analysis *)

Module CashflowTheorems.
Import Cashflow CashflowSpec CashflowFacts ExactSpec ExactFacts.
Import ObjectSpec.

Implicit Types (cm : gmap string Category.t) (c : string) (y : Z).

(** The two views hold the same cells: [byYear[y]] is the column [y] of
    [byCategory], for amounts of any kind. *)
Lemma byYear_transposes_byCategory {num} {JN : JsNumber num}
    (records : list (CashflowRecord.t num)) categories file p y :
  transform_post records categories file p →
  default ∅ (PivotedCashflow.byYear p !! y)
  = omap (.!! y) (PivotedCashflow.byCategory p).
Proof.
  intros Hp. apply map_eq. intros c.
  rewrite lookup_default_row, lookup_omap.
  pose proof (tp_cellY _ _ _ _ Hp c y) as HY.
  pose proof (tp_cellC _ _ _ _ Hp c y) as HC.
  unfold cellY, cellC in *. by rewrite HY, HC.
Qed.

Lemma map_fold_omap_sum `{Countable K} (m : gmap K (gmap Z Z)) y :
  map_fold (λ _ v acc, v + acc) 0 (omap (.!! y) m)
  = map_fold (λ _ row acc, default 0 (row !! y) + acc) 0 m.
Proof.
  induction m as [|i row m Hi IH] using map_ind.
  - by rewrite omap_empty, !map_fold_empty.
  - rewrite (map_fold_insert_L (λ _ row acc, default 0 (row !! y) + acc));
      [|intros; lia|done].
    rewrite omap_insert. destruct (row !! y) as [v|] eqn:Hv; simpl.
    + rewrite map_fold_insert_L; [by rewrite IH|intros; lia|].
      by rewrite lookup_omap, Hi.
    + rewrite delete_id by by rewrite lookup_omap, Hi.
      by rewrite IH.
Qed.

(** On ordinary input and for exact amounts the two views of the pivot
    have the same sums: for every year [y] (in particular every year of
    [years]), the sum of the cells [byCategory[c][y]] over the
    categories that have one equals the sum of the cells
    [byYear[y][c]]. *)
Lemma pivot_views_agree (records : list (CashflowRecord.t Z))
    (categories : list Category.t) (file : option UploadedFile.t) :
  ordinary records categories →
  ∃ p, CashflowObjects.transformCashflowData CashflowObjects.pristine
         records categories file
       = (Some (plain p), CashflowObjects.pristine)
       ∧ ∀ y, sum_byCategory p y = sum_byYear p y.
Proof.
  intros Hordinary.
  destruct (ObjectFacts.transformCashflowData_plain_post records categories
              file Hordinary) as (p & Hp & Hpost).
  exists p. split; [done|]. intros y. unfold sum_byCategory, sum_byYear.
  by rewrite (byYear_transposes_byCategory _ _ _ _ _ Hpost), map_fold_omap_sum.
Qed.

(** C4. For every list of records, category lookup and list of years,
    the summary of [calculateSummary] has, for every year [y] of
    [years], income and expense entries [i] and [e] and the net entry
    [i - e]; and [totalNet] is [totalIncome - totalExpenses]. This holds
    for amounts of any kind. *)
Theorem net_is_income_minus_expenses {num} {JN : JsNumber num}
    (records : list (CashflowRecord.t num)) cm (years : list Z) :
  Forall (λ y, ∃ i e,
      CashflowSummary.incomeByYear (calculateSummary records cm years) !! y = Some i
      ∧ CashflowSummary.expensesByYear (calculateSummary records cm years) !! y = Some e
      ∧ CashflowSummary.netByYear (calculateSummary records cm years) !! y
        = Some (Num (num_sub i e))) years
  ∧ CashflowSummary.totalNet (calculateSummary records cm years)
    = num_sub (CashflowSummary.totalIncome (calculateSummary records cm years))
              (CashflowSummary.totalExpenses (calculateSummary records cm years)).
Proof.
  split; [|apply totalNet_difference]. apply Forall_forall. intros y Hy.
  assert (is_Some (CashflowSummary.incomeByYear
                     (calculateSummary records cm years) !! y)) as [i Hi].
  { unfold calculateSummary. cbn [CashflowSummary.incomeByYear].
    rewrite summary_loop_income. apply foldl_acc_or_zero_is_Some.
    cbn [acc_incomeByYear]. rewrite lookup_init_years, decide_True by done. eauto. }
  assert (is_Some (CashflowSummary.expensesByYear
                     (calculateSummary records cm years) !! y)) as [e He].
  { unfold calculateSummary. cbn [CashflowSummary.expensesByYear].
    rewrite summary_loop_expenses. apply foldl_acc_or_zero_is_Some.
    cbn [acc_expensesByYear]. rewrite lookup_init_years, decide_True by done. eauto. }
  exists i, e. split_and!; [done|done|].
  by rewrite lookup_netByYear, Hi, He.
Qed.




(** *** Records without a category, and the order of the records *)

Section skip.
Context {num : Type} {JN : JsNumber num}.
Implicit Types (r : CashflowRecord.t num) (l : list (CashflowRecord.t num)).

Lemma filter_skip (P : CashflowRecord.t num → Prop) `{∀ r, Decision (P r)}
    l1 r l2 :
  ¬ P r → filter P (l1 ++ r :: l2) = filter P (l1 ++ l2).
Proof. intros Hr. by rewrite !filter_app, filter_cons_False. Qed.

Lemma cell_amounts_skip cm c y l1 r l2 :
  resolve cm r = None →
  cell_amounts cm c y (l1 ++ r :: l2) = cell_amounts cm c y (l1 ++ l2).
Proof.
  intros Hr. unfold cell_amounts. rewrite filter_skip; [done|].
  unfold in_cell, filed_as. rewrite Hr. by intros [? _].
Qed.

Lemma filed_as_skip cm l1 r l2 :
  resolve cm r = None →
  omap (filed_as cm) (l1 ++ r :: l2) = omap (filed_as cm) (l1 ++ l2).
Proof.
  intros Hr. rewrite !omap_app. simpl. unfold filed_as at 2. by rewrite Hr.
Qed.

Lemma typed_amounts_skip cm ty l1 r l2 :
  resolve cm r = None →
  typed_amounts cm ty (l1 ++ r :: l2) = typed_amounts cm ty (l1 ++ l2).
Proof.
  intros Hr. unfold typed_amounts. rewrite filter_skip; [done|].
  unfold has_type. by rewrite Hr.
Qed.

Lemma typed_year_amounts_skip cm ty y l1 r l2 :
  resolve cm r = None →
  typed_year_amounts cm ty y (l1 ++ r :: l2)
  = typed_year_amounts cm ty y (l1 ++ l2).
Proof.
  intros Hr. unfold typed_year_amounts. rewrite filter_skip; [done|].
  unfold has_type. rewrite Hr. by intros [? _].
Qed.

Lemma typed_year_amounts_no_year cm ty y l :
  y ∉ CashflowRecord.year <$> l → typed_year_amounts cm ty y l = [].
Proof.
  intros Hy. unfold typed_year_amounts.
  induction l as [|r l IH]; [done|].
  rewrite fmap_cons, not_elem_of_cons in Hy. destruct Hy as [Hne Hy].
  rewrite filter_cons_False; [by apply IH|]. by intros [_ ?].
Qed.
End skip.

(** Pivots of two record lists that accumulate the same value in every
    cell and have the same category names. *)
Lemma pivots_agree {num} {JN : JsNumber num}
    (records records' : list (CashflowRecord.t num))
    categories file file' p p' :
  transform_post records categories file p →
  transform_post records' categories file' p' →
  (∀ c y,
     foldl acc_cell None (cell_amounts (mkCategoryMap categories) c y records)
     = foldl acc_cell None
             (cell_amounts (mkCategoryMap categories) c y records')) →
  omap (filed_as (mkCategoryMap categories)) records
    ≡ₚ omap (filed_as (mkCategoryMap categories)) records' →
  PivotedCashflow.byCategory p = PivotedCashflow.byCategory p'
  ∧ (∀ y, default ∅ (PivotedCashflow.byYear p !! y)
          = default ∅ (PivotedCashflow.byYear p' !! y))
  ∧ PivotedCashflow.categoryNames p = PivotedCashflow.categoryNames p'.
Proof.
  intros Hp Hp' Hcells Hnames. split_and!.
  - apply cells_eq.
    + rewrite (tp_domC _ _ _ _ Hp), (tp_domC _ _ _ _ Hp').
      by apply list_to_set_perm_L.
    + intros c y.
      pose proof (tp_cellC _ _ _ _ Hp c y) as HC.
      pose proof (tp_cellC _ _ _ _ Hp' c y) as HC'.
      unfold cellC in *. by rewrite HC, HC'.
  - intros y. apply map_eq. intros c. rewrite !lookup_default_row.
    pose proof (tp_cellY _ _ _ _ Hp c y) as HY.
    pose proof (tp_cellY _ _ _ _ Hp' c y) as HY'.
    unfold cellY in *. by rewrite HY, HY'.
  - rewrite (tp_names _ _ _ _ Hp), (tp_names _ _ _ _ Hp').
    apply (JSFacts.sort_default_Permutation_eq id).
    + apply JSFacts.NoDup_new_Set.
    + by apply JSFacts.new_Set_Permutation.
Qed.


(** On dictionaries, a record whose [category_id] is the id of no
    category is skipped. *)
Lemma unresolved_record_on_dictionaries {num} {JN : JsNumber num}
    (l1 l2 : list (CashflowRecord.t num)) (r : CashflowRecord.t num)
    (categories : list Category.t) (file : option UploadedFile.t) :
  num_sub num_zero num_zero = num_zero →
  (∀ cat, cat ∈ categories → Category.id cat ≠ CashflowRecord.category_id r) →
  ∃ p p',
    transformCashflowData (l1 ++ r :: l2) categories file = Some p
    ∧ transformCashflowData (l1 ++ l2) categories file = Some p'
    ∧ PivotedCashflow.byCategory p = PivotedCashflow.byCategory p'
    ∧ (∀ y, default ∅ (PivotedCashflow.byYear p !! y)
            = default ∅ (PivotedCashflow.byYear p' !! y))
    ∧ PivotedCashflow.categoryNames p = PivotedCashflow.categoryNames p'
    ∧ (∀ n, n ∈ PivotedCashflow.categoryNames p →
         ∃ r' cat, r' ∈ l1 ++ l2 ∧ cat ∈ categories
                   ∧ Category.id cat = CashflowRecord.category_id r'
                   ∧ Category.name cat = n)
    ∧ CashflowSummary.totalIncome (PivotedCashflow.summary p)
      = CashflowSummary.totalIncome (PivotedCashflow.summary p')
    ∧ CashflowSummary.totalExpenses (PivotedCashflow.summary p)
      = CashflowSummary.totalExpenses (PivotedCashflow.summary p')
    ∧ CashflowSummary.totalNet (PivotedCashflow.summary p)
      = CashflowSummary.totalNet (PivotedCashflow.summary p')
    ∧ (∀ y,
        default num_zero
          (CashflowSummary.incomeByYear (PivotedCashflow.summary p) !! y)
        = default num_zero
            (CashflowSummary.incomeByYear (PivotedCashflow.summary p') !! y)
        ∧ default num_zero
            (CashflowSummary.expensesByYear (PivotedCashflow.summary p) !! y)
          = default num_zero
              (CashflowSummary.expensesByYear (PivotedCashflow.summary p') !! y)
        ∧ default (Num num_zero)
            (CashflowSummary.netByYear (PivotedCashflow.summary p) !! y)
          = default (Num num_zero)
              (CashflowSummary.netByYear (PivotedCashflow.summary p') !! y)).
Proof.
  intros Hzero Hr%lookup_mkCategoryMap_None.
  set (cm := mkCategoryMap categories) in *.
  assert (resolve cm r = None) as Hres by done.
  destruct (transformCashflowData_post (l1 ++ r :: l2) categories file)
    as (p & Hp & Hpost).
  destruct (transformCashflowData_post (l1 ++ l2) categories file)
    as (p' & Hp' & Hpost').
  exists p, p'. split; [done|]. split; [done|].
  destruct (pivots_agree _ _ _ _ _ _ _ Hpost Hpost') as (HC & HY & Hn).
  { intros c y. fold cm. by rewrite cell_amounts_skip. }
  { fold cm. by rewrite filed_as_skip. }
  split; [done|]. split; [done|]. split; [done|].
  rewrite (tp_summary _ _ _ _ Hpost), (tp_summary _ _ _ _ Hpost'). fold cm.
  assert (∀ years years',
    CashflowSummary.totalIncome (calculateSummary (l1 ++ r :: l2) cm years)
    = CashflowSummary.totalIncome (calculateSummary (l1 ++ l2) cm years')
    ∧ CashflowSummary.totalExpenses (calculateSummary (l1 ++ r :: l2) cm years)
      = CashflowSummary.totalExpenses (calculateSummary (l1 ++ l2) cm years'))
    as Htotals.
  { intros years years'. summary_field.
    rewrite !summary_loop_totalIncome, !summary_loop_totalExpenses.
    by rewrite !typed_amounts_skip. }
  assert (∀ years y,
    CashflowSummary.incomeByYear (calculateSummary (l1 ++ r :: l2) cm years) !! y
    = CashflowSummary.incomeByYear (calculateSummary (l1 ++ l2) cm years) !! y
    ∧ CashflowSummary.expensesByYear
        (calculateSummary (l1 ++ r :: l2) cm years) !! y
      = CashflowSummary.expensesByYear
          (calculateSummary (l1 ++ l2) cm years) !! y)
    as Hyear.
  { intros years y. rewrite !lookup_incomeByYear, !lookup_expensesByYear.
    by rewrite !typed_year_amounts_skip. }
  split_and!.
  - intros n. rewrite Hn, (tp_names _ _ _ _ Hpost'). fold cm.
    unfold JS.sort_default. rewrite JSFacts.sort_Permutation, JSFacts.elem_of_new_Set.
    intros (r' & Hr' & Hf)%list_elem_of_omap. unfold filed_as, resolve in Hf.
    destruct (cm !! CashflowRecord.category_id r') as [cat|] eqn:Hcat; [|done].
    apply lookup_mkCategoryMap_Some in Hcat as [Hin Hid].
    exists r', cat. simpl in Hf. by simplify_eq.
  - apply Htotals.
  - apply Htotals.
  - rewrite !totalNet_difference.
    by destruct (Htotals (mkYears (l1 ++ r :: l2)) (mkYears (l1 ++ l2))) as [-> ->].
  - intros y.
    destruct (Hyear (mkYears (l1 ++ r :: l2)) y) as [HI HE].
    split_and!.
    + rewrite HI. apply default_incomeByYear_years.
    + rewrite HE. apply default_expensesByYear_years.
    + destruct (decide (y ∈ mkYears (l1 ++ l2))) as [Hy|Hy].
      * assert (y ∈ mkYears (l1 ++ r :: l2)) as Hy'.
        { rewrite mkYears_elem_of in Hy |- *.
          rewrite fmap_app, elem_of_app in Hy. rewrite fmap_app, fmap_cons.
          rewrite elem_of_app, elem_of_cons. tauto. }
        rewrite !lookup_netByYear, HI, HE by done.
        by rewrite !lookup_incomeByYear, !lookup_expensesByYear, !decide_True.
      * rewrite (lookup_netByYear_outside (l1 ++ l2)) by done.
        destruct (decide (y ∈ mkYears (l1 ++ r :: l2))) as [Hy'|Hy'].
        -- rewrite lookup_netByYear, HI, HE by done.
           rewrite lookup_incomeByYear, lookup_expensesByYear, !decide_True by done.
           rewrite mkYears_elem_of in Hy.
           rewrite !(typed_year_amounts_no_year cm _ y (l1 ++ l2)) by done.
           simpl. by rewrite Hzero.
        -- by rewrite lookup_netByYear_outside.
Qed.


(** *** The same, of the objects the source builds *)

Lemma ordinary_skip {num} {JN : JsNumber num}
    (l1 l2 : list (CashflowRecord.t num)) r categories :
  ordinary (l1 ++ r :: l2) categories → ordinary (l1 ++ l2) categories.
Proof.
  intros [Hc Hr]. split; [done|].
  rewrite Forall_app in Hr |- *. destruct Hr as [H1 [_ H2]%Forall_cons]. done.
Qed.


Lemma default_byYear_plain {num} {JN : JsNumber num}
    (p p' : PivotedCashflow.t num) y :
  default ∅ (PivotedCashflow.byYear p !! y)
  = default ∅ (PivotedCashflow.byYear p' !! y) →
  default ∅ (CashflowObjects.byYear (plain p) !! y)
  = default ∅ (CashflowObjects.byYear (plain p') !! y).
Proof.
  intros Heq. unfold plain. simpl. rewrite !lookup_fmap.
  destruct (PivotedCashflow.byYear p !! y) as [col|],
           (PivotedCashflow.byYear p' !! y) as [col'|]; simpl in *.
  - by rewrite Heq.
  - by rewrite Heq, fmap_empty.
  - by rewrite <-Heq, fmap_empty.
  - done.
Qed.

(** X30. A record whose [category_id] matches no category of the list
    is skipped, when no id and no name in the input is the name of a
    property of [Object.prototype] and the realm is pristine: [transformCashflowData] raises no exception, leaves the
    realm pristine, and returns, with and without the record, the same
    [byCategory], the same cells of [byYear] (a missing year counting
    as an empty row), the same [categoryNames], all of them names of
    categories of other records, and the same summary figures (a
    missing year counting as 0). This holds for amounts of any kind in
    which 0 - 0 is 0. *)
Theorem unresolved_record_is_skipped {num} {JN : JsNumber num}
    (l1 l2 : list (CashflowRecord.t num)) (r : CashflowRecord.t num)
    (categories : list Category.t) (file : option UploadedFile.t) :
  num_sub num_zero num_zero = num_zero →
  ordinary (l1 ++ r :: l2) categories →
  (∀ cat, cat ∈ categories → Category.id cat ≠ CashflowRecord.category_id r) →
  ∃ p p',
    CashflowObjects.transformCashflowData CashflowObjects.pristine
      (l1 ++ r :: l2) categories file
    = (Some p, CashflowObjects.pristine)
    ∧ CashflowObjects.transformCashflowData CashflowObjects.pristine
        (l1 ++ l2) categories file
      = (Some p', CashflowObjects.pristine)
    ∧ CashflowObjects.byCategory p = CashflowObjects.byCategory p'
    ∧ (∀ y, default ∅ (CashflowObjects.byYear p !! y)
            = default ∅ (CashflowObjects.byYear p' !! y))
    ∧ CashflowObjects.categoryNames p = CashflowObjects.categoryNames p'
    ∧ (∀ n, n ∈ CashflowObjects.categoryNames p →
         ∃ r' cat, r' ∈ l1 ++ l2 ∧ cat ∈ categories
                   ∧ Category.id cat = CashflowRecord.category_id r'
                   ∧ n = Some (Category.name cat))
    ∧ CashflowSummary.totalIncome (CashflowObjects.summary p)
      = CashflowSummary.totalIncome (CashflowObjects.summary p')
    ∧ CashflowSummary.totalExpenses (CashflowObjects.summary p)
      = CashflowSummary.totalExpenses (CashflowObjects.summary p')
    ∧ CashflowSummary.totalNet (CashflowObjects.summary p)
      = CashflowSummary.totalNet (CashflowObjects.summary p')
    ∧ (∀ y,
        default num_zero
          (CashflowSummary.incomeByYear (CashflowObjects.summary p) !! y)
        = default num_zero
            (CashflowSummary.incomeByYear (CashflowObjects.summary p') !! y)
        ∧ default num_zero
            (CashflowSummary.expensesByYear (CashflowObjects.summary p) !! y)
          = default num_zero
              (CashflowSummary.expensesByYear (CashflowObjects.summary p') !! y)
        ∧ default (Num num_zero)
            (CashflowSummary.netByYear (CashflowObjects.summary p) !! y)
          = default (Num num_zero)
              (CashflowSummary.netByYear (CashflowObjects.summary p') !! y)).
Proof.
  intros Hzero Hordinary Hr.
  destruct (unresolved_record_on_dictionaries l1 l2 r categories file Hzero Hr)
    as (q & q' & Hq & Hq' & HC & HY & Hn & Hnames & Hsummary).
  exists (plain q), (plain q'). split_and!.
  - by rewrite ObjectFacts.transformCashflowData_plain, Hq.
  - rewrite ObjectFacts.transformCashflowData_plain, Hq'; [done|].
    by eapply ordinary_skip.
  - done.
  - intros y. apply default_byYear_plain, HY.
  - unfold plain. simpl. by rewrite Hn.
  - unfold plain. simpl.
    intros n (name & -> & Hin)%list_elem_of_fmap.
    destruct (Hnames name Hin) as (r' & cat & ? & ? & ? & <-).
    by exists r', cat.
  - apply Hsummary.
  - apply Hsummary.
  - apply Hsummary.
  - apply Hsummary.
Qed.


End CashflowTheorems.

(** ** Task grouping *)

Module TasksFacts.
Import JS JSSpec JSFacts.

Section JSObject_facts.
Context {V : Type}.
Implicit Types (o : JSObject.t V) (k : string) (v : V).

Lemma get_None o k : JSObject.get o k = None ↔ k ∉ o.*1.
Proof.
  induction o as [|[k' v'] o IH]; simpl.
  - split; [intros _; apply not_elem_of_nil|done].
  - rewrite not_elem_of_cons. case_decide; naive_solver.
Qed.

Lemma get_Some o k v : JSObject.get o k = Some v → (k, v) ∈ o.
Proof.
  induction o as [|[k' v'] o IH]; simpl; [done|].
  case_decide; [intros [= <-]; subst; left|right; auto].
Qed.

Lemma keys_set_present o k v : k ∈ o.*1 → (JSObject.set o k v).*1 = o.*1.
Proof.
  induction o as [|[k' v'] o IH]; simpl.
  - by intros ?%elem_of_nil.
  - intros Hk. case_decide as Hd; simpl; [by subst|].
    f_equal. apply IH. apply elem_of_cons in Hk as [?|?]; [by subst|done].
Qed.

Lemma keys_set_absent o k v : k ∉ o.*1 → (JSObject.set o k v).*1 = o.*1 ++ [k].
Proof.
  induction o as [|[k' v'] o IH]; simpl; [done|].
  intros [Hne Hk]%not_elem_of_cons. rewrite decide_False by done. simpl.
  f_equal. by apply IH.
Qed.

Lemma NoDup_keys_set o k v : NoDup o.*1 → NoDup (JSObject.set o k v).*1.
Proof.
  intros Hnd. destruct (decide (k ∈ o.*1)) as [Hk|Hk].
  - by rewrite keys_set_present.
  - rewrite keys_set_absent by done. apply NoDup_app. split_and!; [done| |].
    + intros k' Hk' ->%list_elem_of_singleton. done.
    + apply NoDup_singleton.
Qed.

Lemma indexed_entries o :
  (omap JSObject.indexed o).*2
  = filter (λ kv, ¬ JSObject.array_index kv.1 = None) o.
Proof.
  induction o as [|[k v] o IH]; [done|].
  destruct (JSObject.array_index k) as [n|] eqn:Hk.
  - rewrite filter_cons_True by (simpl; by rewrite Hk).
    rewrite <-IH. simpl. unfold JSObject.indexed at 1. simpl. by rewrite Hk.
  - rewrite filter_cons_False by (simpl; rewrite Hk; naive_solver).
    rewrite <-IH. simpl. unfold JSObject.indexed at 1. simpl. by rewrite Hk.
Qed.

(** [Object.entries] enumerates every own property once. *)
Lemma entries_Permutation o : JSObject.entries o ≡ₚ o.
Proof.
  unfold JSObject.entries. rewrite sort_Permutation, indexed_entries.
  rewrite Permutation_app_comm. apply filter_app_complement.
Qed.
End JSObject_facts.

Lemma NoDup_fmap_ne {A B} (f : A → B) (l : list A) a b :
  NoDup (f <$> l) → a ∈ l → b ∈ l → a ≠ b → f a ≠ f b.
Proof.
  induction l as [|x l IH]; [by intros _ ?%elem_of_nil|].
  rewrite fmap_cons, NoDup_cons, !elem_of_cons.
  intros [Hx Hnd] [->|Ha] [->|Hb] Hne Heq; try done.
  - apply Hx. rewrite Heq. by apply list_elem_of_fmap_2.
  - apply Hx. rewrite <-Heq. by apply list_elem_of_fmap_2.
  - by apply (IH Hnd Ha Hb Hne).
Qed.

Lemma forallb_Forall {A} (f : A → bool) (l : list A) :
  forallb f l = true ↔ Forall (λ x, f x = true) l.
Proof.
  induction l as [|x l IH]; simpl; [by split; [constructor|]|].
  rewrite andb_true_iff, Forall_cons, IH. done.
Qed.

Lemma forallb_Exists {A} (f : A → bool) (l : list A) :
  forallb f l = false ↔ Exists (λ x, f x = false) l.
Proof.
  induction l as [|x l IH]; simpl.
  - split; [done|by intros ?%Exists_nil].
  - rewrite andb_false_iff, Exists_cons, IH. done.
Qed.

Section grouping.
Import Tasks TasksSpec.
Variable localeCompare : string → string → Z.

Lemma NoDup_keys_push_task o task : NoDup o.*1 → NoDup (push_task o task).*1.
Proof. intros Hnd. by apply NoDup_keys_set. Qed.

Lemma NoDup_keys_grouped tasks : NoDup (foldl push_task [] tasks).*1.
Proof.
  cut (∀ o : JSObject.t (list GroupedTask.t),
         NoDup o.*1 → NoDup (foldl push_task o tasks).*1).
  { intros Hcut. apply Hcut. constructor. }
  induction tasks as [|task tasks IH]; intros o Hnd; simpl; [done|].
  by apply IH, NoDup_keys_push_task.
Qed.

Lemma categoriesArray_names (o : JSObject.t (list GroupedTask.t)) :
  TaskCategory.name <$> (mkCategory <$> JSObject.entries o) ≡ₚ o.*1.
Proof.
  rewrite <-list_fmap_compose.
  rewrite (list_fmap_ext (TaskCategory.name ∘ mkCategory) fst (JSObject.entries o))
    by done.
  by rewrite entries_Permutation.
Qed.

Lemma get_set_eq {V} (o : JSObject.t V) k v :
  JSObject.get (JSObject.set o k v) k = Some v.
Proof.
  induction o as [|[k' v'] o IH]; simpl.
  - by rewrite decide_True.
  - destruct (decide (k' = k)) as [->|Hne]; simpl.
    + by rewrite decide_True.
    + by rewrite decide_False.
Qed.

Lemma elem_of_set {V} (o : JSObject.t V) k v kv :
  kv ∈ JSObject.set o k v → kv = (k, v) ∨ kv ∈ o.
Proof.
  induction o as [|[k' v'] o IH]; simpl.
  - intros ->%list_elem_of_singleton. by left.
  - case_decide; rewrite !elem_of_cons; naive_solver.
Qed.

Lemma set_set {V} (o : JSObject.t V) k v v' :
  JSObject.set (JSObject.set o k v) k v' = JSObject.set o k v'.
Proof.
  induction o as [|[k0 v0] o IH]; simpl.
  - by rewrite decide_True.
  - destruct (decide (k0 = k)) as [->|Hne]; simpl.
    + by rewrite decide_True.
    + by rewrite decide_False, IH.
Qed.

(** A task whose category is no inherited name is pushed. *)
Lemma group_step_pushes o task :
  ¬ inherited_category task → group_step o task = Some (push_task o task).
Proof.
  unfold inherited_category, group_step, push_task, JSObject.lookup.
  intros Hname.
  destruct (JSObject.get o (categoryOf task)) as [bucket|] eqn:Hget; simpl.
  - by rewrite Hget.
  - rewrite decide_False by done. by rewrite get_set_eq, set_set.
Qed.

(** A task whose category is an inherited name, and has no bucket,
    raises the exception. *)
Lemma group_step_throws o task :
  inherited_category task → categoryOf task ∉ o.*1 → group_step o task = None.
Proof.
  unfold inherited_category, group_step, JSObject.lookup.
  intros Hname Hkey%get_None. rewrite Hkey.
  rewrite decide_True by done. simpl. by rewrite Hkey.
Qed.

Lemma keys_push_task o task k :
  k ∈ (push_task o task).*1 → k ∈ o.*1 ∨ k = categoryOf task.
Proof.
  unfold push_task. destruct (decide (categoryOf task ∈ o.*1)) as [Hin|Hin].
  - rewrite keys_set_present by done. by left.
  - rewrite keys_set_absent, elem_of_app, list_elem_of_singleton by done. done.
Qed.

(** The loop over the tasks: it raises the exception at the first task
    whose category is an inherited name, and pushes the tasks
    otherwise. *)
Lemma group_loop o tasks :
  Forall (λ k, k ∉ Prototype.names) o.*1 →
  foldl (λ acc task, acc ≫= λ acc, group_step acc task) (Some o) tasks
  = if decide (Exists inherited_category tasks) then None
    else Some (foldl push_task o tasks).
Proof.
  assert (∀ tasks,
    foldl (λ acc task, acc ≫= λ acc, group_step acc task) None tasks = None)
    as Hnone.
  { intros tasks'. by induction tasks' as [|task tasks' IH]. }
  revert o. induction tasks as [|task tasks IH]; intros o Ho; simpl.
  { first [done|case_decide as Hex; [by apply Exists_nil in Hex|done]]. }
  destruct (decide (inherited_category task)) as [Hname|Hname].
  - rewrite group_step_throws; [|done|].
    + rewrite Hnone.
      destruct (decide (Exists inherited_category (task :: tasks))) as [Hex|Hex];
        [done|].
      exfalso. apply Hex. by left.
    + intros Hin. by apply (proj1 (Forall_forall _ _) Ho) in Hin.
  - rewrite group_step_pushes by done. simpl. rewrite IH.
    + destruct (decide (Exists inherited_category tasks)) as [Hex|Hex];
        destruct (decide (Exists inherited_category (task :: tasks)))
          as [Hex'|Hex']; try done.
      * exfalso. apply Hex'. by right.
      * by apply Exists_cons in Hex' as [?|?].
    + apply Forall_forall. intros k [Hk| ->]%keys_push_task; [|done].
      by apply (proj1 (Forall_forall _ _) Ho).
Qed.

(** [processTasksAndFiles] raises the exception when some task has an
    inherited name as its category, and returns the buckets of the
    tasks otherwise. *)
Lemma processTasksAndFiles_buckets tasks files responses :
  processTasksAndFiles localeCompare tasks files responses
  = if decide (Exists inherited_category tasks) then None
    else Some (buckets localeCompare tasks).
Proof.
  unfold processTasksAndFiles. rewrite group_loop by constructor.
  by destruct (decide (Exists inherited_category tasks)).
Qed.

(** No bucket is empty: a bucket is created when a task is pushed. *)
Lemma buckets_nonempty (tasks : list TaskState.t) :
  Forall (λ bucket, TaskCategory.tasks bucket ≠ []) (buckets localeCompare tasks).
Proof.
  unfold buckets. rewrite sort_Permutation.
  apply Forall_fmap. rewrite entries_Permutation.
  cut (∀ o : JSObject.t (list GroupedTask.t),
         Forall (λ kv, kv.2 ≠ []) o →
         Forall (λ kv, kv.2 ≠ []) (foldl push_task o tasks)).
  { intros Hcut. apply (Hcut []). constructor. }
  induction tasks as [|task tasks IH]; intros o Ho; simpl; [done|].
  apply IH. unfold push_task. rewrite Forall_forall in Ho |- *.
  intros kv [->|Hkv]%elem_of_set; [|by apply Ho].
  simpl. by destruct (default [] (JSObject.get o (categoryOf task))).
Qed.

(** The comparator of the source is a consistent one on buckets of
    distinct names, provided [localeCompare] is. *)
Lemma compareCategories_consistent (l : list TaskCategory.t) :
  locale_consistent localeCompare →
  NoDup (TaskCategory.name <$> l) →
  consistent_on (compareCategories localeCompare) l.
Proof.
  intros [Hanti Htrans] Hnd. unfold compareCategories. split.
  - intros a b Ha Hb Hne Hab.
    pose proof (NoDup_fmap_ne _ _ _ _ Hnd Ha Hb Hne) as Hnames.
    repeat case_decide; try lia; try congruence. by apply Hanti.
  - intros a b c _ _ _. repeat case_decide; try lia. apply Htrans.
Qed.

Lemma sorted_shape (l : list TaskCategory.t) :
  StronglySorted (before (compareCategories localeCompare)) l →
  uncategorized_last localeCompare l.
Proof.
  unfold uncategorized_last.
  induction 1 as [|x l Hl IH Hx].
  { exists [], []. split_and!; [done|by left|constructor|constructor]. }
  destruct IH as (front & last & -> & Hlast & Hfront & Hsorted).
  destruct (decide (front ++ last = [])) as [Hnil|Hnil].
  - apply app_eq_nil in Hnil as [-> ->].
    destruct (decide (TaskCategory.name x = "Uncategorized")) as [Hu|Hu].
    + exists [], [x]. split_and!; [done|right; eauto|constructor|constructor].
    + exists [x], []. split_and!; [done|by left|by repeat constructor|].
      by repeat constructor.
  - assert (TaskCategory.name x ≠ "Uncategorized") as Hu.
    { destruct (front ++ last) as [|y l'] eqn:Hl'; [done|].
      apply Forall_cons in Hx as [Hxy _].
      unfold before, compareCategories in Hxy.
      intros Hu. rewrite decide_True in Hxy by done. lia. }
    exists (x :: front), last. split_and!; [done|done|by constructor|].
    constructor; [done|].
    apply Forall_app in Hx as [Hx _].
    rewrite Forall_forall in Hx, Hfront |- *. intros b Hb.
    specialize (Hx b Hb). specialize (Hfront b Hb). 
    unfold before, compareCategories in Hx.
    by rewrite !decide_False in Hx by done.
Qed.

Lemma buckets_shape (tasks : list TaskState.t) :
  locale_consistent localeCompare →
  uncategorized_last localeCompare (buckets localeCompare tasks).
Proof.
  intros Hlc. apply sorted_shape. unfold buckets.
  assert (NoDup (TaskCategory.name <$>
                   (mkCategory <$> JSObject.entries (foldl push_task [] tasks))))
    as Hnd.
  { rewrite categoriesArray_names. apply NoDup_keys_grouped. }
  apply sort_sorted.
  - by apply NoDup_fmap_1 in Hnd.
  - by apply compareCategories_consistent.
Qed.

(** C8. For every list of tasks, the buckets [processTasksAndFiles]
    returns are an initial part sorted by [localeCompare] on the names,
    none of them named "Uncategorized", followed by the bucket named
    "Uncategorized" if there is one, provided [localeCompare] is a
    consistent comparison. It returns buckets unless the category of
    some task is the name of a property of [Object.prototype], and
    raises the exception then. *)
Theorem buckets_sorted_uncategorized_last (tasks : list TaskState.t)
    (files : list TaskFile.t) (responses : list SurveyResponse.t) :
  locale_consistent localeCompare →
  match processTasksAndFiles localeCompare tasks files responses with
  | Some buckets =>
      ¬ Exists inherited_category tasks
      ∧ uncategorized_last localeCompare buckets
  | None => Exists inherited_category tasks
  end.
Proof.
  intros Hlc. rewrite processTasksAndFiles_buckets.
  case_decide; [done|]. split; [done|]. by apply buckets_shape.
Qed.

(** C9. In every bucket [processTasksAndFiles] returns, [isComplete]
    is true exactly when every task of the bucket is complete and false
    exactly when some task is not; a bucket built from no task at all is
    complete. It returns buckets unless the category of some task is the
    name of a property of [Object.prototype], and raises the exception
    then. *)
Theorem bucket_complete_iff_all_tasks (tasks : list TaskState.t)
    (files : list TaskFile.t) (responses : list SurveyResponse.t) :
  match processTasksAndFiles localeCompare tasks files responses with
  | Some buckets =>
      ¬ Exists inherited_category tasks
      ∧ Forall (λ bucket,
            (TaskCategory.isComplete bucket = true
             ↔ Forall (λ t, GroupedTask.isComplete t = true)
                      (TaskCategory.tasks bucket))
            ∧ (TaskCategory.isComplete bucket = false
               ↔ Exists (λ t, GroupedTask.isComplete t = false)
                        (TaskCategory.tasks bucket)))
          buckets
  | None => Exists inherited_category tasks
  end
  ∧ ∀ name, TaskCategory.isComplete (mkCategory (name, [])) = true.
Proof.
  split; [|done]. rewrite processTasksAndFiles_buckets.
  case_decide; [done|]. split; [done|].
  unfold buckets. rewrite sort_Permutation.
  apply Forall_fmap, Forall_forall. intros [name bucket] _. simpl. split.
  - apply forallb_Forall.
  - apply forallb_Exists.
Qed.
End grouping.
End TasksFacts.

(** ** The years of the pivot *)

Module YearsTheorems.
Import Cashflow CashflowSpec CashflowFacts Examples.

(** What holds of [years] for every input: the distinct years of the
    records, each once, in the order of their decimal representations. *)
Lemma years_distinct_complete_string_sorted {num} {JN : JsNumber num}
    (records : list (CashflowRecord.t num)) :
  NoDup (mkYears records)
  ∧ (∀ y, y ∈ mkYears records ↔ ∃ r, r ∈ records ∧ CashflowRecord.year r = y)
  ∧ StronglySorted
      (λ a b, String.le (JS.Number_toString a) (JS.Number_toString b))
      (mkYears records).
Proof.
  split_and!.
  - apply mkYears_NoDup.
  - intros y. rewrite mkYears_elem_of, list_elem_of_fmap. naive_solver.
  - unfold mkYears. eapply JSFacts.StronglySorted_weaken.
    2:{ apply (JSFacts.sort_default_sorted JS.Number_toString),
          JSFacts.NoDup_new_Set. }
    intros a b Hle. cbv beta in Hle.
    by rewrite !JSFacts.code_unit_key_Number_toString in Hle.
Qed.

Lemma StronglySorted_distinct {A} (R R' : relation A) (l : list A) :
  (∀ a b, a ∈ l → b ∈ l → a ≠ b → R a b → R' a b) →
  NoDup l → StronglySorted R l → StronglySorted R' l.
Proof.
  intros HR Hnd Hs. induction Hs as [|x l Hs IH Hx]; [constructor|].
  apply NoDup_cons in Hnd as [Hxl Hnd]. constructor.
  - apply IH; [|done]. intros a b Ha Hb. apply HR; by right.
  - rewrite Forall_forall in Hx |- *. intros b Hb.
    apply HR; [left|by right| |by apply Hx]. by intros ->.
Qed.

(** When the years of the records all have the same number of digits
    (four-digit years, say), [years] is strictly ascending. *)
Lemma years_ascending_same_digits (n : nat) {num} {JN : JsNumber num}
    (records : list (CashflowRecord.t num)) :
  (∀ r, r ∈ records →
     10 ^ Z.of_nat n ≤ CashflowRecord.year r < 10 ^ Z.of_nat (S n)) →
  StronglySorted Z.lt (mkYears records).
Proof.
  intros Hdigits.
  destruct (years_distinct_complete_string_sorted records)
    as (Hnd & Hin & Hsorted).
  refine (StronglySorted_distinct _ _ _ _ Hnd Hsorted).
  intros a b (ra & Hra & <-)%Hin (rb & Hrb & <-)%Hin Hne Hle.
  unfold String.le, String.leb, JS.Number_toString in Hle.
  rewrite (DecimalFacts.pretty_Z_compare n) in Hle by auto.
  destruct (Z.compare_spec (CashflowRecord.year ra) (CashflowRecord.year rb));
    [done|done|by simpl in Hle].
Qed.

(** C1, at the records of years 9 and 10: [years] is [[10; 9]], which is
    not in ascending numeric order. *)
Theorem years_sorted_as_strings :
  ∃ p, transformCashflowData plan_years [sales] None = Some p
       ∧ PivotedCashflow.years p = [10; 9]
       ∧ ¬ StronglySorted Z.lt (PivotedCashflow.years p).
Proof.
  destruct (transformCashflowData_post plan_years [sales] None) as (p & Hp & Hpost).
  exists p. split; [done|].
  assert (PivotedCashflow.years p = [10; 9]) as ->.
  { rewrite (tp_years _ _ _ _ Hpost). by vm_compute. }
  split; [done|]. intros Hs. apply StronglySorted_inv in Hs as [_ Hs].
  apply Forall_cons in Hs as [Hlt _]. lia.
Qed.

End YearsTheorems.

(** ** Completion of a task *)

Module CompletionTheorems.
Import Tasks CompletionSpec Examples.

Lemma existsb_processed (files : list TaskFile.t) (t : Task.t) :
  existsb (λ file,
      bool_decide (TaskFile.task_id file = Task.task_id t)
      && bool_decide (TaskFile.status file = "processed")) files = true
  ↔ has_processed_file files t.
Proof.
  unfold has_processed_file. rewrite existsb_exists.
  setoid_rewrite andb_true_iff. setoid_rewrite bool_decide_eq_true.
  setoid_rewrite list_elem_of_In. done.
Qed.

Lemma find_first (responses : list SurveyResponse.t) (t : Task.t) :
  from_option JS.string_truthy false
    (List.find (λ r, bool_decide (SurveyResponse.task_id r = Task.task_id t))
               responses ≫= SurveyResponse.value) = true
  ↔ first_answer responses t.
Proof.
  unfold first_answer, non_empty.
  induction responses as [|r responses IH]; simpl.
  - split; [done|]. intros (before & r & after & Heq & _).
    by destruct before.
  - case_bool_decide as Hr.
    + simpl. split.
      * intros Hv. exists [], r, responses.
        split; [done|]. split; [constructor|]. split; [done|].
        destruct (SurveyResponse.value r) as [v|]; [|done].
        exists v. split; [done|]. intros ->. done.
      * intros (before & r' & after & Heq & Hbefore & _ & v & Hv & Hne).
        destruct before as [|r0 before].
        -- simplify_eq/=. rewrite Hv. simpl. unfold JS.string_truthy.
           by rewrite decide_False.
        -- simplify_eq/=. by apply Forall_cons in Hbefore as [? _].
    + rewrite IH. split.
      * intros (before & r' & after & -> & Hbefore & Hid & Hv).
        exists (r :: before), r', after.
        split; [done|]. split; [by constructor|]. by split.
      * intros (before & r' & after & Heq & Hbefore & Hid & Hv).
        destruct before as [|r0 before]; [by simplify_eq/=|].
        simplify_eq/=. apply Forall_cons in Hbefore as [_ Hbefore].
        by exists before, r', after.
Qed.

(** C2, as amended. For every list of tasks, files and responses, the
    derived [isComplete] of a task is true exactly when some uploaded
    file of the task has status "processed", or the first response of
    the task in the response list has a non-empty value. *)
Theorem complete_iff_file_or_first_answer (tasks : list Task.t)
    (files : list TaskFile.t) (responses : list SurveyResponse.t) :
  Forall2 (λ t ts,
      TaskState.task ts = t
      ∧ (TaskState.isComplete ts = Some true
         ↔ has_processed_file files t ∨ first_answer responses t))
    tasks (tasksWithState tasks (Some files) (Some responses)).
Proof.
  unfold tasksWithState. apply Forall2_fmap_r, Forall_Forall2_diag, Forall_forall.
  intros t _. split; [done|]. unfold mergeTask. simpl.
  rewrite <-existsb_processed, <-find_first.
  split.
  - intros [= Hc]. by apply orb_true_iff in Hc.
  - intros Hc. f_equal. by apply orb_true_iff.
Qed.

(** C2, as stated, fails when the first response of a task is empty and
    a later one is not. *)
Lemma later_answer_is_ignored : ¬ complete_iff_file_or_any_answer.
Proof.
  intros Hclaim.
  specialize (Hclaim [task "t1" None] [] two_responses).
  apply Forall_cons in Hclaim as [[_ Hclaim] _].
  assert (TaskState.isComplete (mergeTask (Some []) (Some two_responses)
                                          (task "t1" None)) = Some true)
    as Hc; [|by vm_compute in Hc].
  apply Hclaim. right. exists (SurveyResponse.mk "t1" (Some "yes")).
  split; [right; left|]. split; [done|]. exists "yes". by split.
Qed.

End CompletionTheorems.

(** ** The analysis hook *)

Module HookTheorems.
Import Hook.

(** With a file id, the first thing [fetchData] does is to ask the store
    for the file. *)
Lemma fetchData_asks_for_file {num} {JN : JsNumber num}
    (supabase : Supabase (num := num)) (fileId : string) (w : World) :
  fileId ≠ "" →
  ∃ queries, sent (fetchData supabase fileId w).2
             = sent w ++ SelectUploadedFile fileId :: queries
             ∧ isLoading (state (fetchData supabase fileId w).2) = false.
Proof.
  intros Hid. unfold fetchData, JS.string_truthy. rewrite decide_False by done.
  unfold try_catch_finally, fetchBody, bind, setIsLoading, setError, setData,
    update, send, throw. simpl.
  destruct (QueryResult.error (uploaded_files supabase fileId)); simpl.
  { by exists []. }
  destruct (QueryResult.data (uploaded_files supabase fileId)) as [[|file ?]|];
    simpl; [by exists []| |by exists []].
  destruct (QueryResult.error (cashflow_records supabase fileId)); simpl.
  { exists [SelectCashflowRecords fileId]. by rewrite <-app_assoc. }
  exists [SelectCashflowRecords fileId; SelectCashflowCategories].
  destruct (QueryResult.error (cashflow_categories supabase)); simpl.
  { by rewrite <-!app_assoc. }
  destruct (QueryResult.data (cashflow_records supabase fileId)) as [records|],
           (QueryResult.data (cashflow_categories supabase)) as [categories|];
    simpl; try by rewrite <-!app_assoc.
  destruct (CashflowObjects.transformCashflowData _ records categories
              (Some file)) as [[p|] realm'];
    simpl; by rewrite <-!app_assoc.
Qed.

(** C10. Called with an empty file id, [fetchData] sets the error to
    [Error "File ID is required"] and [isLoading] to false, sends no
    query and leaves [data] as it was. *)
Theorem fetchData_requires_fileId {num} {JN : JsNumber num}
    (supabase : Supabase (num := num)) (w : World) :
  fetchData supabase "" w
  = (inr tt,
     {| state := {| data := data (state w);
                    isLoading := false;
                    error := Some (Error "File ID is required") |};
        sent := sent w |}).
Proof.
  unfold fetchData, JS.string_truthy. rewrite decide_True by done.
  unfold bind, setError, setIsLoading, update, ret. simpl. done.
Qed.

End HookTheorems.

(** ** The model on sample inputs *)

Module Samples.
Import Cashflow CashflowSpec ExactSpec Tasks TasksSpec Examples.
Import JSSpec JSFacts TasksFacts CashflowTheorems.

(** The first example of the specification. *)
Example pivot_of_year_2022 :
  ∃ p, transformCashflowData year_2022 [sales; rent] None = Some p
       ∧ cellC (PivotedCashflow.byCategory p) "Sales" 2022 = Some 150
       ∧ cellC (PivotedCashflow.byCategory p) "Rent" 2022 = Some (-30)
       ∧ cellY (PivotedCashflow.byYear p) 2022 "Sales" = Some 150
       ∧ PivotedCashflow.years p = [2022]
       ∧ PivotedCashflow.categoryNames p = ["Rent"; "Sales"]
       ∧ CashflowSummary.incomeByYear (PivotedCashflow.summary p) !! 2022 = Some 150
       ∧ CashflowSummary.expensesByYear (PivotedCashflow.summary p) !! 2022
         = Some (-30)
       ∧ CashflowSummary.netByYear (PivotedCashflow.summary p) !! 2022
         = Some (Num 180)
       ∧ CashflowSummary.totalIncome (PivotedCashflow.summary p) = 150
       ∧ CashflowSummary.totalExpenses (PivotedCashflow.summary p) = -30
       ∧ CashflowSummary.totalNet (PivotedCashflow.summary p) = 180.
Proof. eexists. split; [by vm_compute|]. by vm_compute. Qed.

(** A debt record and a record of no category change nothing in the
    summary, but for the zero entries of the year of the latter. *)
Example summary_ignores_debt_and_strays :
  calculateSummary (repayment :: year_2022)
                   (mkCategoryMap [sales; rent; loan]) [2022]
  = calculateSummary year_2022 (mkCategoryMap [sales; rent; loan]) [2022]
  ∧ ∃ p, transformCashflowData (stray :: year_2022) [sales; rent; loan] None
         = Some p
         ∧ PivotedCashflow.years p = [2022; 2023]
         ∧ PivotedCashflow.byYear p !! 2023 = Some ∅
         ∧ CashflowSummary.netByYear (PivotedCashflow.summary p) !! 2023
           = Some (Num 0).
Proof. split; [by vm_compute|]. eexists. split; [by vm_compute|]. by vm_compute. Qed.

(** The second example of the specification. *)
Example grouping_of_one_task :
  processTasksAndFiles compare_code_units
    (tasksWithState [task "t1" None] (Some []) (Some [])) [] []
  = Some [ {| TaskCategory.name := "Uncategorized";
              TaskCategory.tasks :=
                [ {| GroupedTask.task := task "t1" None;
                     GroupedTask.response := None;
                     GroupedTask.isComplete := false |} ];
              TaskCategory.isComplete := false |} ].
Proof. by vm_compute. Qed.

Example grouping_of_three_tasks :
  (λ buckets : list TaskCategory.t, TaskCategory.name <$> buckets)
    <$> processTasksAndFiles compare_code_units three_tasks [] []
  = Some ["Financial Documents"; "Legal Documents"; "Uncategorized"].
Proof. by vm_compute. Qed.

(** A category that is the name of an inherited property: the value
    found under it has no [push]. *)
Example grouping_of_inherited_category :
  processTasksAndFiles compare_code_units
    (tasksWithState [task "t1" (Some "Legal Documents");
                     task "t2" (Some "constructor")] (Some []) (Some [])) [] []
  = None.
Proof. by vm_compute. Qed.

(** Keys that are array indices come first in [Object.entries]. *)
Example entries_order :
  (JSObject.entries [("b", 1); ("10", 2); ("a", 3); ("9", 4); ("07", 5)]).*1
  = ["9"; "10"; "b"; "a"; "07"].
Proof. by vm_compute. Qed.

Lemma compare_code_units_consistent : locale_consistent compare_code_units.
Proof.
  destruct (default_compare_consistent (A := string) id [])
    as [_ Htrans].
  split.
  - intros a b Hab.
    change (JS.default_compare id b a ≤ 0). apply default_compare_le.
    destruct (total String.le (JS.code_unit_key (id a))
                (JS.code_unit_key (id b))) as [Hle|Hle]; [|done].
    apply (default_compare_le id) in Hle.
    unfold compare_code_units, JS.default_compare in *. simpl in *. lia.
  - intros a b c. 
    change (JS.default_compare id a b ≤ 0 → JS.default_compare id b c ≤ 0
            → JS.default_compare id a c ≤ 0).
    rewrite !default_compare_le. apply transitivity.
Qed.

End Samples.

(** ** Ids and names that objects inherit *)

Module InheritedTheorems.
Import CashflowObjects Examples.

(** C3, at a category named "toString" and a record of 7 filed under
    it in 2022. [byCategory["toString"]] is the function every object
    inherits: [byCategory] gets no row, and the amount is stored in the
    function, where the realm keeps it. [byYear[2022]["toString"]] is
    the same function: adding the amount gives a string, the text of
    the function followed by 7. The two views do not hold the same
    cells. *)
Theorem inherited_name_splits_views :
  ∃ p, transformCashflowData pristine [record "c1" 2022 7] [named_toString]
         None
       = (Some p, {["toString" := {[2022 := 7]}]})
       ∧ byCategory p = ∅
       ∧ byYear p = {[2022 := {["toString" := Text "toString" [7]]}]}
       ∧ years p = [2022]
       ∧ categoryNames p = [Some "toString"].
Proof. eexists. split_and!; by vm_compute. Qed.

(** C6, at a record whose [category_id] is "constructor", the id of no
    category. [categoryMap["constructor"]] is the function [Object],
    and the record is filed under its name: with the record,
    [byCategory] and [byYear] have cells for "Object", and
    [categoryNames] holds "Object". *)
Theorem inherited_id_is_filed :
  Forall (λ category,
            Category.id category ≠ CashflowRecord.category_id of_constructor)
         [sales; rent]
  ∧ ∃ p p',
      transformCashflowData pristine (year_2022 ++ of_constructor :: [])
        [sales; rent] None
      = (Some p, pristine)
      ∧ transformCashflowData pristine (year_2022 ++ []) [sales; rent] None
        = (Some p', pristine)
      ∧ byCategory p
        = {["Object" := {[2022 := 7]};
            "Rent" := {[2022 := -30]};
            "Sales" := {[2022 := 150]}]}
      ∧ byCategory p'
        = {["Rent" := {[2022 := -30]}; "Sales" := {[2022 := 150]}]}
      ∧ byYear p
        = {[2022 := {["Object" := Amount 7;
                      "Rent" := Amount (-30);
                      "Sales" := Amount 150]}]}
      ∧ byYear p'
        = {[2022 := {["Rent" := Amount (-30); "Sales" := Amount 150]}]}
      ∧ categoryNames p = [Some "Object"; Some "Rent"; Some "Sales"]
      ∧ categoryNames p' = [Some "Rent"; Some "Sales"]
      ∧ summary p = summary p'.
Proof.
  split; [repeat constructor; by vm_compute|].
  do 2 eexists. split_and!; by vm_compute.
Qed.

(** Under a category named "toString" the cell of [byYear] depends on
    the order of the records, also for exact amounts. *)
Example inherited_name_keeps_order :
  ∃ p p',
    transformCashflowData pristine [record "c1" 2022 5; record "c1" 2022 7]
      [named_toString] None
    = (Some p, {["toString" := {[2022 := 12]}]})
    ∧ transformCashflowData pristine [record "c1" 2022 7; record "c1" 2022 5]
        [named_toString] None
      = (Some p', {["toString" := {[2022 := 12]}]})
    ∧ byYear p = {[2022 := {["toString" := Text "toString" [5; 7]]}]}
    ∧ byYear p' = {[2022 := {["toString" := Text "toString" [7; 5]]}]}.
Proof. do 2 eexists. split_and!; by vm_compute. Qed.

(** A category named "__proto__" adds the amounts of its records to
    [Object.prototype], under their years. A category named as such a
    year then finds a number where its row should be, and the
    assignment of the cell raises a [TypeError]. *)
Example inherited_number_raises :
  transformCashflowData pristine [record "c1" 2022 7; record "c2" 2022 5]
    [named_proto; named_2022] None
  = (None, {["__proto__" := {[2022 := 7]}]}).
Proof. by vm_compute. Qed.

(** In a realm in which a category named "toString" has been processed,
    the same input gives another realm: the function holds the sum of
    both calls. *)
Example inherited_name_twice :
  (transformCashflowData {["toString" := {[2022 := 7]}]}
     [record "c1" 2022 7] [named_toString] None).2
  = {["toString" := {[2022 := 14]}]}.
Proof. by vm_compute. Qed.

End InheritedTheorems.

(** ** Binary64 amounts and the order of the records *)

Module Binary64.
Import Cashflow CashflowSpec Examples.


(** In binary64 too, 0 - 0 is 0: what the skipping of a record without
    category asks of the amounts. *)
Lemma binary64_zero_minus_zero :
  num_sub (num_zero : PrimFloat.float) num_zero = num_zero.
Proof. reflexivity. Qed.



End Binary64.

(** ** The theorems at sample inputs *)

Module Witnesses.
Import Cashflow CashflowSpec ExactSpec Tasks TasksSpec Examples.

Lemma year_2022_ordinary :
  ObjectSpec.ordinary (year_2022 ++ stray :: []) [sales; rent].
Proof. by apply (bool_decide_unpack _). Qed.

(** X30 at the records of 2022 and a record of the unknown category
    c9. *)
Lemma unresolved_record_is_skipped_witness :
  (0 - 0 = 0
   ∧ ObjectSpec.ordinary (year_2022 ++ stray :: []) [sales; rent]
   ∧ ∀ cat, cat ∈ [sales; rent] →
       Category.id cat ≠ CashflowRecord.category_id stray)
  ∧ ∃ p p',
    CashflowObjects.transformCashflowData CashflowObjects.pristine
      (year_2022 ++ stray :: []) [sales; rent] None
    = (Some p, CashflowObjects.pristine)
    ∧ CashflowObjects.transformCashflowData CashflowObjects.pristine
        (year_2022 ++ []) [sales; rent] None
      = (Some p', CashflowObjects.pristine)
    ∧ CashflowObjects.byCategory p = CashflowObjects.byCategory p'
    ∧ (∀ y, default ∅ (CashflowObjects.byYear p !! y)
            = default ∅ (CashflowObjects.byYear p' !! y))
    ∧ CashflowObjects.categoryNames p = CashflowObjects.categoryNames p'
    ∧ (∀ n, n ∈ CashflowObjects.categoryNames p →
         ∃ r' cat, r' ∈ year_2022 ++ [] ∧ cat ∈ [sales; rent]
                   ∧ Category.id cat = CashflowRecord.category_id r'
                   ∧ n = Some (Category.name cat))
    ∧ CashflowSummary.totalIncome (CashflowObjects.summary p)
      = CashflowSummary.totalIncome (CashflowObjects.summary p')
    ∧ CashflowSummary.totalExpenses (CashflowObjects.summary p)
      = CashflowSummary.totalExpenses (CashflowObjects.summary p')
    ∧ CashflowSummary.totalNet (CashflowObjects.summary p)
      = CashflowSummary.totalNet (CashflowObjects.summary p')
    ∧ (∀ y,
        default 0 (CashflowSummary.incomeByYear (CashflowObjects.summary p) !! y)
        = default 0 (CashflowSummary.incomeByYear (CashflowObjects.summary p') !! y)
        ∧ default 0 (CashflowSummary.expensesByYear (CashflowObjects.summary p) !! y)
          = default 0 (CashflowSummary.expensesByYear (CashflowObjects.summary p') !! y)
        ∧ default (Num 0) (CashflowSummary.netByYear (CashflowObjects.summary p) !! y)
          = default (Num 0)
              (CashflowSummary.netByYear (CashflowObjects.summary p') !! y)).
Proof.
  assert (∀ cat, cat ∈ [sales; rent] →
            Category.id cat ≠ CashflowRecord.category_id stray) as Hstray.
  { apply Forall_forall. repeat constructor; by vm_compute. }
  split; [split_and!; [reflexivity|exact year_2022_ordinary|exact Hstray]|].
  exact (CashflowTheorems.unresolved_record_is_skipped
           year_2022 [] stray [sales; rent] None eq_refl year_2022_ordinary
           Hstray).
Defined.

Lemma year_2022_only_ordinary : ObjectSpec.ordinary year_2022 [sales; rent].
Proof. by apply (bool_decide_unpack _). Qed.


(** C8 at three tasks, with the comparison of strings by code units. *)
Lemma buckets_sorted_uncategorized_last_witness :
  locale_consistent compare_code_units
  ∧ match processTasksAndFiles compare_code_units three_tasks [] [] with
    | Some buckets =>
        ¬ Exists inherited_category three_tasks
        ∧ uncategorized_last compare_code_units buckets
    | None => Exists inherited_category three_tasks
    end.
Proof.
  split; [exact Samples.compare_code_units_consistent|].
  exact (TasksFacts.buckets_sorted_uncategorized_last compare_code_units
           three_tasks [] [] Samples.compare_code_units_consistent).
Defined.

End Witnesses.

(** * Further properties *)

(** ** The pivot, cell by cell *)

Module PivotTheorems.
Import Cashflow CashflowSpec CashflowFacts ExactSpec ExactFacts SumSpec.
Import ObjectSpec.

Section any_amounts.
Context {num : Type} {JN : JsNumber num}.
Implicit Types (records : list (CashflowRecord.t num)) (c : string) (y : Z).

Lemma foldl_acc_cell_is_Some (o : option num) (l : list num) :
  is_Some o → is_Some (foldl acc_cell o l).
Proof.
  revert o. induction l as [|a l IH]; intros o Ho; [done|].
  simpl. apply IH. unfold acc_cell. eauto.
Qed.

Lemma foldl_acc_cell_None (l : list num) :
  foldl acc_cell None l = None ↔ l = [].
Proof.
  split; [|by intros ->]. destruct l as [|a l]; [done|]. simpl. intros Hn.
  destruct (foldl_acc_cell_is_Some (acc_cell None a) l) as [v Hv].
  { unfold acc_cell. eauto. }
  congruence.
Qed.

Lemma cell_amounts_nonempty cm c y records :
  cell_amounts cm c y records ≠ []
  ↔ ∃ r, r ∈ records ∧ filed_as cm r = Some c ∧ CashflowRecord.year r = y.
Proof.
  unfold cell_amounts. split.
  - intros Hne. destruct (filter (in_cell cm c y) records) as [|r l] eqn:Hf; [done|].
    assert (r ∈ filter (in_cell cm c y) records) as Hr by (rewrite Hf; left).
    apply list_elem_of_filter in Hr as [[? ?] ?]. eauto.
  - intros (r & Hr & Hc & Hy) Hnil%fmap_nil_inv.
    assert (r ∈ filter (in_cell cm c y) records) as Hin.
    { apply list_elem_of_filter. by split. }
    rewrite Hnil in Hin. by apply elem_of_nil in Hin.
Qed.

Lemma elem_of_sorted_names (names : list string) n :
  n ∈ JS.sort_default id (JS.new_Set names) ↔ n ∈ names.
Proof.
  unfold JS.sort_default.
  by rewrite JSFacts.sort_Permutation, JSFacts.elem_of_new_Set.
Qed.

Lemma elem_of_filed_as cm records n :
  n ∈ omap (filed_as cm) records
  ↔ ∃ r cat, r ∈ records
             ∧ cm !! CashflowRecord.category_id r = Some cat
             ∧ Category.name cat = n.
Proof.
  rewrite list_elem_of_omap. unfold filed_as, resolve. split.
  - intros (r & Hr & Hf).
    destruct (cm !! CashflowRecord.category_id r) as [cat|] eqn:Hcat; [|done].
    exists r, cat. simpl in Hf. by simplify_eq.
  - intros (r & cat & Hr & Hcat & <-). exists r. by rewrite Hcat.
Qed.

(** The dictionary of the categories, read off the object. *)
Lemma dictionary_categories (categories : list Category.t) :
  dictionary (CashflowObjects.mkCategoryMap categories)
  = mkCategoryMap categories.
Proof. apply ObjectFacts.dictionary_mkCategoryMap. Qed.

(** X1. On ordinary input, [byYear[y][c]] and [byCategory[c][y]] are
    one and the same cell, an amount, present in both views or in
    neither, for amounts of any kind. *)
Theorem byYear_cell_is_byCategory_cell records
    (categories : list Category.t) (file : option UploadedFile.t) :
  ordinary records categories →
  ∃ p, CashflowObjects.transformCashflowData CashflowObjects.pristine
         records categories file
       = (Some p, CashflowObjects.pristine)
       ∧ ∀ c y, CashflowObjects.byYear p !! y ≫= (.!! c)
                = CashflowObjects.Amount
                    <$> (CashflowObjects.byCategory p !! c ≫= (.!! y)).
Proof.
  intros Hordinary.
  destruct (ObjectFacts.transformCashflowData_plain_post records categories
              file Hordinary) as (p & Hp & Hpost).
  exists (plain p). split; [done|]. intros c y.
  pose proof (tp_cellY _ _ _ _ Hpost c y) as HY.
  pose proof (tp_cellC _ _ _ _ Hpost c y) as HC.
  unfold cellY, cellC in *. unfold plain. simpl.
  rewrite HC, <-HY, lookup_fmap.
  destruct (PivotedCashflow.byYear p !! y) as [col|]; simpl; [|done].
  by rewrite lookup_fmap.
Qed.

(** X2. On ordinary input the pivot returned is the object of a pivot
    of dictionaries in which the rows of [byCategory] are those of the
    names of [categoryNames], each with at least one cell and cells for
    years of [years] only; the rows of [byYear] are those of the years
    of [years], with cells for names of [categoryNames] only. *)
Theorem pivot_keys records (categories : list Category.t)
    (file : option UploadedFile.t) :
  ordinary records categories →
  ∃ p, CashflowObjects.transformCashflowData CashflowObjects.pristine
         records categories file
       = (Some (plain p), CashflowObjects.pristine)
       ∧ dom (PivotedCashflow.byCategory p)
         = list_to_set (PivotedCashflow.categoryNames p)
       ∧ dom (PivotedCashflow.byYear p) = list_to_set (PivotedCashflow.years p)
       ∧ (∀ c row, PivotedCashflow.byCategory p !! c = Some row →
            row ≠ ∅ ∧ dom row ⊆ list_to_set (PivotedCashflow.years p))
       ∧ (∀ y col, PivotedCashflow.byYear p !! y = Some col →
            dom col ⊆ list_to_set (PivotedCashflow.categoryNames p)).
Proof.
  intros Hordinary.
  destruct (ObjectFacts.transformCashflowData_plain_post records categories
              file Hordinary) as (p & Hp & Hpost).
  set (cm := mkCategoryMap categories) in *.
  exists p. split; [done|].
  assert (∀ c y, is_Some (cellC (PivotedCashflow.byCategory p) c y) →
            c ∈ PivotedCashflow.categoryNames p ∧ y ∈ PivotedCashflow.years p)
    as Hcell.
  { intros c y [v Hv]. rewrite (tp_cellC _ _ _ _ Hpost) in Hv. fold cm in Hv.
    assert (cell_amounts cm c y records ≠ []) as Hne.
    { intros Hnil. by rewrite Hnil in Hv. }
    apply cell_amounts_nonempty in Hne as (r & Hr & Hc & Hy).
    rewrite (tp_names _ _ _ _ Hpost), (tp_years _ _ _ _ Hpost). fold cm.
    rewrite elem_of_sorted_names, mkYears_elem_of. split.
    - apply list_elem_of_omap. eauto.
    - rewrite <-Hy. by apply list_elem_of_fmap_2. }
  split_and!.
  - rewrite (tp_domC _ _ _ _ Hpost), (tp_names _ _ _ _ Hpost). fold cm.
    apply set_eq. intros n.
    by rewrite !elem_of_list_to_set, elem_of_sorted_names.
  - rewrite (tp_domY _ _ _ _ Hpost), (tp_years _ _ _ _ Hpost).
    apply set_eq. intros y. by rewrite !elem_of_list_to_set, mkYears_elem_of.
  - intros c row Hrow. split.
    + assert (c ∈ dom (PivotedCashflow.byCategory p)) as Hc
        by by apply elem_of_dom_2 in Hrow.
      rewrite (tp_domC _ _ _ _ Hpost), elem_of_list_to_set in Hc. fold cm in Hc.
      apply list_elem_of_omap in Hc as (r & Hr & Hf).
      assert (is_Some (row !! CashflowRecord.year r)) as [v Hv].
      { pose proof (tp_cellC _ _ _ _ Hpost c (CashflowRecord.year r)) as HC.
        unfold cellC in HC. rewrite Hrow in HC. simpl in HC. rewrite HC.
        fold cm.
        destruct (cell_amounts cm c (CashflowRecord.year r) records)
          as [|a l] eqn:Hl.
        - exfalso. revert Hl. apply cell_amounts_nonempty. eauto.
        - simpl. apply foldl_acc_cell_is_Some. unfold acc_cell. eauto. }
      intros ->. by rewrite lookup_empty in Hv.
    + intros y Hy. apply elem_of_dom in Hy. rewrite elem_of_list_to_set.
      apply (Hcell c y). unfold cellC. by rewrite Hrow.
  - intros y col Hcol c Hc. apply elem_of_dom in Hc. rewrite elem_of_list_to_set.
    apply (Hcell c y).
    pose proof (tp_cellY _ _ _ _ Hpost c y) as HY.
    pose proof (tp_cellC _ _ _ _ Hpost c y) as HC.
    rewrite HC, <-HY. unfold cellY. by rewrite Hcol.
Qed.

(** X3. On ordinary input [categoryNames] holds strings only, each
    name once, in strictly ascending order of their code units, and
    holds exactly the names of the categories that records resolve
    to. *)
Theorem categoryNames_sorted_distinct_complete records
    (categories : list Category.t) (file : option UploadedFile.t) :
  ordinary records categories →
  ∃ p, CashflowObjects.transformCashflowData CashflowObjects.pristine
         records categories file
       = (Some (plain p), CashflowObjects.pristine)
       ∧ NoDup (PivotedCashflow.categoryNames p)
       ∧ StronglySorted (λ a b, JS.compare_code_units a b = Lt)
                        (PivotedCashflow.categoryNames p)
       ∧ ∀ n, n ∈ PivotedCashflow.categoryNames p
              ↔ ∃ r cat, r ∈ records
                         ∧ CashflowObjects.lookup_category
                             (CashflowObjects.pristine
                                : CashflowObjects.Realm num)
                             (CashflowObjects.mkCategoryMap categories)
                             (CashflowRecord.category_id r)
                           = CashflowObjects.IsCategory cat
                         ∧ Category.name cat = n.
Proof.
  intros Hordinary.
  destruct (ObjectFacts.transformCashflowData_plain_post records categories
              file Hordinary) as (p & Hp & Hpost).
  exists p. split; [done|]. rewrite (tp_names _ _ _ _ Hpost).
  set (names := omap (filed_as (mkCategoryMap categories)) records).
  assert (NoDup (JS.sort_default id (JS.new_Set names))) as Hnd.
  { unfold JS.sort_default. rewrite JSFacts.sort_Permutation.
    apply JSFacts.NoDup_new_Set. }
  split_and!; [done| |].
  - refine (YearsTheorems.StronglySorted_distinct _ _ _ _ Hnd
              (JSFacts.sort_default_sorted id _ (JSFacts.NoDup_new_Set _))).
    intros a b _ _ Hne Hle. unfold String.le, String.leb in Hle. simpl in Hle.
    unfold JS.compare_code_units.
    destruct (JS.code_unit_key a ?= JS.code_unit_key b)%string eqn:Hc;
      [|done|done].
    apply String.compare_eq_iff in Hc. by apply (inj JS.code_unit_key) in Hc.
  - intros n. unfold names. rewrite elem_of_sorted_names, elem_of_filed_as.
    destruct Hordinary as [Hcategories Hrecords].
    rewrite ObjectFacts.mkCategoryMap_plain.
    2:{ eapply Forall_impl; [exact Hcategories|]. by intros category [? _]. }
    split.
    + intros (r & cat & Hr & Hcat & Hname). exists r, cat.
      rewrite ObjectFacts.lookup_category_plain, Hcat; [done|].
      by apply (proj1 (Forall_forall _ _) Hrecords r Hr).
    + intros (r & cat & Hr & Hcat & Hname). exists r, cat.
      rewrite ObjectFacts.lookup_category_plain in Hcat
        by by apply (proj1 (Forall_forall _ _) Hrecords r Hr).
      destruct (mkCategoryMap categories !! CashflowRecord.category_id r)
        as [cat'|]; simpl in Hcat; [|done].
      by injection Hcat as ->.
Qed.

Lemma typed_year_amounts_nonempty cm ty y records :
  typed_year_amounts cm ty y records ≠ [] →
  y ∈ CashflowRecord.year <$> records.
Proof.
  intros Hne. destruct (decide (y ∈ CashflowRecord.year <$> records)); [done|].
  by rewrite CashflowTheorems.typed_year_amounts_no_year in Hne.
Qed.

Lemma foldl_acc_or_zero_Some_iff (o : option num) (l : list num) :
  is_Some (foldl acc_or_zero o l) ↔ is_Some o ∨ l ≠ [].
Proof.
  destruct l as [|a l]; simpl.
  - split; [by left|]. by intros [?|?].
  - split; [by right|]. intros _.
    apply foldl_acc_or_zero_is_Some. unfold acc_or_zero. eauto.
Qed.

(** With the years of the records as [years], the per-year maps of the
    summary have the years as keys. *)
Lemma summary_keys records cm :
  dom (CashflowSummary.incomeByYear
         (calculateSummary records cm (mkYears records)))
  = list_to_set (mkYears records)
  ∧ dom (CashflowSummary.expensesByYear
           (calculateSummary records cm (mkYears records)))
    = list_to_set (mkYears records)
  ∧ dom (CashflowSummary.netByYear
           (calculateSummary records cm (mkYears records)))
    = list_to_set (mkYears records)
  ∧ ∀ y, CashflowSummary.netByYear
           (calculateSummary records cm (mkYears records)) !! y ≠ Some NaN.
Proof.
  assert (∀ ty y,
    is_Some (foldl acc_or_zero
               (if decide (y ∈ mkYears records) then Some num_zero else None)
               (typed_year_amounts cm ty y records))
    ↔ y ∈ mkYears records) as Hsome.
  { intros ty y. rewrite foldl_acc_or_zero_Some_iff. split.
    - intros [Hy|Hne]; [by case_decide; [|destruct Hy]|].
      apply mkYears_elem_of. by eapply typed_year_amounts_nonempty.
    - intros Hy. left. rewrite decide_True by done. eauto. }
  split_and!.
  - apply set_eq. intros y.
    by rewrite elem_of_dom, lookup_incomeByYear, Hsome, elem_of_list_to_set.
  - apply set_eq. intros y.
    by rewrite elem_of_dom, lookup_expensesByYear, Hsome, elem_of_list_to_set.
  - apply set_eq. intros y. rewrite elem_of_dom, elem_of_list_to_set.
    destruct (decide (y ∈ mkYears records)) as [Hy|Hy].
    + rewrite lookup_netByYear by done. split; [done|eauto].
    + rewrite lookup_netByYear_outside by done. split; [by intros []|done].
  - intros y. destruct (decide (y ∈ mkYears records)) as [Hy|Hy].
    + rewrite lookup_netByYear by done.
      destruct (proj2 (Hsome "income" y) Hy) as [i Hi].
      destruct (proj2 (Hsome "expense" y) Hy) as [e He].
      by rewrite lookup_incomeByYear, lookup_expensesByYear, Hi, He.
    + by rewrite lookup_netByYear_outside.
Qed.

(** X4. In every realm and on every input, the pivot that
    [transformCashflowData] returns has per-year maps of the summary
    with an entry for exactly the years of [years], as [byYear] has, and
    no net entry is [NaN] for want of an operand. On ordinary input and
    in the pristine realm it returns a pivot. *)
Theorem per_year_maps_cover_years (realm : CashflowObjects.Realm num) records
    (categories : list Category.t) (file : option UploadedFile.t) :
  match (CashflowObjects.transformCashflowData realm records categories
           file).1 with
  | Some p =>
      dom (CashflowSummary.incomeByYear (CashflowObjects.summary p))
      = list_to_set (CashflowObjects.years p)
      ∧ dom (CashflowSummary.expensesByYear (CashflowObjects.summary p))
        = list_to_set (CashflowObjects.years p)
      ∧ dom (CashflowSummary.netByYear (CashflowObjects.summary p))
        = list_to_set (CashflowObjects.years p)
      ∧ dom (CashflowObjects.byYear p) = list_to_set (CashflowObjects.years p)
      ∧ ∀ y, CashflowSummary.netByYear (CashflowObjects.summary p) !! y
             ≠ Some NaN
  | None => realm = CashflowObjects.pristine → ¬ ordinary records categories
  end.
Proof.
  destruct (CashflowObjects.transformCashflowData realm records categories file)
    as [[p|] realm'] eqn:Hp; simpl.
  2:{ apply (ObjectFacts.transformCashflowData_returns realm records
               categories file). by rewrite Hp. }
  destruct (ObjectFacts.transformCashflowData_returned _ _ _ _ _ _ Hp)
    as (-> & -> & -> & _).
  destruct (summary_keys records (mkCategoryMap categories))
    as (HI & HE & HN & Hnan).
  by split_and!.
Qed.

End any_amounts.

(** *** Exact amounts *)

Lemma map_sum_with_empty `{Countable K} {V} (f : V → Z) :
  map_sum_with f (∅ : gmap K V) = 0.
Proof. unfold map_sum_with. by rewrite map_fold_empty. Qed.

Lemma map_sum_with_insert_None `{Countable K} {V} (f : V → Z)
    (m : gmap K V) k v :
  m !! k = None → map_sum_with f (<[k := v]> m) = f v + map_sum_with f m.
Proof.
  intros Hk. unfold map_sum_with.
  rewrite map_fold_insert_L; [done|intros; lia|done].
Qed.

Lemma map_sum_with_delete `{Countable K} {V} (f : V → Z) (m : gmap K V) k v :
  m !! k = Some v → map_sum_with f m = f v + map_sum_with f (delete k m).
Proof.
  intros Hk. rewrite <-(insert_delete_id m k v) at 1 by done.
  apply map_sum_with_insert_None, lookup_delete_eq.
Qed.

Lemma map_sum_with_insert `{Countable K} {V} (f : V → Z) (m : gmap K V) k v :
  map_sum_with f (<[k := v]> m)
  = f v + map_sum_with f m - from_option f 0 (m !! k).
Proof.
  destruct (m !! k) as [old|] eqn:Hk; simpl.
  - rewrite (map_sum_with_delete f m k old) by done.
    rewrite <-insert_delete_eq.
    rewrite map_sum_with_insert_None by apply lookup_delete_eq. lia.
  - rewrite map_sum_with_insert_None by done. lia.
Qed.

(** The sum over a map whose keys are those of a duplicate-free list. *)
Lemma map_sum_with_keys `{Countable K} {V} (f : V → Z) (l : list K) :
  NoDup l → ∀ m : gmap K V, dom m = list_to_set l →
  map_sum_with f m = sumZ ((λ k, from_option f 0 (m !! k)) <$> l).
Proof.
  induction 1 as [|k l Hk Hnd IH]; intros m Hdom.
  - simpl in Hdom. apply dom_empty_inv_L in Hdom as ->.
    apply map_sum_with_empty.
  - assert (is_Some (m !! k)) as [v Hv].
    { apply elem_of_dom. rewrite Hdom. set_solver. }
    rewrite (map_sum_with_delete f m k v) by done.
    rewrite fmap_cons, Hv. simpl. f_equal.
    rewrite (IH (delete k m)).
    + f_equal. apply list_fmap_ext. intros i k' Hk'.
      rewrite lookup_delete_ne; [done|]. intros ->.
      apply Hk. by eapply list_elem_of_lookup_2.
    + rewrite dom_delete_L, Hdom. set_solver.
Qed.

Section exact.
Implicit Types (records : list (CashflowRecord.t Z)) (c : string) (y : Z)
  (cm : gmap string Category.t).

(** X5. For exact amounts and on ordinary input, a cell of [byCategory]
    holds the sum of the amounts of the records filed under that
    category name in that year, and is absent when there is no such
    record. *)
Theorem pivot_cell_is_sum records (categories : list Category.t)
    (file : option UploadedFile.t) :
  ordinary records categories →
  ∃ p, CashflowObjects.transformCashflowData CashflowObjects.pristine
         records categories file
       = (Some p, CashflowObjects.pristine)
       ∧ ∀ c y, CashflowObjects.byCategory p !! c ≫= (.!! y)
                = match cell_amounts
                          (dictionary (CashflowObjects.mkCategoryMap categories))
                          c y records with
                  | [] => None
                  | amounts => Some (sumZ amounts)
                  end.
Proof.
  intros Hordinary.
  destruct (ObjectFacts.transformCashflowData_plain_post records categories
              file Hordinary) as (p & Hp & Hpost).
  exists (plain p). split; [done|]. intros c y.
  rewrite dictionary_categories.
  change (CashflowObjects.byCategory (plain p))
    with (PivotedCashflow.byCategory p).
  pose proof (tp_cellC _ _ _ _ Hpost c y) as HC. unfold cellC in HC.
  rewrite HC, foldl_acc_cell_Z.
  by destruct (cell_amounts _ _ _ _).
Qed.

Lemma map_sum_init_years (years : list Z) :
  map_sum_with id (init_years 0 years) = 0.
Proof.
  unfold init_years.
  cut (∀ m : gmap Z Z, map_sum_with id m = 0 →
         (∀ y v, m !! y = Some v → v = 0) →
         map_sum_with id (foldl (λ m year, <[year := 0]> m) m years) = 0).
  { intros Hcut. apply Hcut; [apply map_sum_with_empty|].
    intros y v. by rewrite lookup_empty. }
  induction years as [|y years IH]; intros m Hm Hzero; simpl; [done|].
  apply IH.
  - rewrite map_sum_with_insert, Hm.
    destruct (m !! y) as [v|] eqn:Hy; simpl; [|done].
    by rewrite (Hzero y v).
  - intros y' v. rewrite lookup_insert_Some. intros [[_ <-]|[_ ?]]; [done|eauto].
Qed.

Lemma map_sum_add_or_zero (m : gmap Z Z) (k a : Z) :
  map_sum_with id (add_or_zero m k a) = map_sum_with id m + a.
Proof.
  unfold add_or_zero. rewrite map_sum_with_insert.
  destruct (m !! k) as [v|]; simpl; [|lia].
  destruct (v =? 0) eqn:Hv; simpl; [|lia].
  apply Z.eqb_eq in Hv. lia.
Qed.

(** The record loop of the summary keeps each total equal to the sum of
    the entries of its per-year map. *)
Lemma summary_loop_sums cm records (acc : SummaryAcc) :
  acc_totalIncome acc = map_sum_with id (acc_incomeByYear acc) →
  acc_totalExpenses acc = map_sum_with id (acc_expensesByYear acc) →
  acc_totalIncome (foldl (summary_step cm) acc records)
  = map_sum_with id (acc_incomeByYear (foldl (summary_step cm) acc records))
  ∧ acc_totalExpenses (foldl (summary_step cm) acc records)
    = map_sum_with id
        (acc_expensesByYear (foldl (summary_step cm) acc records)).
Proof.
  revert acc. induction records as [|r records IH]; intros acc HI HE; [done|].
  simpl. apply IH.
  - destruct (summary_step_cases cm acc r)
      as [(_ & _ & ->)|[(_ & _ & ->)|(_ & _ & ->)]]; simpl; [|done|done].
    by rewrite map_sum_add_or_zero, HI.
  - destruct (summary_step_cases cm acc r)
      as [(_ & _ & ->)|[(_ & _ & ->)|(_ & _ & ->)]]; simpl; [done| |done].
    by rewrite map_sum_add_or_zero, HE.
Qed.

(** X6. For exact amounts and any list of years, [totalIncome] is the
    sum of the entries of [incomeByYear], and [totalExpenses] the sum of
    those of [expensesByYear]. *)
Theorem totals_are_sums_of_years records cm (years : list Z) :
  CashflowSummary.totalIncome (calculateSummary records cm years)
  = map_sum_with id (CashflowSummary.incomeByYear
                       (calculateSummary records cm years))
  ∧ CashflowSummary.totalExpenses (calculateSummary records cm years)
    = map_sum_with id (CashflowSummary.expensesByYear
                         (calculateSummary records cm years)).
Proof.
  summary_field. apply summary_loop_sums; simpl; by rewrite map_sum_init_years.
Qed.

Lemma sumZ_fmap_sub {A} (f g : A → Z) (l : list A) :
  sumZ ((λ x, f x - g x) <$> l) = sumZ (f <$> l) - sumZ (g <$> l).
Proof.
  induction l as [|x l IH]; [done|].
  rewrite !fmap_cons. unfold sumZ in *. simpl. lia.
Qed.

Lemma nets_add_up records cm :
  map_sum_with net_value
    (CashflowSummary.netByYear (calculateSummary records cm (mkYears records)))
  = CashflowSummary.totalNet (calculateSummary records cm (mkYears records)).
Proof.
  destruct (summary_keys records cm) as (HI & HE & HN & _).
  pose proof (mkYears_NoDup records) as Hnd.
  rewrite totalNet_difference.
  assert (CashflowSummary.totalIncome (calculateSummary records cm (mkYears records))
          = map_sum_with id (CashflowSummary.incomeByYear
                               (calculateSummary records cm (mkYears records)))
          ∧ CashflowSummary.totalExpenses
              (calculateSummary records cm (mkYears records))
            = map_sum_with id (CashflowSummary.expensesByYear
                                 (calculateSummary records cm (mkYears records))))
    as [-> ->].
  { summary_field. apply summary_loop_sums; simpl; by rewrite map_sum_init_years. }
  rewrite (map_sum_with_keys _ _ Hnd _ HI), (map_sum_with_keys _ _ Hnd _ HE),
    (map_sum_with_keys _ _ Hnd _ HN).
  rewrite <-(sumZ_fmap_sub
    (λ y, from_option id 0
            (CashflowSummary.incomeByYear
               (calculateSummary records cm (mkYears records)) !! y))
    (λ y, from_option id 0
            (CashflowSummary.expensesByYear
               (calculateSummary records cm (mkYears records)) !! y))).
  f_equal. apply list_fmap_ext. intros i y Hy%list_elem_of_lookup_2.
  cbv beta.
  by rewrite lookup_netByYear_Z, lookup_incomeByYear_in,
    lookup_expensesByYear_in, decide_True.
Qed.

(** X7. For exact amounts, in every realm and on every input, the net
    entries of the pivot that [transformCashflowData] returns add up to
    [totalNet]. On ordinary input and in the pristine realm it returns
    a pivot. *)
Theorem yearly_nets_add_up (realm : CashflowObjects.Realm Z) records
    (categories : list Category.t) (file : option UploadedFile.t) :
  match (CashflowObjects.transformCashflowData realm records categories
           file).1 with
  | Some p =>
      map_sum_with net_value
        (CashflowSummary.netByYear (CashflowObjects.summary p))
      = CashflowSummary.totalNet (CashflowObjects.summary p)
  | None => realm = CashflowObjects.pristine → ¬ ordinary records categories
  end.
Proof.
  destruct (CashflowObjects.transformCashflowData realm records categories file)
    as [[p|] realm'] eqn:Hp; simpl.
  2:{ apply (ObjectFacts.transformCashflowData_returns realm records
               categories file). by rewrite Hp. }
  destruct (ObjectFacts.transformCashflowData_returned _ _ _ _ _ _ Hp)
    as (_ & _ & -> & _).
  apply nets_add_up.
Qed.

End exact.

(** X8. [categoryMap[id]] is the last category of the list with that
    id (under "__proto__" as under any other id). For an id that no
    category has it is what the object inherits: a field of the last
    category with the id "__proto__", if there is one, under "id",
    "name" and "type"; else, and under the other ids, what
    [Object.prototype] holds. *)
Theorem categoryMap_keeps_last {num : Type} (realm : CashflowObjects.Realm num)
    (categories : list Category.t) (k : string) :
  CashflowObjects.lookup_category realm
    (CashflowObjects.mkCategoryMap categories) k
  = match last (filter (λ category, Category.id category = k) categories) with
    | Some category => CashflowObjects.IsCategory category
    | None =>
        inherited_value realm
          (last (filter (λ category, Category.id category = "__proto__")
                        categories)) k
    end.
Proof.
  unfold inherited_value, CashflowObjects.lookup_category. simpl.
  rewrite lookup_empty, ObjectFacts.prototype_mkCategoryMap,
    ObjectFacts.mkCategoryMap_keeps_last.
  destruct (decide (k = "__proto__")) as [->|Hk].
  - rewrite (proj1 (ObjectFacts.dictionary_mkCategoryMap categories)).
    by destruct (last _) as [proto|].
  - rewrite ObjectFacts.lookup_own_mkCategoryMap by done.
    rewrite ObjectFacts.mkCategoryMap_keeps_last.
    by destruct (last (filter (λ category, Category.id category = k) _)).
Qed.

(** The pivot of the records of 2022. *)
Lemma byYear_cell_is_byCategory_cell_witness :
  ordinary Examples.year_2022 [Examples.sales; Examples.rent]
  ∧ ∃ p, CashflowObjects.transformCashflowData CashflowObjects.pristine
           Examples.year_2022 [Examples.sales; Examples.rent] None
         = (Some p, CashflowObjects.pristine)
         ∧ ∀ c y, CashflowObjects.byYear p !! y ≫= (.!! c)
                  = CashflowObjects.Amount
                      <$> (CashflowObjects.byCategory p !! c ≫= (.!! y)).
Proof.
  split; [exact Witnesses.year_2022_only_ordinary|].
  exact (byYear_cell_is_byCategory_cell Examples.year_2022
           [Examples.sales; Examples.rent] None
           Witnesses.year_2022_only_ordinary).
Defined.

Lemma pivot_keys_witness :
  ordinary Examples.year_2022 [Examples.sales; Examples.rent]
  ∧ ∃ p, CashflowObjects.transformCashflowData CashflowObjects.pristine
           Examples.year_2022 [Examples.sales; Examples.rent] None
         = (Some (plain p), CashflowObjects.pristine)
         ∧ dom (PivotedCashflow.byCategory p)
           = list_to_set (PivotedCashflow.categoryNames p)
         ∧ dom (PivotedCashflow.byYear p)
           = list_to_set (PivotedCashflow.years p)
         ∧ (∀ c row, PivotedCashflow.byCategory p !! c = Some row →
              row ≠ ∅ ∧ dom row ⊆ list_to_set (PivotedCashflow.years p))
         ∧ (∀ y col, PivotedCashflow.byYear p !! y = Some col →
              dom col ⊆ list_to_set (PivotedCashflow.categoryNames p)).
Proof.
  split; [exact Witnesses.year_2022_only_ordinary|].
  exact (pivot_keys Examples.year_2022 [Examples.sales; Examples.rent] None
           Witnesses.year_2022_only_ordinary).
Defined.

Lemma categoryNames_sorted_distinct_complete_witness :
  ordinary Examples.year_2022 [Examples.sales; Examples.rent]
  ∧ ∃ p, CashflowObjects.transformCashflowData CashflowObjects.pristine
           Examples.year_2022 [Examples.sales; Examples.rent] None
         = (Some (plain p), CashflowObjects.pristine)
         ∧ NoDup (PivotedCashflow.categoryNames p)
         ∧ StronglySorted (λ a b, JS.compare_code_units a b = Lt)
                          (PivotedCashflow.categoryNames p)
         ∧ ∀ n, n ∈ PivotedCashflow.categoryNames p
                ↔ ∃ r cat, r ∈ Examples.year_2022
                           ∧ CashflowObjects.lookup_category
                               (CashflowObjects.pristine
                                  : CashflowObjects.Realm Z)
                               (CashflowObjects.mkCategoryMap
                                  [Examples.sales; Examples.rent])
                               (CashflowRecord.category_id r)
                             = CashflowObjects.IsCategory cat
                           ∧ Category.name cat = n.
Proof.
  split; [exact Witnesses.year_2022_only_ordinary|].
  exact (categoryNames_sorted_distinct_complete Examples.year_2022
           [Examples.sales; Examples.rent] None
           Witnesses.year_2022_only_ordinary).
Defined.

Lemma pivot_cell_is_sum_witness :
  ordinary Examples.year_2022 [Examples.sales; Examples.rent]
  ∧ ∃ p, CashflowObjects.transformCashflowData CashflowObjects.pristine
           Examples.year_2022 [Examples.sales; Examples.rent] None
         = (Some p, CashflowObjects.pristine)
         ∧ ∀ c y, CashflowObjects.byCategory p !! c ≫= (.!! y)
                  = match cell_amounts
                            (dictionary (CashflowObjects.mkCategoryMap
                                           [Examples.sales; Examples.rent]))
                            c y Examples.year_2022 with
                    | [] => None
                    | amounts => Some (sumZ amounts)
                    end.
Proof.
  split; [exact Witnesses.year_2022_only_ordinary|].
  exact (pivot_cell_is_sum Examples.year_2022
           [Examples.sales; Examples.rent] None
           Witnesses.year_2022_only_ordinary).
Defined.

End PivotTheorems.

(** ** The fetch of the analysis hook *)

Module FetchTheorems.
Import Hook HookSpec.

Section any_amounts.
Context {num : Type} {JN : JsNumber num}.
Implicit Types (supabase : Supabase (num := num)) (w : World (num := num)).

Local Ltac run_fetch :=
  unfold try_catch_finally, fetchBody, bind, setIsLoading, setError, setData,
    update, send, throw, settled; simpl.

(** The ways a fetch with a file id ends. *)
Lemma fetchData_cases supabase fileId w :
  fileId ≠ "" →
  ∃ data error sent,
    fetchData supabase fileId w = (inr tt, settled w data error sent)
    ∧ ((∃ message,
          QueryResult.error (uploaded_files supabase fileId) = Some message
          ∧ data = Hook.data (state w)
          ∧ error = Some (Error ("Error fetching file: " +:+ message))
          ∧ sent = [SelectUploadedFile fileId])
       ∨ (QueryResult.error (uploaded_files supabase fileId) = None
          ∧ (QueryResult.data (uploaded_files supabase fileId) = None
             ∨ QueryResult.data (uploaded_files supabase fileId) = Some [])
          ∧ data = Hook.data (state w)
          ∧ error = Some (Error ("File with ID " +:+ fileId
                                 +:+ " not found or has been deleted"))
          ∧ sent = [SelectUploadedFile fileId])
       ∨ (∃ message,
            QueryResult.error (cashflow_records supabase fileId) = Some message
            ∧ data = Hook.data (state w)
            ∧ error = Some (Error ("Error fetching records: " +:+ message))
            ∧ sent = [SelectUploadedFile fileId; SelectCashflowRecords fileId])
       ∨ (∃ message,
            QueryResult.error (cashflow_categories supabase) = Some message
            ∧ data = Hook.data (state w)
            ∧ error = Some (Error ("Error fetching categories: " +:+ message))
            ∧ sent = queries fileId)
       ∨ ((QueryResult.data (cashflow_records supabase fileId) = None
           ∨ QueryResult.data (cashflow_categories supabase) = None)
          ∧ data = Hook.data (state w)
          ∧ error = Some TypeError
          ∧ sent = queries fileId)
       ∨ (∃ file records categories,
            serves supabase fileId file records categories
            ∧ pivot_of records categories file = None
            ∧ data = Hook.data (state w)
            ∧ error = Some TypeError
            ∧ sent = queries fileId)
       ∨ (∃ file records categories p,
            serves supabase fileId file records categories
            ∧ pivot_of records categories file = Some p
            ∧ data = Some p ∧ error = None ∧ sent = queries fileId)).
Proof.
  intros Hid. unfold fetchData, JS.string_truthy. rewrite decide_False by done.
  simpl. run_fetch.
  destruct (QueryResult.error (uploaded_files supabase fileId))
    as [message|] eqn:HfileE; simpl.
  { eexists _, _, _. split; [done|]. left. by exists message. }
  destruct (QueryResult.data (uploaded_files supabase fileId))
    as [[|file rest]|] eqn:HfileD; simpl.
  { eexists _, _, _. split; [done|]. right; left. eauto 10. }
  2:{ eexists _, _, _. split; [done|]. right; left. eauto 10. }
  destruct (cashflow_records supabase fileId) as [recordsD recordsE] eqn:Hrec.
  simpl. destruct recordsE as [message|]; simpl.
  { eexists _, _, _. rewrite <-app_assoc. split; [done|].
    do 2 right; left. by exists message. }
  destruct (cashflow_categories supabase) as [catsD catsE] eqn:Hcat. simpl.
  destruct catsE as [message|]; simpl.
  { eexists _, _, _. rewrite <-!app_assoc. split; [done|].
    do 3 right; left. by exists message. }
  destruct recordsD as [records|]; simpl.
  2:{ eexists _, _, _. rewrite <-!app_assoc. split; [done|].
      do 4 right; left. eauto. }
  destruct catsD as [categories|]; simpl.
  2:{ eexists _, _, _. rewrite <-!app_assoc. split; [done|].
      do 4 right; left. eauto. }
  assert (serves supabase fileId file records categories) as Hserves.
  { split_and!; eauto. }
  destruct (CashflowObjects.transformCashflowData CashflowObjects.pristine
              records categories (Some file)) as [[p|] realm'] eqn:Hp; simpl.
  - eexists _, _, _. rewrite <-!app_assoc. split; [done|].
    do 6 right. exists file, records, categories, p.
    unfold pivot_of. by rewrite Hp.
  - eexists _, _, _. rewrite <-!app_assoc. split; [done|].
    do 5 right; left. exists file, records, categories.
    unfold pivot_of. by rewrite Hp.
Qed.

(** X9. However the store answers, [fetchData] returns without an
    exception and with [isLoading] false, and what it has sent is an
    initial part of the three queries: the file, then its records, then
    the categories. *)
Theorem fetchData_settles supabase fileId w :
  (fetchData supabase fileId w).1 = inr tt
  ∧ isLoading (state (fetchData supabase fileId w).2) = false
  ∧ ∃ n, sent (fetchData supabase fileId w).2
         = sent w ++ take n (queries fileId).
Proof.
  destruct (decide (fileId = "")) as [->|Hid].
  { unfold fetchData, JS.string_truthy. rewrite decide_True by done. simpl.
    split_and!; [done..|]. exists 0%nat. by rewrite app_nil_r. }
  destruct (fetchData_cases supabase fileId w Hid)
    as (d & e & q & -> & Hcases).
  simpl. split_and!; [done..|].
  destruct Hcases as [(? & _ & _ & _ & ->)|[(_ & _ & _ & _ & ->)|
    [(? & _ & _ & _ & ->)|[(? & _ & _ & _ & ->)|[(_ & _ & _ & ->)|
    [(? & ? & ? & _ & _ & _ & _ & ->)
    |(? & ? & ? & ? & _ & _ & _ & _ & ->)]]]]]].
  - by exists 1%nat.
  - by exists 1%nat.
  - by exists 2%nat.
  - by exists 3%nat.
  - by exists 3%nat.
  - by exists 3%nat.
  - by exists 3%nat.
Qed.




(** X12. When the store answers the file query without an error and
    without a file, [fetchData] sets [error] to
    "File with ID <id> not found or has been deleted", leaves [data] as
    it was and asks neither for records nor for categories. *)
Theorem fetchData_missing_file supabase fileId w :
  fileId ≠ "" →
  QueryResult.error (uploaded_files supabase fileId) = None →
  QueryResult.data (uploaded_files supabase fileId) = None
  ∨ QueryResult.data (uploaded_files supabase fileId) = Some [] →
  fetchData supabase fileId w
  = (inr tt,
     settled w (data (state w))
       (Some (Error ("File with ID " +:+ fileId
                     +:+ " not found or has been deleted")))
       [SelectUploadedFile fileId]).
Proof.
  intros Hid HE HD.
  unfold fetchData, JS.string_truthy. rewrite decide_False by done.
  simpl. run_fetch. rewrite HE. by destruct HD as [-> | ->].
Qed.


End any_amounts.


(** A fetch that the store answers, of categories named "__proto__" and
    "2022": [transformCashflowData] raises a [TypeError], which becomes
    the [error] of the hook. *)
Example fetchData_of_inherited_names :
  serves StoreExamples.inherited_names "f1" StoreExamples.statement
    [Examples.record "c1" 2022 7; Examples.record "c2" 2022 5]
    [Examples.named_proto; Examples.named_2022]
  ∧ fetchData StoreExamples.inherited_names "f1" StoreExamples.mounted
    = (inr tt,
       settled StoreExamples.mounted None (Some TypeError) (queries "f1")).
Proof. split; [split_and!; [done|by exists []|done|done]|by vm_compute]. Qed.

(** A fetch of a file the store does not hold. *)
Lemma fetchData_missing_file_witness :
  ("f2" ≠ ""
   ∧ QueryResult.error (uploaded_files StoreExamples.one_file "f2") = None
   ∧ QueryResult.data (uploaded_files StoreExamples.one_file "f2") = Some [])
  ∧ fetchData StoreExamples.one_file "f2" StoreExamples.mounted
    = (inr tt,
       settled StoreExamples.mounted None
         (Some (Error "File with ID f2 not found or has been deleted"))
         [SelectUploadedFile "f2"]).
Proof.
  assert ("f2" ≠ "") as Hid by done.
  split; [by split|].
  exact (fetchData_missing_file StoreExamples.one_file "f2"
           StoreExamples.mounted Hid eq_refl (or_intror eq_refl)).
Defined.

End FetchTheorems.

(** ** The grouping of tasks *)

Module GroupingTheorems.
Import JS JSFacts Tasks TasksSpec TasksFacts GroupingSpec.










End GroupingTheorems.

(** ** The task view *)

Module TasksViewTheorems.
Import Effect TasksView TasksViewSpec.

(** *** The identifier check *)

Lemma char_in_of_class chars c : char_in chars c = true ↔ of_class chars c.
Proof.
  unfold char_in, of_class. rewrite existsb_exists. split.
  - intros (x & Hin & ->%Ascii.eqb_eq). by apply list_elem_of_In.
  - intros Hin. exists c. split; [by apply list_elem_of_In|apply Ascii.eqb_refl].
Qed.

Lemma match_class_Some chars n s s' :
  match_class chars n s = Some s'
  ↔ ∃ pre, s = pre +:+ s' ∧ String.length pre = n
           ∧ Forall (of_class chars) (list_ascii_of_string pre).
Proof.
  revert s. induction n as [|n IH]; intros s; simpl.
  - split.
    + intros [= ->]. by exists "".
    + intros (pre & -> & Hlen & _). by destruct pre.
  - destruct s as [|c s]; simpl.
    + split; [done|]. intros ([|c pre] & Heq & Hlen & _); done.
    + destruct (char_in chars c) eqn:Hc.
      * rewrite IH. apply char_in_of_class in Hc. split.
        -- intros (pre & -> & Hlen & Hall). exists (String c pre).
           simpl. split_and!; [done|by rewrite Hlen|by constructor].
        -- intros ([|c' pre] & Heq & Hlen & Hall); [done|].
           simpl in *. injection Heq as -> ->. injection Hlen as Hlen.
           apply Forall_cons in Hall as [_ Hall]. by exists pre.
      * split; [done|]. intros ([|c' pre] & Heq & Hlen & Hall); [done|].
        simpl in *. injection Heq as -> ->.
        apply Forall_cons in Hall as [Hc'%char_in_of_class _]. congruence.
Qed.

Lemma test_cons chars n items s :
  test ((chars, n) :: items) s = true
  ↔ ∃ pre s', s = pre +:+ s' ∧ String.length pre = n
              ∧ Forall (of_class chars) (list_ascii_of_string pre)
              ∧ test items s' = true.
Proof.
  simpl. destruct (match_class chars n s) as [s'|] eqn:Hm.
  - apply match_class_Some in Hm as (pre & -> & Hlen & Hall). split.
    + intros Ht. by exists pre, s'.
    + intros (pre' & s'' & Heq & Hlen' & Hall' & Ht).
      assert (match_class chars n (pre +:+ s') = Some s'') as Hm'.
      { apply match_class_Some. exists pre'. by rewrite Heq. }
      assert (match_class chars n (pre +:+ s') = Some s') as Hm''.
      { apply match_class_Some. by exists pre. }
      congruence.
  - split; [done|]. intros (pre & s' & -> & Hlen & Hall & _).
    assert (match_class chars n (pre +:+ s') = Some s') as Hm'.
    { apply match_class_Some. by exists pre. }
    congruence.
Qed.

Lemma one_of_class chars pre :
  String.length pre = 1%nat ∧ Forall (of_class chars) (list_ascii_of_string pre)
  ↔ ∃ c, pre = String c "" ∧ of_class chars c.
Proof.
  split.
  - intros [Hlen Hall]. destruct pre as [|c [|? ?]]; try done.
    exists c. split; [done|]. by apply Forall_cons in Hall as [? _].
  - intros (c & -> & Hc). split; [done|]. simpl. by repeat constructor.
Qed.

Lemma of_class_dash c : of_class "-" c ↔ String c "" = "-".
Proof.
  unfold of_class. simpl. rewrite list_elem_of_singleton.
  split; [by intros ->|by intros [= ->]].
Qed.

Lemma append_nil_r (s : string) : s +:+ "" = s.
Proof.
  induction s as [|c s IH]; [done|].
  change (String c (s +:+ "") = String c s). by f_equal.
Qed.

(** X16. [isValidUUID] accepts exactly the strings made of five groups
    of 8, 4, 4, 4 and 12 hexadecimal digits of either case, joined by
    dashes, whose third group starts with a digit from 1 to 5 and whose
    fourth group starts with 8, 9, a, b, A or B. *)
Theorem isValidUUID_shape (uuid : string) :
  isValidUUID uuid = true ↔ uuid_shape uuid.
Proof.
  unfold isValidUUID, uuid_regex, uuid_shape, hex_digits, hex. split.
  - intros Ht.
    apply test_cons in Ht as (a & s1 & -> & Ha & Ha' & Ht).
    apply test_cons in Ht as (d1 & s2 & -> & Hd1 & Hd1' & Ht).
    apply test_cons in Ht as (b & s3 & -> & Hb & Hb' & Ht).
    apply test_cons in Ht as (d2 & s4 & -> & Hd2 & Hd2' & Ht).
    apply test_cons in Ht as (v & s5 & -> & Hv & Hv' & Ht).
    apply test_cons in Ht as (c & s6 & -> & Hc & Hc' & Ht).
    apply test_cons in Ht as (d3 & s7 & -> & Hd3 & Hd3' & Ht).
    apply test_cons in Ht as (r & s8 & -> & Hr & Hr' & Ht).
    apply test_cons in Ht as (d & s9 & -> & Hd & Hd' & Ht).
    apply test_cons in Ht as (d4 & s10 & -> & Hd4 & Hd4' & Ht).
    apply test_cons in Ht as (e & s11 & -> & He & He' & Ht).
    simpl in Ht. apply bool_decide_eq_true in Ht as ->.
    destruct (proj1 (one_of_class _ _) (conj Hd1 Hd1')) as (? & -> & ->%of_class_dash).
    destruct (proj1 (one_of_class _ _) (conj Hd2 Hd2')) as (? & -> & ->%of_class_dash).
    destruct (proj1 (one_of_class _ _) (conj Hd3 Hd3')) as (? & -> & ->%of_class_dash).
    destruct (proj1 (one_of_class _ _) (conj Hd4 Hd4')) as (? & -> & ->%of_class_dash).
    destruct (proj1 (one_of_class _ _) (conj Hv Hv')) as (v' & -> & Hv'').
    destruct (proj1 (one_of_class _ _) (conj Hr Hr')) as (r' & -> & Hr'').
    exists a, b, v', c, r', d, e. rewrite append_nil_r. done.
  - intros (a & b & v & c & r & d & e & -> & [Ha Ha'] & [Hb Hb'] & Hv
            & [Hc Hc'] & Hr & [Hd Hd'] & [He He']).
    apply test_cons. exists a; eexists. split; [reflexivity|].
    split_and!; [done..|].
    apply test_cons. exists "-"; eexists. split; [reflexivity|].
    split_and!; [done|by apply Forall_singleton, of_class_dash|].
    apply test_cons. exists b; eexists. split; [reflexivity|].
    split_and!; [done..|].
    apply test_cons. exists "-"; eexists. split; [reflexivity|].
    split_and!; [done|by apply Forall_singleton, of_class_dash|].
    apply test_cons.
    exists (String v ""), (c +:+ "-" +:+ String r d +:+ "-" +:+ e).
    split; [reflexivity|]. split_and!; [done|by apply Forall_singleton|].
    apply test_cons. exists c; eexists. split; [reflexivity|].
    split_and!; [done..|].
    apply test_cons. exists "-"; eexists. split; [reflexivity|].
    split_and!; [done|by apply Forall_singleton, of_class_dash|].
    apply test_cons. exists (String r ""), (d +:+ "-" +:+ e).
    split; [reflexivity|]. split_and!; [done|by apply Forall_singleton|].
    apply test_cons. exists d; eexists. split; [reflexivity|].
    split_and!; [done..|].
    apply test_cons. exists "-"; eexists. split; [reflexivity|].
    split_and!; [done|by apply Forall_singleton, of_class_dash|].
    apply test_cons. exists e, "". rewrite append_nil_r.
    split_and!; done.
Qed.

(** *** The fetch *)

Lemma validatedBusinessId_valid businessId :
  isValidUUID (validatedBusinessId businessId) = true.
Proof.
  unfold validatedBusinessId.
  destruct (isValidUUID businessId) eqn:Hvalid; [done|]. by vm_compute.
Qed.

Section fetch.
Variable localeCompare : string → string → Z.
Variable typeErrorMessage : TypeErrorSite → string.

Local Abbreviation fetch := (fetchTasksAndFiles localeCompare typeErrorMessage).

Local Ltac run_fetch :=
  unfold fetchTasksAndFiles, processTasksAndFiles, finally, try_catch, bind,
    ret, throw, setIsLoading, setError, setCategories, update, modify, send,
    settled; simpl.

Lemma categoryOf_mergeTask files responses (t : Task.t) :
  Tasks.categoryOf (Tasks.mergeTask files responses t) = filed_under t.
Proof.
  unfold Tasks.categoryOf, filed_under, JS.string_truthy. simpl.
  destruct (Task.category t) as [c|]; [|done]. by case_decide.
Qed.

Lemma inherited_category_tasksWithState tasks files responses :
  Exists TasksSpec.inherited_category
         (Tasks.tasksWithState tasks files responses)
  ↔ ¬ ordinary_categories tasks.
Proof.
  unfold ordinary_categories, Tasks.tasksWithState, TasksSpec.inherited_category.
  rewrite Exists_fmap. split.
  - intros Hex Hall. apply Exists_exists in Hex as (t & Ht & Hin).
    simpl in Hin. rewrite categoryOf_mergeTask in Hin.
    by apply (proj1 (Forall_forall _ _) Hall t Ht).
  - intros Hnot. apply not_Forall_Exists in Hnot; [|intros; apply _].
    eapply Exists_impl; [exact Hnot|]. intros t Ht. simpl.
    rewrite categoryOf_mergeTask. by apply dec_stable.
Qed.

(** The grouping of the tasks of the store returns buckets exactly when
    no task is filed under an inherited name. *)
Lemma processTasksAndFiles_tasksWithState tasks fd rd files responses :
  Tasks.processTasksAndFiles localeCompare
    (Tasks.tasksWithState tasks fd rd) files responses
  = if decide (ordinary_categories tasks)
    then Some (TasksSpec.buckets localeCompare
                 (Tasks.tasksWithState tasks fd rd))
    else None.
Proof.
  rewrite TasksFacts.processTasksAndFiles_buckets.
  destruct (decide (Exists _ _)) as [Hex|Hex];
    destruct (decide (ordinary_categories tasks)) as [Hord|Hord]; try done.
  - by apply inherited_category_tasksWithState in Hex.
  - exfalso. apply Hex. by apply inherited_category_tasksWithState.
Qed.

(** The ways a fetch ends. *)
Lemma fetch_cases supabase businessId w :
  let id := validatedBusinessId businessId in
  ∃ categories error sent,
    fetch supabase businessId w = (inr tt, settled w categories error sent)
    ∧ ((∃ message,
          QueryResult.error (tasks supabase id) = Some message
          ∧ categories = TasksView.categories (state w)
          ∧ error = Some ("Failed to fetch tasks: " +:+ message)
          ∧ sent = [SelectTasks id])
       ∨ (∃ message,
            QueryResult.error (tasks supabase id) = None
            ∧ QueryResult.error (uploaded_files supabase id) = Some message
            ∧ categories = TasksView.categories (state w)
            ∧ error = Some ("Failed to fetch files: " +:+ message)
            ∧ sent = [SelectTasks id; SelectUploadedFiles id])
       ∨ (QueryResult.error (tasks supabase id) = None
          ∧ QueryResult.error (uploaded_files supabase id) = None
          ∧ QueryResult.data (tasks supabase id) = None
          ∧ categories = TasksView.categories (state w)
          ∧ error = Some (typeErrorMessage MapOfNull)
          ∧ sent = queries id)
       ∨ (∃ tasks,
            QueryResult.error (TasksView.tasks supabase id) = None
            ∧ QueryResult.error (uploaded_files supabase id) = None
            ∧ QueryResult.data (TasksView.tasks supabase id) = Some tasks
            ∧ ¬ ordinary_categories tasks
            ∧ categories = TasksView.categories (state w)
            ∧ error = Some (typeErrorMessage PushOfInherited)
            ∧ sent = queries id)
       ∨ (∃ tasks,
            QueryResult.error (TasksView.tasks supabase id) = None
            ∧ QueryResult.error (uploaded_files supabase id) = None
            ∧ QueryResult.data (TasksView.tasks supabase id) = Some tasks
            ∧ ordinary_categories tasks
            ∧ categories
              = TasksSpec.buckets localeCompare
                  (Tasks.tasksWithState tasks
                     (QueryResult.data (uploaded_files supabase id))
                     (QueryResult.data (survey_responses supabase id)))
            ∧ error = TasksView.error (state w)
            ∧ sent = queries id)).
Proof.
  intros id. run_fetch. fold id.
  destruct (QueryResult.error (tasks supabase id)) as [message|] eqn:HtE; simpl.
  { eexists _, _, _. split; [done|]. left. by exists message. }
  destruct (QueryResult.error (uploaded_files supabase id))
    as [message|] eqn:HfE; simpl.
  { eexists _, _, _. rewrite <-app_assoc. split; [done|].
    right; left. by exists message. }
  destruct (QueryResult.data (tasks supabase id)) as [tasks|] eqn:HtD; simpl.
  2:{ eexists _, _, _. rewrite <-!app_assoc. split; [done|].
      do 2 right; left. done. }
  rewrite processTasksAndFiles_tasksWithState.
  destruct (decide (ordinary_categories tasks)) as [Hord|Hord]; simpl.
  - eexists _, _, _. rewrite <-!app_assoc. split; [done|].
    do 4 right. by exists tasks.
  - eexists _, _, _. rewrite <-!app_assoc. split; [done|].
    do 3 right; left. by exists tasks.
Qed.

(** X17. However the store answers, [fetchTasksAndFiles] returns
    without an exception and with [isLoading] false. What it has sent is
    an initial part, not empty, of the three queries for tasks, files
    and responses, all for one identifier that passes [isValidUUID]:
    the business id if it passes, the fallback otherwise. *)
Theorem fetchTasksAndFiles_settles supabase businessId w :
  (fetch supabase businessId w).1 = inr tt
  ∧ isLoading (state (fetch supabase businessId w).2) = false
  ∧ ∃ id n,
      isValidUUID id = true
      ∧ id = (if isValidUUID businessId then businessId
              else "37add0e6-16d4-4607-b057-7e7a1ede55f1")
      ∧ (1 ≤ n)%nat
      ∧ sent (fetch supabase businessId w).2 = sent w ++ take n (queries id).
Proof.
  destruct (fetch_cases supabase businessId w) as (c & e & q & -> & Hcases).
  simpl. split_and!; [done..|].
  exists (validatedBusinessId businessId).
  destruct Hcases as [(? & _ & _ & _ & ->)|[(? & _ & _ & _ & _ & ->)|
    [(_ & _ & _ & _ & _ & ->)|[(? & _ & _ & _ & _ & _ & _ & ->)|
    (? & _ & _ & _ & _ & _ & _ & ->)]]]].
  - exists 1%nat. split_and!; [apply validatedBusinessId_valid|done..].
  - exists 2%nat. split_and!; [apply validatedBusinessId_valid|done|lia|done].
  - exists 3%nat. split_and!; [apply validatedBusinessId_valid|done|lia|done].
  - exists 3%nat. split_and!; [apply validatedBusinessId_valid|done|lia|done].
  - exists 3%nat. split_and!; [apply validatedBusinessId_valid|done|lia|done].
Qed.


(** X19. When the query for tasks fails, [fetchTasksAndFiles] sets
    [error] to "Failed to fetch tasks: " followed by the message of the
    failure, leaves [categories] as they were and sends no other
    query. *)
Theorem fetchTasksAndFiles_tasks_error supabase businessId w message :
  let id := validatedBusinessId businessId in
  QueryResult.error (tasks supabase id) = Some message →
  fetch supabase businessId w
  = (inr tt,
     settled w (categories (state w))
       (Some ("Failed to fetch tasks: " +:+ message)) [SelectTasks id]).
Proof.
  intros id Ht. run_fetch. fold id. by rewrite Ht.
Qed.

(** X20. [fetchTasksAndFiles] never clears [error]: if it was set
    before the fetch it is set after it, and a fetch that changes
    [categories] leaves [error] as it was. *)
Theorem fetchTasksAndFiles_keeps_error supabase businessId w :
  let after :=
    state (fetchTasksAndFiles localeCompare typeErrorMessage
             supabase businessId w).2 in
  (error (state w) ≠ None → error after ≠ None)
  ∧ (categories after ≠ categories (state w) → error after = error (state w)).
Proof.
  intros after. unfold after.
  destruct (fetch_cases supabase businessId w) as (c & e & q & -> & Hcases).
  simpl.
  destruct Hcases as [(? & _ & -> & -> & _)|[(? & _ & _ & -> & -> & _)|
    [(_ & _ & _ & -> & -> & _)|[(? & _ & _ & _ & _ & -> & -> & _)|
    (? & _ & _ & _ & _ & _ & -> & _)]]]]; done.
Qed.

(** X21. A business id that does not pass [isValidUUID] is served as
    the fallback id is: the fetch sends the same queries and ends in the
    same state. *)
Theorem invalid_id_is_served_as_fallback supabase businessId w :
  isValidUUID businessId = false →
  fetch supabase businessId w
  = fetch supabase "37add0e6-16d4-4607-b057-7e7a1ede55f1" w.
Proof.
  intros Hinvalid. unfold fetchTasksAndFiles.
  assert (validatedBusinessId businessId
          = validatedBusinessId "37add0e6-16d4-4607-b057-7e7a1ede55f1") as ->.
  { unfold validatedBusinessId. rewrite Hinvalid. by vm_compute. }
  done.
Qed.

(** X29. When the store answers the queries for tasks and for files
    without an error and some task is filed under the name of a property
    of [Object.prototype], the grouping raises a [TypeError]:
    [fetchTasksAndFiles] sets [error] to its message and leaves
    [categories] as they were, having sent the three queries. *)
Theorem fetchTasksAndFiles_inherited_category supabase businessId w tasks :
  let id := validatedBusinessId businessId in
  TasksView.tasks supabase id = QueryResult.mk (Some tasks) None →
  QueryResult.error (uploaded_files supabase id) = None →
  ¬ ordinary_categories tasks →
  fetch supabase businessId w
  = (inr tt,
     settled w (categories (state w))
       (Some (typeErrorMessage PushOfInherited)) (queries id)).
Proof.
  intros id Ht Hf Hord. run_fetch. fold id. rewrite Ht, Hf. simpl.
  rewrite processTasksAndFiles_tasksWithState, decide_False by done. simpl.
  by rewrite <-!app_assoc.
Qed.






End fetch.



(** A fetch from a store whose tasks cannot be read. *)
Lemma fetchTasksAndFiles_tasks_error_witness :
  QueryResult.error (tasks TaskStoreExamples.unreadable
                       (validatedBusinessId TaskStoreExamples.business))
  = Some "permission denied"
  ∧ fetchTasksAndFiles Examples.compare_code_units
      TaskStoreExamples.messages TaskStoreExamples.unreadable
      TaskStoreExamples.business TaskStoreExamples.mounted
    = (inr tt,
       settled TaskStoreExamples.mounted []
         (Some "Failed to fetch tasks: permission denied")
         [SelectTasks TaskStoreExamples.business]).
Proof.
  split; [done|].
  exact (fetchTasksAndFiles_tasks_error Examples.compare_code_units
           TaskStoreExamples.messages TaskStoreExamples.unreadable
           TaskStoreExamples.business TaskStoreExamples.mounted
           "permission denied" eq_refl).
Defined.

(** The business id of the analysis page is not a UUID. *)
Lemma invalid_id_is_served_as_fallback_witness :
  isValidUUID "mock-business-1" = false
  ∧ fetchTasksAndFiles Examples.compare_code_units
      TaskStoreExamples.messages TaskStoreExamples.two_tasks "mock-business-1"
      TaskStoreExamples.mounted
    = fetchTasksAndFiles Examples.compare_code_units
        TaskStoreExamples.messages TaskStoreExamples.two_tasks
        "37add0e6-16d4-4607-b057-7e7a1ede55f1" TaskStoreExamples.mounted.
Proof.
  split; [done|].
  exact (invalid_id_is_served_as_fallback Examples.compare_code_units
           TaskStoreExamples.messages TaskStoreExamples.two_tasks
           "mock-business-1" TaskStoreExamples.mounted eq_refl).
Defined.

(** A fetch of a task whose category is "constructor". *)
Lemma fetchTasksAndFiles_inherited_category_witness :
  (TasksView.tasks TaskStoreExamples.inherited_name
     (validatedBusinessId TaskStoreExamples.business)
   = QueryResult.mk
       (Some [Examples.task "t1" (Some "Legal Documents");
              Examples.task "t2" (Some "constructor")]) None
   ∧ QueryResult.error (uploaded_files TaskStoreExamples.inherited_name
                          (validatedBusinessId TaskStoreExamples.business))
     = None
   ∧ ¬ ordinary_categories [Examples.task "t1" (Some "Legal Documents");
                            Examples.task "t2" (Some "constructor")])
  ∧ fetchTasksAndFiles Examples.compare_code_units
      TaskStoreExamples.messages TaskStoreExamples.inherited_name
      TaskStoreExamples.business TaskStoreExamples.mounted
    = (inr tt,
       settled TaskStoreExamples.mounted []
         (Some "tasksByCategory[category].push is not a function")
         (queries TaskStoreExamples.business)).
Proof.
  assert (¬ ordinary_categories [Examples.task "t1" (Some "Legal Documents");
                                 Examples.task "t2" (Some "constructor")])
    as Hname.
  { intros [_ [Hname _]%Forall_cons]%Forall_cons. apply Hname.
    by apply (bool_decide_unpack _). }
  split; [by split_and!|].
  exact (fetchTasksAndFiles_inherited_category Examples.compare_code_units
           TaskStoreExamples.messages TaskStoreExamples.inherited_name
           TaskStoreExamples.business TaskStoreExamples.mounted _
           eq_refl eq_refl Hname).
Defined.



End TasksViewTheorems.

(** ** The last analysed file *)

Module LastFileTheorems.
Import Effect Effect.Notations LastFile LastFileSpec.

Local Ltac run_hook :=
  unfold fetchRecentFiles, checkFileExists, finally, try_catch, bind, ret,
    throw, setIsLoading, setLastFileId, setRecentFiles, update, modify, send;
  simpl.

Lemma not_deleted_live file : not_deleted file = true ↔ live file.
Proof.
  unfold not_deleted, live.
  destruct (FileInfo.is_deleted file) as [| |[]]; naive_solver.
Qed.

(** The ways [fetchRecentFiles] ends. *)
Lemma fetchRecentFiles_cases supabase w :
  ∃ result files queries,
    fetchRecentFiles supabase w
    = (inr result,
       {| state := {| lastFileId := lastFileId (state w);
                      isLoading := false;
                      recentFiles := files |};
          sent := sent w ++ queries |})
    ∧ ((result = None ∧ files = recentFiles (state w)
        ∧ (auth_user supabase = None ∧ queries = [GetUser]
           ∨ ∃ user_id message,
               auth_user supabase = Some user_id
               ∧ QueryResult.error (processed_files supabase user_id)
                 = Some message
               ∧ queries = [GetUser; SelectProcessedFiles user_id]))
       ∨ (∃ user_id,
            auth_user supabase = Some user_id
            ∧ QueryResult.error (processed_files supabase user_id) = None
            ∧ files = filter not_deleted
                        (default [] (QueryResult.data
                                       (processed_files supabase user_id)))
            ∧ result = FileInfo.id <$> head files
            ∧ queries = [GetUser; SelectProcessedFiles user_id])).
Proof.
  run_hook. destruct (auth_user supabase) as [user_id|] eqn:Huser; simpl.
  2:{ eexists _, _, _. split; [done|]. left. eauto. }
  destruct (QueryResult.error (processed_files supabase user_id))
    as [message|] eqn:HE; simpl.
  { eexists _, _, _. rewrite <-app_assoc. split; [done|]. left.
    split_and!; [done..|]. right. by exists user_id, message. }
  eexists _, _, _. rewrite <-app_assoc. split; [done|]. right.
  exists user_id. split_and!; [done|done| | |done].
  - by destruct (QueryResult.data (processed_files supabase user_id)).
  - destruct (QueryResult.data (processed_files supabase user_id)) as [l|];
      simpl; [|done].
    by destruct (filter not_deleted l).
Qed.

(** X24. However the store answers, [fetchRecentFiles] returns without
    an exception, with [isLoading] false and [lastFileId] as it was. An
    id it returns is the id of the first of [recentFiles]; and
    [recentFiles] are either what they were or the files of the answer
    of the store that are not marked as deleted, in the order of the
    answer. *)
Theorem fetchRecentFiles_result supabase w :
  ∃ result,
    (fetchRecentFiles supabase w).1 = inr result
    ∧ isLoading (state (fetchRecentFiles supabase w).2) = false
    ∧ lastFileId (state (fetchRecentFiles supabase w).2) = lastFileId (state w)
    ∧ (∀ id, result = Some id →
         ∃ file rest,
           recentFiles (state (fetchRecentFiles supabase w).2) = file :: rest
           ∧ FileInfo.id file = id)
    ∧ (recentFiles (state (fetchRecentFiles supabase w).2)
       = recentFiles (state w) ∧ result = None
       ∨ ∃ user_id answer,
           auth_user supabase = Some user_id
           ∧ processed_files supabase user_id = QueryResult.mk answer None
           ∧ (∀ file,
                file ∈ recentFiles (state (fetchRecentFiles supabase w).2)
                ↔ file ∈ default [] answer ∧ live file)
           ∧ recentFiles (state (fetchRecentFiles supabase w).2)
             `sublist_of` default [] answer).
Proof.
  destruct (fetchRecentFiles_cases supabase w)
    as (result & files & queries & -> & Hcases).
  exists result. simpl. split_and!; [done..| |].
  - intros id ->.
    destruct Hcases as [(? & _)|(user_id & _ & _ & _ & Hres & _)]; [done|].
    destruct files as [|file rest]; [done|].
    injection Hres as ->. by exists file, rest.
  - destruct Hcases as [(-> & -> & _)|(user_id & Huser & HE & -> & _ & _)];
      [by left|].
    right. exists user_id, (QueryResult.data (processed_files supabase user_id)).
    split_and!; [done| | |apply sublist_filter].
    + destruct (processed_files supabase user_id). simpl in *. by subst.
    + intros file.
      rewrite list_elem_of_filter, Is_true_true, not_deleted_live. tauto.
Qed.






End LastFileTheorems.

(** ** The list of documents *)

Module DocumentsTheorems.
Import Effect Documents.

Local Ltac run_component :=
  unfold fetchFiles, handleDeleteDocument, finally, try_catch, bind, ret, throw,
    get, toast, setIsLoading, setUploadedFiles, update, modify, send;
  simpl.

(** X26. However the store answers, [handleDeleteDocument] returns
    without an exception, having sent the one update and shown one
    toast. The rows of other documents and [isLoading] are as they
    were. A toast of variant "success" comes with a list that holds no
    row of the document; any other toast is of variant "destructive"
    and comes with the list as it was. *)
Theorem handleDeleteDocument_outcome supabase fileId w :
  ∃ shown,
    (handleDeleteDocument supabase fileId w).1 = inr tt
    ∧ sent (handleDeleteDocument supabase fileId w).2
      = sent w ++ [UpdateIsDeleted fileId]
    ∧ toasts (handleDeleteDocument supabase fileId w).2 = toasts w ++ [shown]
    ∧ isLoading (state (handleDeleteDocument supabase fileId w).2)
      = isLoading (state w)
    ∧ filter (λ file, Document.id file ≠ fileId)
        (uploadedFiles (state (handleDeleteDocument supabase fileId w).2))
      = filter (λ file, Document.id file ≠ fileId) (uploadedFiles (state w))
    ∧ (variant shown = "success" →
       QueryResult.error (soft_delete supabase fileId) = None
       ∧ Forall (λ file, Document.id file ≠ fileId)
           (uploadedFiles (state (handleDeleteDocument supabase fileId w).2)))
    ∧ (variant shown ≠ "success" →
       variant shown = "destructive"
       ∧ QueryResult.error (soft_delete supabase fileId) ≠ None
       ∧ uploadedFiles (state (handleDeleteDocument supabase fileId w).2)
         = uploadedFiles (state w)).
Proof.
  run_component.
  destruct (QueryResult.error (soft_delete supabase fileId)) as [message|];
    simpl.
  - eexists. split_and!; [done..| |]; [by intros [=]|done].
  - eexists. split_and!; [done..| | |].
    + by rewrite list_filter_filter_l.
    + intros _. split; [done|].
      apply Forall_forall. by intros file [? _]%list_elem_of_filter.
    + done.
Qed.

(** X27. In every row the button follows the badge: "View Analysis"
    is enabled exactly under the badge "Processed", "Retry Upload" is
    offered exactly under the badge "Error", and "View Analysis" is
    disabled under the badges "Processing" and "Pending". *)
Theorem button_follows_badge (file : Document.t) :
  (rowAction file = ViewAnalysis
   ↔ getStatusBadge (Document.status file) = Processed)
  ∧ (rowAction file = RetryUpload
     ↔ getStatusBadge (Document.status file) = Error)
  ∧ (rowAction file = ViewAnalysisDisabled
     ↔ getStatusBadge (Document.status file) = Processing
       ∨ getStatusBadge (Document.status file) = Pending).
Proof.
  unfold rowAction, getStatusBadge.
  repeat case_decide; try congruence; naive_solver.
Qed.

(** X28. However the store answers, [fetchFiles] returns without an
    exception, with [isLoading] false and without a toast; the list is
    the answer of the store, deleted documents included, when a user is
    signed in and the query has not failed, and is as it was
    otherwise. *)
Theorem fetchFiles_outcome supabase w :
  (fetchFiles supabase w).1 = inr tt
  ∧ isLoading (state (fetchFiles supabase w).2) = false
  ∧ toasts (fetchFiles supabase w).2 = toasts w
  ∧ match auth_user supabase with
    | Some user_id =>
        sent (fetchFiles supabase w).2
        = sent w ++ [GetUser; SelectUploadedFiles user_id]
        ∧ uploadedFiles (state (fetchFiles supabase w).2)
          = match QueryResult.error (uploaded_files supabase user_id) with
            | Some _ => uploadedFiles (state w)
            | None =>
                default [] (QueryResult.data (uploaded_files supabase user_id))
            end
    | None =>
        sent (fetchFiles supabase w).2 = sent w ++ [GetUser]
        ∧ uploadedFiles (state (fetchFiles supabase w).2)
          = uploadedFiles (state w)
    end.
Proof.
  run_component. destruct (auth_user supabase) as [user_id|]; simpl; [|done].
  destruct (QueryResult.error (uploaded_files supabase user_id)); simpl;
    by rewrite <-app_assoc.
Qed.

End DocumentsTheorems.
